(** * Rotations of collections of vectors: a shallow embedding

    The repository holds two Python modules built on numpy:
    - [rotations3d.py]: construction of 3x3 rotation matrices (from angles and
      axes, from pairs of vectors, from bases) and a few derived vector
      operations, all vectorised over a leading index;
    - [rotate_vector_collection.py]: the n-dimensional application of rotation
      matrices to collections of vectors.

    Numbers.  numpy's float64 is modelled by [fval]: a real number, or one of
    the IEEE special values (the two infinities and not-a-number).  Arithmetic
    on finite values is exact real arithmetic; rounding, underflow, overflow
    and the sign of zero are abstracted away, so a statement "up to floating
    tolerance" reads here as an equality of real numbers.  The special values
    follow IEEE 754 (0/0 is not-a-number, x/0 is an infinity, any operation on
    not-a-number is not-a-number).

    Conditioning.  An equality of real numbers stands for the floating-point
    result only where the computation is well conditioned.  The axis of a
    rotation between two vectors is their normalised cross product: near
    parallel or antiparallel vectors the cross product is a difference of
    nearly equal products and its direction is lost to cancellation, and for
    very short or very long vectors the products and squares underflow or
    overflow.  The statements that assert the direction of such an axis, or
    of a vector turned about it, therefore carry the hypotheses [well_scaled]
    (a length between 1e-50 and 1e50) and [separated] (the sine of the angle
    between the two vectors is at least 1e-3).

    Arrays.  An [ndarray] is a shape and a row-major buffer, as in numpy.  The
    numpy operations the two modules call are defined in [Module np]. *)

From Stdlib Require Import String Reals Lra Lia Arith Bool List.
From Stdlib Require Import RNsatz.
Import ListNotations.

(* ================================================================= *)
(** ** Floating-point values *)

Inductive fval : Type :=
| Fin (r : R)
| PInf
| NInf
| NaN.

Local Open Scope R_scope.

Definition fzero : fval := Fin 0.
Definition fone : fval := Fin 1.

Definition fneg (x : fval) : fval :=
  match x with
  | Fin a => Fin (- a)
  | PInf => NInf
  | NInf => PInf
  | NaN => NaN
  end.

Definition fadd (x y : fval) : fval :=
  match x, y with
  | NaN, _ | _, NaN => NaN
  | Fin a, Fin b => Fin (a + b)
  | PInf, NInf | NInf, PInf => NaN
  | PInf, _ | _, PInf => PInf
  | NInf, _ | _, NInf => NInf
  end.

Definition fsub (x y : fval) : fval := fadd x (fneg y).

(** The infinity with the sign of [a], not-a-number when [a] is zero. *)
Definition signed_inf (a : R) (pos : fval) : fval :=
  if Rlt_dec 0 a then pos
  else if Rlt_dec a 0 then fneg pos
  else NaN.

Definition fmul (x y : fval) : fval :=
  match x, y with
  | NaN, _ | _, NaN => NaN
  | Fin a, Fin b => Fin (a * b)
  | Fin a, PInf | PInf, Fin a => signed_inf a PInf
  | Fin a, NInf | NInf, Fin a => signed_inf a NInf
  | PInf, PInf | NInf, NInf => PInf
  | PInf, NInf | NInf, PInf => NInf
  end.

Definition fdiv (x y : fval) : fval :=
  match x, y with
  | NaN, _ | _, NaN => NaN
  | Fin a, Fin b =>
      if Req_dec_T b 0 then signed_inf a PInf else Fin (a / b)
  | Fin _, _ => Fin 0
  | PInf, Fin b => if Rlt_dec b 0 then NInf else PInf
  | NInf, Fin b => if Rlt_dec b 0 then PInf else NInf
  | _, _ => NaN
  end.

Definition fsqrt (x : fval) : fval :=
  match x with
  | Fin a => if Rlt_dec a 0 then NaN else Fin (R_sqrt.sqrt a)
  | PInf => PInf
  | _ => NaN
  end.

Definition fsin (x : fval) : fval :=
  match x with Fin a => Fin (Rtrigo_def.sin a) | _ => NaN end.

Definition fcos (x : fval) : fval :=
  match x with Fin a => Fin (Rtrigo_def.cos a) | _ => NaN end.

Definition farccos (x : fval) : fval :=
  match x with
  | Fin a =>
      if Rle_dec (-1) a then if Rle_dec a 1 then Fin (Ratan.acos a) else NaN
      else NaN
  | _ => NaN
  end.

Definition fisnan (x : fval) : bool :=
  match x with NaN => true | _ => false end.

(** [x == y]: not-a-number equals nothing, itself included. *)
Definition feqb (x y : fval) : bool :=
  match x, y with
  | Fin a, Fin b => if Req_dec_T a b then true else false
  | PInf, PInf | NInf, NInf => true
  | _, _ => false
  end.

(** [x <= y]: false as soon as one side is not-a-number. *)
Definition fleb (x y : fval) : bool :=
  match x, y with
  | NaN, _ | _, NaN => false
  | Fin a, Fin b => if Rle_dec a b then true else false
  | NInf, _ | _, PInf => true
  | _, _ => false
  end.

(** [x >= y] *)
Definition fgeb (x y : fval) : bool := fleb y x.

(** Left-to-right accumulation from zero, as [np.sum] and the contractions
    of [np.dot] and [np.einsum] do. *)
Definition fsum (l : list fval) : fval := fold_left fadd l fzero.


Local Close Scope R_scope.

(* ================================================================= *)
(** ** Exceptions *)

(** The Python exceptions the two modules can raise, directly ([assert], an
    unbound name) or through numpy (shapes that do not fit). *)
Inductive exn : Type :=
| AssertionError (msg : string)
| ValueError
| IndexError
| TypeError
| NameError (name : string)
| UnboundLocalError (name : string).

Inductive result (A : Type) : Type :=
| Ok (a : A)
| Raise (e : exn).

Arguments Ok {A} a.
Arguments Raise {A} e.

Definition bind {A B : Type} (m : result A) (k : A -> result B) : result B :=
  match m with
  | Ok a => k a
  | Raise e => Raise e
  end.

Notation "x <- m ;; k" := (bind m (fun x => k))
  (at level 61, m at next level, right associativity).

(* ================================================================= *)
(** ** numpy arrays and the operations used by the two modules *)

(** The value read where numpy would never read (an index outside the
    buffer); no function below reads there on a well-formed array. *)
Class Default (A : Type) : Type := default_value : A.
#[export] Instance default_fval : Default fval := NaN.
#[export] Instance default_bool : Default bool := false.

Module np.

Record ndarray (A : Type) : Type := mkarray {
  shape : list nat;
  data : list A
}.

Arguments mkarray {A} shape data.
Arguments shape {A} n.
Arguments data {A} n.

(** Number of elements of an array of shape [sh]. *)
Definition size (sh : list nat) : nat := fold_right Nat.mul 1 sh.

Definition ndim {A} (a : ndarray A) : nat := length (shape a).

(** The buffer holds exactly the elements of the shape. *)
Definition wf {A} (a : ndarray A) : Prop := length (data a) = size (shape a).

(** Row-major position of a multi-index, and back. *)
Fixpoint ravel (sh idx : list nat) : nat :=
  match sh, idx with
  | _ :: sh', i :: idx' => i * size sh' + ravel sh' idx'
  | _, _ => 0
  end.

Fixpoint unravel (sh : list nat) (p : nat) : list nat :=
  match sh with
  | [] => []
  | _ :: sh' => (p / size sh') :: unravel sh' (p mod size sh')
  end.

Fixpoint in_bounds (sh idx : list nat) : Prop :=
  match sh, idx with
  | [], [] => True
  | n :: sh', i :: idx' => i < n /\ in_bounds sh' idx'
  | _, _ => False
  end.

Section Elements.
Context {A : Type} `{Default A}.

Definition get_flat (a : ndarray A) (p : nat) : A :=
  nth p (data a) default_value.

(** [a[i, j, ...]].  The accessor is total: an index outside the array
    reads the default value (not-a-number for floats), where numpy raises
    [IndexError]; the statements read entries inside the stated shapes. *)
Definition get (a : ndarray A) (idx : list nat) : A :=
  get_flat a (ravel (shape a) idx).

(** The array of shape [sh] whose element at [idx] is [f idx]. *)
Definition build (sh : list nat) (f : list nat -> A) : ndarray A :=
  mkarray sh (map (fun p => f (unravel sh p)) (seq 0 (size sh))).

End Elements.

(** A zero-dimensional array, as numpy makes of a Python number. *)
Definition scalar {A} (x : A) : ndarray A := mkarray [] [x].

(** ** Broadcasting *)

Definition bdim (a b : nat) : option nat :=
  if a =? b then Some a
  else if a =? 1 then Some b
  else if b =? 1 then Some a
  else None.

(** Shapes are aligned on their last axis: work on the reversed lists. *)
Fixpoint broadcast_rev (s1 s2 : list nat) : option (list nat) :=
  match s1, s2 with
  | [], s | s, [] => Some s
  | a :: s1', b :: s2' =>
      match bdim a b, broadcast_rev s1' s2' with
      | Some d, Some s => Some (d :: s)
      | _, _ => None
      end
  end.

Definition broadcast_shapes (s1 s2 : list nat) : option (list nat) :=
  option_map (@rev nat) (broadcast_rev (rev s1) (rev s2)).

(** The index read along an axis of length [d] for position [i] of the
    result: an axis of length one is repeated. *)
Definition bi (d i : nat) : nat := if d =? 1 then 0 else i.

Fixpoint bis (sh idx : list nat) : list nat :=
  match sh, idx with
  | d :: sh', i :: idx' => bi d i :: bis sh' idx'
  | _, _ => []
  end.

(** The index of an operand of shape [sh] that feeds position [idx] of a
    broadcast result. *)
Definition bindex (sh idx : list nat) : list nat :=
  bis sh (skipn (length idx - length sh) idx).

Section Elementwise.
Context {A B C : Type} `{Default A} `{Default B} `{Default C}.

Definition map1 (f : A -> C) (a : ndarray A) : ndarray C :=
  build (shape a) (fun idx => f (get a idx)).

(** A binary ufunc: the operands are broadcast against each other. *)
Definition map2 (f : A -> B -> C) (a : ndarray A) (b : ndarray B)
  : result (ndarray C) :=
  match broadcast_shapes (shape a) (shape b) with
  | Some sh =>
      Ok (build sh (fun idx =>
            f (get a (bindex (shape a) idx)) (get b (bindex (shape b) idx))))
  | None => Raise ValueError
  end.

End Elementwise.

(** An in-place binary ufunc ([a *= b]): the result must have the shape
    of [a]. *)
Definition imap2 {A B} `{Default A} `{Default B}
    (f : A -> B -> A) (a : ndarray A) (b : ndarray B) : result (ndarray A) :=
  match broadcast_shapes (shape a) (shape b) with
  | Some sh =>
      if list_eq_dec Nat.eq_dec sh (shape a) then map2 f a b
      else Raise ValueError
  | None => Raise ValueError
  end.

Definition add := map2 fadd.
Definition subtract := map2 fsub.
Definition multiply := map2 fmul.
Definition divide := map2 fdiv.
Definition sin := map1 fsin.
Definition cos := map1 fcos.
Definition sqrt := map1 fsqrt.
Definition arccos := map1 farccos.
Definition isnan := map1 fisnan.
Definition logical_or := map2 orb.
Definition equal := map2 feqb.
Definition greater_equal := map2 fgeb.
Definition less_equal := map2 fleb.

(** [np.all] of a boolean array. *)
Definition all (a : ndarray bool) : bool := forallb (fun b => b) (data a).

Definition zeros (sh : list nat) : ndarray fval := build sh (fun _ => Fin 0%R).

(** ** Shapes *)

(** [np.shape(a)[0]] *)
Definition shape_first {A} (a : ndarray A) : result nat :=
  match shape a with
  | n :: _ => Ok n
  | [] => Raise IndexError
  end.

(** [np.shape(a)[-1]] *)
Definition shape_last {A} (a : ndarray A) : result nat :=
  match rev (shape a) with
  | n :: _ => Ok n
  | [] => Raise IndexError
  end.

Definition atleast_1d {A} (a : ndarray A) : ndarray A :=
  match shape a with
  | [] => mkarray [1] (data a)
  | _ => a
  end.

Definition atleast_2d {A} (a : ndarray A) : ndarray A :=
  match shape a with
  | [] => mkarray [1; 1] (data a)
  | [n] => mkarray [1; n] (data a)
  | _ => a
  end.

(** [a.reshape(sh)]: the same buffer read with another shape. *)
Definition reshape {A} (a : ndarray A) (sh : list nat) : result (ndarray A) :=
  if size sh =? size (shape a) then Ok (mkarray sh (data a))
  else Raise ValueError.

(** [np.repeat(a, k)]: the flattened array, each element [k] times. *)
Definition repeat {A} (a : ndarray A) (k : nat) : ndarray A :=
  mkarray [size (shape a) * k] (flat_map (fun x => List.repeat x k) (data a)).

(** [np.array(l * n)] for a Python list [l] of numbers. *)
Definition array_of_repeated_list {A} (l : list A) (n : nat) : ndarray A :=
  mkarray [length l * n] (concat (List.repeat l n)).

(** [a[..., None]] *)
Definition newaxis_last {A} (a : ndarray A) : ndarray A :=
  mkarray (shape a ++ [1]) (data a).

(** [a[:, None, :]] and [a[:, np.newaxis]] *)
Definition newaxis_1 {A} (a : ndarray A) : result (ndarray A) :=
  match shape a with
  | n :: sh => Ok (mkarray (n :: 1 :: sh) (data a))
  | [] => Raise IndexError
  end.

(** [a.T]: the axes in reverse order. *)
Definition T {A} `{Default A} (a : ndarray A) : ndarray A :=
  build (rev (shape a)) (fun idx => get a (rev idx)).

(** ** Indexing *)

(** [a[i]] *)
Definition getitem {A} `{Default A} (a : ndarray A) (i : nat)
  : result (ndarray A) :=
  match shape a with
  | n :: sh =>
      if i <? n then Ok (build sh (fun idx => get a (i :: idx)))
      else Raise IndexError
  | [] => Raise IndexError
  end.

(** [a[:, c]] *)
Definition column {A} `{Default A} (a : ndarray A) (c : nat)
  : result (ndarray A) :=
  match shape a with
  | n :: d :: sh =>
      if c <? d then
        Ok (build (n :: sh) (fun idx =>
              match idx with
              | i :: idx' => get a (i :: c :: idx')
              | [] => default_value
              end))
      else Raise IndexError
  | _ => Raise IndexError
  end.

(** [a[:, r, c] = v] on a three-dimensional [a]; [v], of at most one axis,
    is broadcast to the first axis.  (numpy also drops leading axes of
    length one of [v]; values with more than one axis are not modelled and
    are refused here.) *)
Definition setitem_rc (a : ndarray fval) (r c : nat) (v : ndarray fval)
  : result (ndarray fval) :=
  match shape a with
  | [n; d1; d2] =>
      if (r <? d1) && (c <? d2) then
        match broadcast_shapes [n] (shape v) with
        | Some [m] =>
            if m =? n then
              Ok (build [n; d1; d2] (fun idx =>
                    match idx with
                    | [i; r'; c'] =>
                        if (r' =? r) && (c' =? c)
                        then get v (bindex (shape v) [i])
                        else get a idx
                    | _ => default_value
                    end))
            else Raise ValueError
        | _ => Raise ValueError
        end
      else Raise IndexError
  | _ => Raise IndexError
  end.

(** The positions [t] with [rows[t] = r] and [cols[t] = c]; the last one
    is the one whose write survives. *)
Definition last_match (rows cols : list nat) (r c : nat) : option nat :=
  fold_left
    (fun acc t =>
       if (nth t rows 0 =? r) && (nth t cols 0 =? c) then Some t else acc)
    (seq 0 (length rows)) None.

(** [a[:, rows, cols]] for two index lists of one length, on a
    three-dimensional [a]. *)
Definition take_rc (a : ndarray fval) (rows cols : list nat)
  : result (ndarray fval) :=
  match shape a with
  | [n; d1; d2] =>
      if (length rows =? length cols)
         && forallb (fun r => r <? d1) rows && forallb (fun c => c <? d2) cols
      then
        Ok (build [n; length rows] (fun idx =>
              match idx with
              | [i; t] => get a [i; nth t rows 0; nth t cols 0]
              | _ => default_value
              end))
      else Raise IndexError
  | _ => Raise IndexError
  end.

(** [a[:, rows, cols] = v]; [v] is broadcast to the selection. *)
Definition put_rc (a : ndarray fval) (rows cols : list nat) (v : ndarray fval)
  : result (ndarray fval) :=
  match shape a with
  | [n; d1; d2] =>
      if (length rows =? length cols)
         && forallb (fun r => r <? d1) rows && forallb (fun c => c <? d2) cols
      then
        match broadcast_shapes [n; length rows] (shape v) with
        | Some sh =>
            if list_eq_dec Nat.eq_dec sh [n; length rows] then
              Ok (build [n; d1; d2] (fun idx =>
                    match idx with
                    | [i; r; c] =>
                        match last_match rows cols r c with
                        | Some t => get v (bindex (shape v) [i; t])
                        | None => get a idx
                        end
                    | _ => default_value
                    end))
            else Raise ValueError
        | None => Raise ValueError
        end
      else Raise IndexError
  | _ => Raise IndexError
  end.

(** [a[:, rows, cols] -= v] and [a[:, rows, cols] += v]: read the
    selection, combine, write back. *)
Definition isub_rc (a : ndarray fval) (rows cols : list nat) (v : ndarray fval)
  : result (ndarray fval) :=
  sel <- take_rc a rows cols ;;
  w <- subtract sel v ;;
  put_rc a rows cols w.

Definition iadd_rc (a : ndarray fval) (rows cols : list nat) (v : ndarray fval)
  : result (ndarray fval) :=
  sel <- take_rc a rows cols ;;
  w <- add sel v ;;
  put_rc a rows cols w.

(** The positions where a one-dimensional mask holds. *)
Definition true_positions (mask : ndarray bool) : list nat :=
  filter (fun i => get_flat mask i) (seq 0 (size (shape mask))).

(** How many positions before [i] the mask holds at. *)
Definition rank_in_mask (mask : ndarray bool) (i : nat) : nat :=
  length (filter (fun j => get_flat mask j) (seq 0 i)).

(** [a[mask]] for a one-dimensional boolean [mask] over the first axis. *)
Definition getitem_mask (a : ndarray fval) (mask : ndarray bool)
  : result (ndarray fval) :=
  match shape a, shape mask with
  | n :: sh, [m] =>
      if m =? n then
        Ok (build (length (true_positions mask) :: sh) (fun idx =>
              match idx with
              | j :: idx' => get a (nth j (true_positions mask) 0 :: idx')
              | [] => default_value
              end))
      else Raise IndexError
  | _, _ => Raise IndexError
  end.

(** [a[mask] = v]; [v] is broadcast to the selected rows. *)
Definition setitem_mask (a : ndarray fval) (mask : ndarray bool)
    (v : ndarray fval) : result (ndarray fval) :=
  match shape a, shape mask with
  | n :: sh, [m] =>
      if m =? n then
        let sel := length (true_positions mask) :: sh in
        match broadcast_shapes sel (shape v) with
        | Some sh' =>
            if list_eq_dec Nat.eq_dec sh' sel then
              Ok (build (n :: sh) (fun idx =>
                    match idx with
                    | i :: idx' =>
                        if get_flat mask i
                        then get v (bindex (shape v)
                                      (rank_in_mask mask i :: idx'))
                        else get a idx
                    | [] => default_value
                    end))
            else Raise ValueError
        | None => Raise ValueError
        end
      else Raise IndexError
  | _, _ => Raise IndexError
  end.

(** ** Reductions and products *)

(** [np.sum(a, axis=1)] *)
Definition sum_axis1 (a : ndarray fval) : result (ndarray fval) :=
  match shape a with
  | n :: d :: sh =>
      Ok (build (n :: sh) (fun idx =>
            match idx with
            | i :: idx' =>
                fsum (map (fun k => get a (i :: k :: idx')) (seq 0 d))
            | [] => default_value
            end))
  | _ => Raise ValueError
  end.

(** [np.cross(a, b)] on arrays whose last axis holds 3-vectors; the
    leading axes are broadcast.  (numpy's treatment of 2-vectors is not
    modelled: a last axis of another length is refused here.) *)
Definition cross (a b : ndarray fval) : result (ndarray fval) :=
  match rev (shape a), rev (shape b) with
  | 3 :: _, 3 :: _ =>
      match broadcast_shapes (shape a) (shape b) with
      | Some sh =>
          Ok (build sh (fun idx =>
                let lead := removelast idx in
                let c := last idx 0 in
                let ia k := bindex (shape a) (lead ++ [k]) in
                let ib k := bindex (shape b) (lead ++ [k]) in
                let c1 := (c + 1) mod 3 in
                let c2 := (c + 2) mod 3 in
                fsub (fmul (get a (ia c1)) (get b (ib c2)))
                     (fmul (get a (ia c2)) (get b (ib c1)))))
      | None => Raise ValueError
      end
  | _, _ => Raise ValueError
  end.

(** [np.dot(a, b)]: a product of numbers when an operand has no axis;
    otherwise the last axis of [a] is contracted with the last axis of a
    one-dimensional [b], or with the last but one axis of [b]. *)
Definition dot (a b : ndarray fval) : result (ndarray fval) :=
  match rev (shape a), rev (shape b) with
  | [], _ | _, [] => multiply a b
  | k :: ra, [k'] =>
      if k =? k' then
        Ok (build (rev ra) (fun idx =>
              fsum (map (fun t => fmul (get a (idx ++ [t])) (get b [t]))
                        (seq 0 k))))
      else Raise ValueError
  | k :: ra, l :: k' :: rb =>
      if k =? k' then
        Ok (build (rev ra ++ rev rb ++ [l]) (fun idx =>
              let ia := firstn (length ra) idx in
              let ib := removelast (skipn (length ra) idx) in
              let j := last idx 0 in
              fsum (map (fun t => fmul (get a (ia ++ [t]))
                                       (get b (ib ++ [t; j])))
                        (seq 0 k))))
      else Raise ValueError
  end.

(** [np.einsum('ijk,ik->ij', a, b)]: [out[i,j] = sum_k a[i,j,k] * b[i,k]].
    The operands must have three and two axes; an axis of length one is
    broadcast against the axis of the same label. *)
Definition einsum_ijk_ik_ij (a b : ndarray fval) : result (ndarray fval) :=
  match shape a, shape b with
  | [i1; j; k1], [i2; k2] =>
      match bdim i1 i2, bdim k1 k2 with
      | Some i, Some k =>
          Ok (build [i; j] (fun idx =>
                match idx with
                | [x; y] =>
                    fsum (map (fun t => fmul (get a [bi i1 x; y; bi k1 t])
                                             (get b [bi i2 x; bi k2 t]))
                              (seq 0 k))
                | _ => default_value
                end))
      | _, _ => Raise ValueError
      end
  | _, _ => Raise ValueError
  end.

(** [np.einsum('ikl,ijl->ijk', a, b)]:
    [out[i,j,k] = sum_l a[i,k,l] * b[i,j,l]]. *)
Definition einsum_ikl_ijl_ijk (a b : ndarray fval) : result (ndarray fval) :=
  match shape a, shape b with
  | [i1; k; l1], [i2; j; l2] =>
      match bdim i1 i2, bdim l1 l2 with
      | Some i, Some l =>
          Ok (build [i; j; k] (fun idx =>
                match idx with
                | [x; y; z] =>
                    fsum (map (fun t => fmul (get a [bi i1 x; z; bi l1 t])
                                             (get b [bi i2 x; y; bi l2 t]))
                              (seq 0 l))
                | _ => default_value
                end))
      | _, _ => Raise ValueError
      end
  | _, _ => Raise ValueError
  end.

End np.

(* ================================================================= *)
(** ** vector_utilities *)

Module VectorUtilities.

(** Modelled from the spec: [vector_utilities.py] is imported by both
    modules but is not among the sources.  [elementwise_dot(a, b)] is the
    per-index dot product of two index-aligned collections. *)
Definition elementwise_dot (x y : np.ndarray fval) : result (np.ndarray fval) :=
  let x := np.atleast_2d x in
  let y := np.atleast_2d y in
  xy <- np.multiply x y ;;
  np.sum_axis1 xy.

(** Modelled from the spec: [vector_utilities.py] is not among the
    sources.  [elementwise_norm(a)] is the per-index magnitude. *)
Definition elementwise_norm (x : np.ndarray fval) : result (np.ndarray fval) :=
  let x := np.atleast_2d x in
  xx <- np.multiply x x ;;
  s <- np.sum_axis1 xx ;;
  Ok (np.sqrt s).

(** Modelled from the spec: [vector_utilities.py] is not among the
    sources.  [normalized_vectors(a)] is the per-index unit vector: each
    vector divided by its magnitude, so a zero vector gives 0/0, which is
    not-a-number. *)
Definition normalized_vectors (vectors : np.ndarray fval)
  : result (np.ndarray fval) :=
  let vectors := np.atleast_2d vectors in
  npts <- np.shape_first vectors ;;
  norms <- elementwise_norm vectors ;;
  norms <- np.reshape norms [npts; 1] ;;
  np.divide vectors norms.

(** Modelled from the spec: [vector_utilities.py] is not among the
    sources.  [angles_between_list_of_vectors(a, b)] is the per-index angle
    in [0, pi] between the two vectors.  In exact arithmetic every
    formulation of that angle is the arc cosine of the dot product of the
    two unit vectors. *)
Definition angles_between_list_of_vectors (v0 v1 : np.ndarray fval)
  : result (np.ndarray fval) :=
  v0 <- normalized_vectors v0 ;;
  v1 <- normalized_vectors v1 ;;
  d <- elementwise_dot v0 v1 ;;
  Ok (np.arccos d).

End VectorUtilities.

(* ================================================================= *)
(** ** rotate_vector_collection.py *)

Module RotateVectorCollection.

(** The [optimize] flag only selects the contraction order of
    [np.einsum]; the retry on [TypeError] repeats the same contraction for
    a numpy without that keyword. *)
Definition rotate_vector_collection
    (rotation_matrices vectors : np.ndarray fval) (optimize : bool)
  : result (np.ndarray fval) :=
  ndim_rotm <- np.shape_last rotation_matrices ;;
  ndim_vec <- np.shape_last vectors ;;
  if negb (ndim_rotm =? ndim_vec) then Raise (AssertionError "") else
  (* apply same rotation matrix to all vectors *)
  if np.ndim rotation_matrices =? 2 then
    d <- np.dot rotation_matrices (np.T vectors) ;;
    Ok (np.T d)
  else
  (* apply same rotation matrix to all vectors *)
  n0 <- np.shape_first rotation_matrices ;;
  if n0 =? 1 then
    m0 <- np.getitem rotation_matrices 0 ;;
    d <- np.dot m0 (np.T vectors) ;;
    Ok (np.T d)
  else
  (* rotate each vector by associated rotation matrix *)
  if np.ndim vectors =? 3 then
    np.einsum_ikl_ijl_ijk rotation_matrices vectors
  else if np.ndim vectors =? 2 then
    np.einsum_ijk_ik_ij rotation_matrices vectors
  else Raise (UnboundLocalError "ein_string").

End RotateVectorCollection.

(* ================================================================= *)
(** ** rotations3d.py *)

Module Rotations3d.

Import VectorUtilities.

Definition rotate_vector_collection
    (rotation_matrices vectors : np.ndarray fval) (optimize : bool)
  : result (np.ndarray fval) :=
  (* apply same rotation matrix to all vectors *)
  if list_eq_dec Nat.eq_dec (np.shape rotation_matrices) [3; 3] then
    d <- np.dot rotation_matrices (np.T vectors) ;;
    Ok (np.T d)
  (* rotate each vector by associated rotation matrix *)
  else np.einsum_ijk_ik_ij rotation_matrices vectors.

Definition rotation_matrices_from_angles (angles directions : np.ndarray fval)
  : result (np.ndarray fval) :=
  directions <- normalized_vectors directions ;;
  let angles := np.atleast_1d angles in
  npts <- np.shape_first directions ;;

  let sina := np.sin angles in
  let cosa := np.cos angles in

  let R1 := np.zeros [npts; 3; 3] in
  R1 <- np.setitem_rc R1 0 0 cosa ;;
  R1 <- np.setitem_rc R1 1 1 cosa ;;
  R1 <- np.setitem_rc R1 2 2 cosa ;;

  d1 <- np.newaxis_1 directions ;;
  R2 <- np.multiply (np.newaxis_last directions) d1 ;;
  omc <- np.subtract (np.scalar (Fin 1%R)) cosa ;;
  omc <- np.reshape (np.repeat omc 9) [npts; 3; 3] ;;
  R2 <- np.multiply R2 omc ;;

  sina1 <- np.reshape sina [npts; 1] ;;
  directions <- np.imap2 fmul directions sina1 ;;
  let R3 := np.zeros [npts; 3; 3] in
  R3 <- np.isub_rc R3 [1; 2; 0] [2; 0; 1] directions ;;
  R3 <- np.iadd_rc R3 [2; 0; 1] [1; 2; 0] directions ;;

  R12 <- np.add R1 R2 ;;
  np.add R12 R3.

Definition vectors_normal_to_planes (x y : np.ndarray fval)
  : result (np.ndarray fval) :=
  c <- np.cross x y ;;
  normalized_vectors c.

Definition rotation_matrices_from_vectors (v0 v1 : np.ndarray fval)
  : result (np.ndarray fval) :=
  v0 <- normalized_vectors v0 ;;
  v1 <- normalized_vectors v1 ;;
  directions <- vectors_normal_to_planes v0 v1 ;;
  angles <- angles_between_list_of_vectors v0 v1 ;;

  (* where angles are 0.0, replace directions with v0 *)
  d0 <- np.column directions 0 ;;
  d1 <- np.column directions 1 ;;
  d2 <- np.column directions 2 ;;
  m01 <- np.logical_or (np.isnan d0) (np.isnan d1) ;;
  mask_a <- np.logical_or m01 (np.isnan d2) ;;
  mask_b <- np.equal angles (np.scalar (Fin 0%R)) ;;
  mask <- np.logical_or mask_a mask_b ;;
  sel <- np.getitem_mask v0 mask ;;
  directions <- np.setitem_mask directions mask sel ;;

  rotation_matrices_from_angles angles directions.

Definition rotation_matrices_from_basis (ux uy uz : np.ndarray fval)
  : result (np.ndarray fval) :=
  N <- np.shape_first ux ;;

  (* assume initial unit vectors are the standard ones *)
  ex <- np.reshape
          (np.array_of_repeated_list [Fin 1%R; Fin 0%R; Fin 0%R] N) [N; 3] ;;
  ey <- np.reshape
          (np.array_of_repeated_list [Fin 0%R; Fin 1%R; Fin 0%R] N) [N; 3] ;;
  ez <- np.reshape
          (np.array_of_repeated_list [Fin 0%R; Fin 0%R; Fin 1%R] N) [N; 3] ;;

  ux <- normalized_vectors ux ;;
  uy <- normalized_vectors uy ;;
  uz <- normalized_vectors uz ;;

  r_11 <- elementwise_dot ex ux ;;
  r_12 <- elementwise_dot ex uy ;;
  r_13 <- elementwise_dot ex uz ;;

  r_21 <- elementwise_dot ey ux ;;
  r_22 <- elementwise_dot ey uy ;;
  r_23 <- elementwise_dot ey uz ;;

  r_31 <- elementwise_dot ez ux ;;
  r_32 <- elementwise_dot ez uy ;;
  r_33 <- elementwise_dot ez uz ;;

  let r := np.zeros [N; 3; 3] in
  r <- np.setitem_rc r 0 0 r_11 ;;
  r <- np.setitem_rc r 0 1 r_12 ;;
  r <- np.setitem_rc r 0 2 r_13 ;;
  r <- np.setitem_rc r 1 0 r_21 ;;
  r <- np.setitem_rc r 1 1 r_22 ;;
  r <- np.setitem_rc r 1 2 r_23 ;;
  r <- np.setitem_rc r 2 0 r_31 ;;
  r <- np.setitem_rc r 2 1 r_32 ;;
  r <- np.setitem_rc r 2 2 r_33 ;;

  Ok r.

Definition vectors_between_list_of_vectors (x y p : np.ndarray fval)
  : result (np.ndarray fval) :=
  p_ge_0 <- np.greater_equal p (np.scalar (Fin 0%R)) ;;
  if negb (np.all p_ge_0) then
    Raise (AssertionError "All values of p must be non-negative")
  else
  p_le_1 <- np.less_equal p (np.scalar (Fin 1%R)) ;;
  if negb (np.all p_le_1) then
    Raise (AssertionError "No value of p can exceed unity")
  else

  z <- vectors_normal_to_planes x y ;;
  theta <- angles_between_list_of_vectors x y ;;
  angles <- np.multiply p theta ;;
  rotation_matrices <- rotation_matrices_from_angles angles z ;;
  rotated <- rotate_vector_collection rotation_matrices x false ;;
  normalized_vectors rotated.

(** The names bound at the top level of [rotations3d.py]: its imports
    and its functions.  None of them is an array. *)
Definition module_names : list string :=
  [ "division"; "print_function"; "absolute_import"; "unicode_literals";
    "np"; "elementwise_dot"; "elementwise_norm"; "normalized_vectors";
    "angles_between_list_of_vectors"; "__all__"; "__author__";
    "rotate_vector_collection"; "rotation_matrices_from_angles";
    "rotation_matrices_from_vectors"; "rotation_matrices_from_basis";
    "vectors_between_list_of_vectors"; "vectors_normal_to_planes";
    "project_onto_plane" ]%string.

(** Reading a name inside a function body: the local variables first,
    then the module.  The module-level names are functions, modules and
    lists of strings, on which the arithmetic below fails; a name bound
    nowhere raises [NameError]. *)
Definition load_name (locals : list (string * np.ndarray fval))
    (name : string) : result (np.ndarray fval) :=
  match find (fun b => String.eqb (fst b) name) locals with
  | Some b => Ok (snd b)
  | None =>
      if existsb (String.eqb name) module_names then Raise TypeError
      else Raise (NameError name)
  end.

(** The last line of the source reads [x], a name that is neither a
    parameter ([x1], [x2]) nor a local ([n], [d]) nor a name of the module.
    The left operand of the subtraction is evaluated first. *)
Definition project_onto_plane (x1 x2 : np.ndarray fval)
  : result (np.ndarray fval) :=
  n <- normalized_vectors x2 ;;
  d <- elementwise_dot x1 n ;;
  let locals := [("x1", x1); ("x2", x2); ("n", n); ("d", d)]%string in
  x <- load_name locals "x" ;;
  d' <- np.newaxis_1 d ;;
  dn <- np.multiply d' n ;;
  np.subtract x dn.

End Rotations3d.

(* ================================================================= *)
(** ** Vocabulary of the statements *)

Arguments np.build : simpl never.
Arguments np.get : simpl never.

(** Arrays of one, two and three axes given by their elements. *)
Definition build1 (n : nat) (f : nat -> fval) : np.ndarray fval :=
  np.build [n] (fun idx => match idx with [i] => f i | _ => NaN end).

Definition build2 (n d : nat) (f : nat -> nat -> fval) : np.ndarray fval :=
  np.build [n; d] (fun idx => match idx with [i; j] => f i j | _ => NaN end).

Definition build3 (n d e : nat) (f : nat -> nat -> nat -> fval)
  : np.ndarray fval :=
  np.build [n; d; e]
    (fun idx => match idx with [i; j; k] => f i j k | _ => NaN end).

(** Component [j] of the product of the [d] x [d] matrix [m] with the
    vector [x]. *)
Definition matvec (d : nat) (m : nat -> nat -> fval) (x : nat -> fval)
    (j : nat) : fval :=
  fsum (map (fun k => fmul (m j k) (x k)) (seq 0 d)).

(** The magnitude of row [i] of a collection of [d]-vectors, the dot
    product of rows [i] of two collections, and component [c] of the unit
    vector along row [i], as [vector_utilities] computes them. *)
Definition row_norm (v : np.ndarray fval) (d i : nat) : fval :=
  fsqrt (fsum (map (fun k => fmul (np.get v [i; k]) (np.get v [i; k]))
                   (seq 0 d))).

Definition row_dot (x y : np.ndarray fval) (d i : nat) : fval :=
  fsum (map (fun k => fmul (np.get x [i; k]) (np.get y [i; k])) (seq 0 d)).

Definition unit_row (v : np.ndarray fval) (d i c : nat) : fval :=
  fdiv (np.get v [i; c]) (row_norm v d i).

(** The entries [rotation_matrices_from_angles] computes for the angle [a]
    and the unit axis [k], with the arithmetic of the source: the diagonal
    term [R1], the outer-product term [R2] and the cross-product term [R3].
    [s] is the sine of the angle. *)
Definition skew_code (k : nat -> fval) (s : fval) (r c : nat) : fval :=
  match r, c with
  | 1, 2 => fsub (Fin 0) (fmul (k 0) s)
  | 2, 0 => fsub (Fin 0) (fmul (k 1) s)
  | 0, 1 => fsub (Fin 0) (fmul (k 2) s)
  | 2, 1 => fadd (Fin 0) (fmul (k 0) s)
  | 0, 2 => fadd (Fin 0) (fmul (k 1) s)
  | 1, 0 => fadd (Fin 0) (fmul (k 2) s)
  | _, _ => Fin 0
  end.

Definition rodrigues_code (a : fval) (k : nat -> fval) (r c : nat) : fval :=
  fadd (fadd (if r =? c then fcos a else Fin 0)
             (fmul (fmul (k r) (k c)) (fsub (Fin 1) (fcos a))))
       (skew_code k (fsin a) r c).

(** *** Real vectors and matrices

    The statements about finite inputs are written with real 3-vectors and
    the real entries of the rotation matrix of Rodrigues' formula. *)
Record vec3 : Type := V3 { vx : R; vy : R; vz : R }.

Definition coord (v : vec3) (c : nat) : R :=
  match c with 0 => vx v | 1 => vy v | _ => vz v end.

Definition dot3 (a b : vec3) : R :=
  (vx a * vx b + vy a * vy b + vz a * vz b)%R.

Definition norm3 (a : vec3) : R := sqrt (dot3 a a).

Definition scale3 (t : R) (a : vec3) : vec3 :=
  V3 (t * vx a) (t * vy a) (t * vz a).

Definition unit3 (a : vec3) : vec3 :=
  V3 (vx a / norm3 a) (vy a / norm3 a) (vz a / norm3 a).

Definition cross3 (a b : vec3) : vec3 :=
  V3 (vy a * vz b - vz a * vy b)
     (vz a * vx b - vx a * vz b)
     (vx a * vy b - vy a * vx b).

Definition kron (r c : nat) : R := if r =? c then 1%R else 0%R.

Definition skew (k : vec3) (r c : nat) : R :=
  match r, c with
  | 0, 1 => (- vz k)%R | 0, 2 => vy k
  | 1, 0 => vz k | 1, 2 => (- vx k)%R
  | 2, 0 => (- vy k)%R | 2, 1 => vx k
  | _, _ => 0%R
  end.

Definition rodrigues (a : R) (k : vec3) (r c : nat) : R :=
  (cos a * kron r c + (1 - cos a) * (coord k r * coord k c)
   + sin a * skew k r c)%R.

Definition mat_vec (m : nat -> nat -> R) (v : vec3) : vec3 :=
  V3 (m 0 0 * vx v + m 0 1 * vy v + m 0 2 * vz v)
     (m 1 0 * vx v + m 1 1 * vy v + m 1 2 * vz v)
     (m 2 0 * vx v + m 2 1 * vy v + m 2 2 * vz v).

Definition row_is (v : np.ndarray fval) (i : nat) (a : vec3) : Prop :=
  np.get v [i; 0] = Fin (vx a) /\ np.get v [i; 1] = Fin (vy a) /\
  np.get v [i; 2] = Fin (vz a).


Definition det3R (m : nat -> nat -> R) : R :=
  let m00 := m 0 0 in let m01 := m 0 1 in let m02 := m 0 2 in
  let m10 := m 1 0 in let m11 := m 1 1 in let m12 := m 1 2 in
  let m20 := m 2 0 in let m21 := m 2 1 in let m22 := m 2 2 in
  (m00 * (m11 * m22 - m12 * m21)
   - m01 * (m10 * m22 - m12 * m20)
   + m02 * (m10 * m21 - m11 * m20))%R.

(** Entry [(r, c)] of the product of the transpose of matrix [i] of the
    collection [M] with that matrix, the same entry of the product of the
    matrix with its transpose, and the determinant of matrix [i], in the
    arithmetic of the arrays. *)
Definition gram (M : np.ndarray fval) (i r c : nat) : fval :=
  fsum (map (fun k => fmul (np.get M [i; k; r]) (np.get M [i; k; c]))
            (seq 0 3)).

Definition gram_rows (M : np.ndarray fval) (i r c : nat) : fval :=
  fsum (map (fun k => fmul (np.get M [i; r; k]) (np.get M [i; c; k]))
            (seq 0 3)).

Definition det3 (M : np.ndarray fval) (i : nat) : fval :=
  let m r c := np.get M [i; r; c] in
  fadd (fsub (fmul (m 0 0) (fsub (fmul (m 1 1) (m 2 2)) (fmul (m 1 2) (m 2 1))))
             (fmul (m 0 1) (fsub (fmul (m 1 0) (m 2 2)) (fmul (m 1 2) (m 2 0)))))
       (fmul (m 0 2) (fsub (fmul (m 1 0) (m 2 1)) (fmul (m 1 1) (m 2 0)))).

(** One-dimensional boolean arrays given by their elements. *)
Definition bbuild1 (n : nat) (f : nat -> bool) : np.ndarray bool :=
  np.build [n] (fun idx => match idx with [i] => f i | _ => false end).

(** Component [c] of the cross product of rows [i] of two collections, as
    [np.cross] computes it. *)
Definition cross_code (a b : np.ndarray fval) (i c : nat) : fval :=
  fsub (fmul (np.get a [i; (c + 1) mod 3]) (np.get b [i; (c + 2) mod 3]))
       (fmul (np.get a [i; (c + 2) mod 3]) (np.get b [i; (c + 1) mod 3])).

(** Entry [(r, c)] of matrix [i] of [rotation_matrices_from_basis]: the dot
    product of the standard basis vector [r] with the normalised row [i] of
    the supplied collection number [c]. *)
Definition basis_code (ux uy uz : np.ndarray fval) (i r c : nat) : fval :=
  let e := nth r [[Fin 1; Fin 0; Fin 0]; [Fin 0; Fin 1; Fin 0];
                  [Fin 0; Fin 0; Fin 1]] [] in
  let u := nth c [ux; uy; uz] ux in
  fsum (map (fun k => fmul (nth k e NaN) (unit_row u 3 i k)) (seq 0 3)).

Definition standard_basis (r : nat) : vec3 :=
  match r with
  | 0 => V3 1 0 0
  | 1 => V3 0 1 0
  | _ => V3 0 0 1
  end.

(** [out] holds, for each of the [n] vectors of [v], the product of the
    [d] x [d] matrix [m] with that vector. *)
Definition applies_matrix (m : nat -> nat -> fval) (d n : nat)
    (v out : np.ndarray fval) : Prop :=
  np.shape out = [n; d] /\
  forall i j, i < n -> j < d ->
    np.get out [i; j] = matvec d m (fun k => np.get v [i; k]) j.

(** [x] is not in the closed interval from 0 to 1 (not-a-number counts as
    outside). *)
Definition outside_unit_interval (x : fval) : Prop :=
  fgeb x (Fin 0) = false \/ fleb x (Fin 1) = false.

(** *** Concrete inputs *)

(** A vector of length 2 along the first axis and a unit vector along the
    second. *)
Definition long_x : np.ndarray fval := np.mkarray [1; 3] [Fin 2; Fin 0; Fin 0].
Definition unit_x : np.ndarray fval := np.mkarray [1; 3] [Fin 1; Fin 0; Fin 0].
Definition unit_y : np.ndarray fval := np.mkarray [1; 3] [Fin 0; Fin 1; Fin 0].
Definition unit_z : np.ndarray fval := np.mkarray [1; 3] [Fin 0; Fin 0; Fin 1].
Definition zero_axis : np.ndarray fval :=
  np.mkarray [1; 3] [Fin 0; Fin 0; Fin 0].
Definition zero_angle : np.ndarray fval := np.mkarray [1] [Fin 0].

(** The identity as a single 3 x 3 matrix, and twice in a collection. *)
Definition identity_matrix : np.ndarray fval :=
  np.mkarray [3; 3]
    [Fin 1; Fin 0; Fin 0;  Fin 0; Fin 1; Fin 0;  Fin 0; Fin 0; Fin 1].

Definition two_identities : np.ndarray fval :=
  np.mkarray [2; 3; 3]
    [Fin 1; Fin 0; Fin 0;  Fin 0; Fin 1; Fin 0;  Fin 0; Fin 0; Fin 1;
     Fin 1; Fin 0; Fin 0;  Fin 0; Fin 1; Fin 0;  Fin 0; Fin 0; Fin 1].

(** Two vectors of dimension one. *)
Definition two_short_vectors : np.ndarray fval :=
  np.mkarray [2; 1] [Fin 1; Fin 2].

(** The fraction 1.5. *)
Definition fraction_too_large : np.ndarray fval := np.mkarray [1] [Fin (3 / 2)].

(** *** Frames and fractions *)

(** The matrix whose columns are the three vectors [a], [b] and [c]:
    entry [(r, col)] is component [r] of vector number [col]. *)
Definition frame_matrix (a b c : vec3) (r col : nat) : R :=
  coord (nth col [a; b; c] a) r.

(** [x] is a finite number in the closed interval from 0 to 1. *)
Definition fraction (x : fval) : Prop :=
  exists t : R, x = Fin t /\ (0 <= t <= 1)%R.

(** *** Conditioning

    [well_scaled a]: the length of [a] is between 1e-50 and 1e50 (stated on
    the square of the length).  [separated a b]: the sine of the angle
    between [a] and [b] is at least 1e-3 (stated on squares: the square
    of the length of the cross product against the product of the squares
    of the lengths). *)
Definition well_scaled (a : vec3) : Prop :=
  (1e-100 <= dot3 a a <= 1e100)%R.

Definition separated (a b : vec3) : Prop :=
  (1e-6 * (dot3 a a * dot3 b b) <= dot3 (cross3 a b) (cross3 a b))%R.

(** *** More concrete inputs *)

(** The 2 x 2 identity as a single matrix, and one vector of the plane. *)
Definition identity_2x2 : np.ndarray fval :=
  np.mkarray [2; 2] [Fin 1; Fin 0;  Fin 0; Fin 1].

Definition plane_vector : np.ndarray fval := np.mkarray [1; 2] [Fin 1; Fin 0].

(** Two 3-vectors as a collection, and as two sets of one vector each. *)
Definition two_vectors : np.ndarray fval :=
  np.mkarray [2; 3] [Fin 1; Fin 0; Fin 0;  Fin 0; Fin 1; Fin 0].

Definition two_sets : np.ndarray fval :=
  np.mkarray [2; 1; 3] [Fin 1; Fin 0; Fin 0;  Fin 0; Fin 1; Fin 0].

(** The identity as a collection of one matrix; one set of one vector; a
    single vector with one axis. *)
Definition one_identity : np.ndarray fval :=
  np.mkarray [1; 3; 3]
    [Fin 1; Fin 0; Fin 0;  Fin 0; Fin 1; Fin 0;  Fin 0; Fin 0; Fin 1].

Definition one_set : np.ndarray fval :=
  np.mkarray [1; 1; 3] [Fin 1; Fin 0; Fin 0].

Definition flat_vector : np.ndarray fval :=
  np.mkarray [3] [Fin 1; Fin 0; Fin 0].

(** Two angles, and the fractions 1 and 0.5. *)
Definition two_angles : np.ndarray fval := np.mkarray [2] [Fin 0; Fin 0].
Definition one_fraction : np.ndarray fval := np.mkarray [1] [Fin 1].
Definition half_fraction : np.ndarray fval := np.mkarray [1] [Fin (1 / 2)].

(** The angle -0.5. *)
Definition minus_half : np.ndarray fval := np.mkarray [1] [Fin (- (1 / 2))].

Ltac inb := simpl; repeat split; try lia; auto.

(* ================================================================= *)
(** * Properties *)

(** ** Indices and buffers *)

Section IndexLemmas.
Import np.

Lemma ravel_lt : forall sh idx, in_bounds sh idx -> ravel sh idx < size sh.
Proof.
  induction sh as [|n sh IH]; intros [|i idx] Hb; simpl in *; try tauto; try lia.
  destruct Hb as [Hi Hb]. specialize (IH _ Hb). nia.
Qed.

Lemma unravel_ravel : forall sh idx,
  in_bounds sh idx -> unravel sh (ravel sh idx) = idx.
Proof.
  induction sh as [|n sh IH]; intros [|i idx] Hb; simpl in *; try tauto.
  destruct Hb as [Hi Hb]. pose proof (ravel_lt _ _ Hb) as Hlt.
  assert (Hs : size sh <> 0) by lia.
  rewrite Nat.div_add_l by exact Hs.
  rewrite (Nat.div_small (ravel sh idx)) by exact Hlt.
  rewrite Nat.add_0_r. f_equal.
  rewrite Nat.add_comm, Nat.Div0.mod_add, Nat.mod_small by exact Hlt.
  now apply IH.
Qed.

Lemma unravel_in_bounds : forall sh p, p < size sh -> in_bounds sh (unravel sh p).
Proof.
  induction sh as [|n sh IH]; intros p Hp; simpl in *; [exact I|].
  assert (Hs : size sh <> 0) by (intro E; rewrite E in Hp; lia).
  split.
  - apply Nat.Div0.div_lt_upper_bound. lia.
  - apply IH. now apply Nat.mod_upper_bound.
Qed.

Lemma ravel_unravel : forall sh p, p < size sh -> ravel sh (unravel sh p) = p.
Proof.
  induction sh as [|n sh IH]; intros p Hp; simpl in *; [lia|].
  assert (Hs : size sh <> 0) by (intro E; rewrite E in Hp; lia).
  rewrite IH by now apply Nat.mod_upper_bound.
  rewrite (Nat.div_mod_eq p (size sh)) at 3. lia.
Qed.

Context {A : Type} `{Default A}.

Lemma shape_build : forall sh (f : list nat -> A), shape (build sh f) = sh.
Proof. reflexivity. Qed.

Lemma wf_build : forall sh (f : list nat -> A), wf (build sh f).
Proof. intros. unfold wf, build. simpl. now rewrite length_map, length_seq. Qed.

Lemma get_flat_build : forall sh (f : list nat -> A) p,
  p < size sh -> get_flat (build sh f) p = f (unravel sh p).
Proof.
  intros sh f p Hp. unfold get_flat, build. simpl.
  rewrite nth_indep with (d' := f (unravel sh 0))
    by now rewrite length_map, length_seq.
  rewrite (map_nth (fun q => f (unravel sh q))).
  now rewrite seq_nth.
Qed.

Lemma get_build : forall sh (f : list nat -> A) idx,
  in_bounds sh idx -> get (build sh f) idx = f idx.
Proof.
  intros sh f idx Hb. unfold get. rewrite shape_build.
  rewrite get_flat_build by now apply ravel_lt.
  now rewrite unravel_ravel.
Qed.

Lemma build_ext : forall sh (f g : list nat -> A),
  (forall idx, in_bounds sh idx -> f idx = g idx) -> build sh f = build sh g.
Proof.
  intros sh f g Hfg. unfold build. f_equal.
  apply map_ext_in. intros p Hp. apply in_seq in Hp.
  apply Hfg, unravel_in_bounds. lia.
Qed.

Lemma build_get : forall a : ndarray A, wf a -> build (shape a) (get a) = a.
Proof.
  intros [sh dat] Hwf. unfold wf in Hwf. simpl in Hwf.
  unfold build. simpl. f_equal.
  apply nth_ext with (d := default_value) (d' := default_value).
  - now rewrite length_map, length_seq.
  - intros p Hp. rewrite length_map, length_seq in Hp.
    rewrite nth_indep with (d' := get (mkarray sh dat) (unravel sh 0))
      by now rewrite length_map, length_seq.
    rewrite (map_nth (fun q => get (mkarray sh dat) (unravel sh q))).
    rewrite seq_nth by exact Hp. unfold get, get_flat. simpl.
    now rewrite ravel_unravel.
Qed.

(** Two arrays are equal when they have the same shape and the same
    elements. *)
Lemma ndarray_ext : forall a b : ndarray A,
  wf a -> wf b -> shape a = shape b ->
  (forall idx, in_bounds (shape a) idx -> get a idx = get b idx) ->
  a = b.
Proof.
  intros a b Ha Hb Hs Hg.
  rewrite <- (build_get a Ha), <- (build_get b Hb), <- Hs.
  now apply build_ext.
Qed.

End IndexLemmas.

(** ** Broadcasting *)

Section BroadcastLemmas.
Import np.

Lemma bdim_refl : forall a, bdim a a = Some a.
Proof. intros a. unfold bdim. now rewrite Nat.eqb_refl. Qed.

Lemma bdim_1_l : forall n, bdim 1 n = Some n.
Proof.
  intros n. unfold bdim.
  destruct (1 =? n) eqn:E; [apply Nat.eqb_eq in E; now subst | reflexivity].
Qed.

Lemma bdim_1_r : forall n, bdim n 1 = Some n.
Proof. intros n. unfold bdim. now destruct (n =? 1). Qed.

Lemma bi_lt : forall d i, i < d -> bi d i = i.
Proof.
  intros d i Hi. unfold bi.
  destruct (d =? 1) eqn:E; [apply Nat.eqb_eq in E; lia | reflexivity].
Qed.

Lemma bi_1 : forall i, bi 1 i = 0.
Proof. reflexivity. Qed.

Lemma bis_in_bounds : forall sh idx, in_bounds sh idx -> bis sh idx = idx.
Proof.
  induction sh as [|d sh IH]; intros [|i idx] Hb; simpl in *; try tauto.
  destruct Hb as [Hi Hb]. now rewrite bi_lt, IH.
Qed.

Lemma in_bounds_length : forall sh idx,
  in_bounds sh idx -> length idx = length sh.
Proof.
  induction sh as [|d sh IH]; intros [|i idx] Hb; simpl in *; try tauto.
  f_equal. apply IH. tauto.
Qed.

Lemma bindex_in_bounds : forall sh idx,
  in_bounds sh idx -> bindex sh idx = idx.
Proof.
  intros sh idx Hb. unfold bindex.
  rewrite (in_bounds_length _ _ Hb), Nat.sub_diag. simpl.
  now apply bis_in_bounds.
Qed.

Lemma broadcast_rev_refl : forall s, broadcast_rev s s = Some s.
Proof.
  induction s as [|a s IH]; simpl; [reflexivity|].
  now rewrite bdim_refl, IH.
Qed.

Lemma broadcast_shapes_refl : forall s, broadcast_shapes s s = Some s.
Proof.
  intros s. unfold broadcast_shapes. rewrite broadcast_rev_refl. simpl.
  now rewrite rev_involutive.
Qed.

Lemma fsum_map_ext : forall (f g : nat -> fval) n,
  (forall k, k < n -> f k = g k) ->
  fsum (map f (seq 0 n)) = fsum (map g (seq 0 n)).
Proof.
  intros f g n Hfg. f_equal. apply map_ext_in. intros k Hk.
  apply in_seq in Hk. apply Hfg. lia.
Qed.

End BroadcastLemmas.

(** ** Elements of the arrays given by their elements *)

Section BuildLemmas.
Import np.

Lemma get_build1 : forall n f i, i < n -> get (build1 n f) [i] = f i.
Proof. intros. unfold build1. now rewrite get_build by inb. Qed.

Lemma get_build2 : forall n d f i j,
  i < n -> j < d -> get (build2 n d f) [i; j] = f i j.
Proof. intros. unfold build2. now rewrite get_build by inb. Qed.

Lemma get_build3 : forall n d e f i j k,
  i < n -> j < d -> k < e -> get (build3 n d e f) [i; j; k] = f i j k.
Proof. intros. unfold build3. now rewrite get_build by inb. Qed.

Lemma build1_ext : forall n F f,
  (forall i, i < n -> F [i] = f i) -> build [n] F = build1 n f.
Proof.
  intros n F f Hf. unfold build1. apply build_ext.
  intros [|i [|? ?]] Hb; simpl in Hb; try tauto. apply Hf. tauto.
Qed.

Lemma build2_ext : forall n d F f,
  (forall i j, i < n -> j < d -> F [i; j] = f i j) ->
  build [n; d] F = build2 n d f.
Proof.
  intros n d F f Hf. unfold build2. apply build_ext.
  intros [|i [|j [|? ?]]] Hb; simpl in Hb; try tauto. apply Hf; tauto.
Qed.

Lemma build3_ext : forall n d e F f,
  (forall i j k, i < n -> j < d -> k < e -> F [i; j; k] = f i j k) ->
  build [n; d; e] F = build3 n d e f.
Proof.
  intros n d e F f Hf. unfold build3. apply build_ext.
  intros [|i [|j [|k [|? ?]]]] Hb; simpl in Hb; try tauto. apply Hf; tauto.
Qed.

End BuildLemmas.

(** ** Elementwise operations and the vector utilities *)

Section OperationLemmas.
Import np VectorUtilities.

Lemma map2_same : forall {A B C} `{Default A} `{Default B} `{Default C}
    (f : A -> B -> C) (a : ndarray A) (b : ndarray B) sh,
  shape a = sh -> shape b = sh ->
  map2 f a b = Ok (build sh (fun idx => f (get a idx) (get b idx))).
Proof.
  intros A B C ? ? ? f a b sh Ha Hb. unfold map2. rewrite Ha, Hb.
  rewrite broadcast_shapes_refl. f_equal. apply build_ext. intros idx Hi.
  now rewrite bindex_in_bounds.
Qed.

(** A scalar operand is read at every position. *)
Lemma map2_scalar_r : forall {A B C} `{Default A} `{Default B} `{Default C}
    (f : A -> B -> C) (a : ndarray A) (y : B),
  map2 f a (scalar y) = Ok (build (shape a) (fun idx => f (get a idx) y)).
Proof.
  intros A B C ? ? ? f a y. unfold map2. simpl shape.
  assert (E : broadcast_shapes (shape a) [] = Some (shape a)).
  { unfold broadcast_shapes. simpl.
    replace (broadcast_rev (rev (shape a)) []) with (Some (rev (shape a)))
      by now destruct (rev (shape a)).
    simpl. now rewrite rev_involutive. }
  rewrite E. f_equal. apply build_ext. intros idx Hi.
  now rewrite bindex_in_bounds by exact Hi.
Qed.

Lemma map2_scalar_l : forall {A B C} `{Default A} `{Default B} `{Default C}
    (f : A -> B -> C) (x : A) (b : ndarray B),
  map2 f (scalar x) b = Ok (build (shape b) (fun idx => f x (get b idx))).
Proof.
  intros A B C ? ? ? f x b. unfold map2. simpl shape.
  assert (E : broadcast_shapes [] (shape b) = Some (shape b)).
  { unfold broadcast_shapes. simpl. now rewrite rev_involutive. }
  rewrite E. f_equal. apply build_ext. intros idx Hi.
  now rewrite (bindex_in_bounds (shape b)) by exact Hi.
Qed.

Lemma elementwise_dot_eq : forall n d x y,
  shape x = [n; d] -> shape y = [n; d] ->
  elementwise_dot x y = Ok (build1 n (row_dot x y d)).
Proof.
  intros n d [sx dx] [sy dy] Hx Hy. simpl in Hx, Hy. subst.
  unfold elementwise_dot. simpl. unfold multiply.
  rewrite (map2_same _ _ _ [n; d]) by reflexivity. simpl.
  unfold sum_axis1. simpl. f_equal. apply build1_ext. intros i Hi.
  unfold row_dot. apply fsum_map_ext. intros k Hk.
  now rewrite get_build by inb.
Qed.

Lemma elementwise_norm_eq : forall n d x,
  shape x = [n; d] ->
  elementwise_norm x = Ok (build1 n (row_norm x d)).
Proof.
  intros n d [sx dx] Hx. simpl in Hx. subst.
  unfold elementwise_norm. simpl. unfold multiply.
  rewrite (map2_same _ _ _ [n; d]) by reflexivity. simpl.
  unfold sum_axis1. simpl. f_equal. unfold sqrt, map1. simpl.
  apply build1_ext. intros i Hi. rewrite get_build by inb.
  unfold row_norm. f_equal. apply fsum_map_ext. intros k Hk.
  now rewrite get_build by inb.
Qed.

Lemma get_reshape_column : forall n f i,
  i < n -> get (mkarray [n; 1] (data (build1 n f))) [i; 0] = f i.
Proof.
  intros n f i Hi. unfold get. simpl shape.
  replace (ravel [n; 1] [i; 0]) with i by (simpl; lia).
  unfold build1. change (get_flat (mkarray [n; 1] (data (build [n] ?g))) i)
    with (get_flat (build [n] g) i).
  rewrite get_flat_build by (simpl; lia).
  unfold unravel, size, fold_right.
  now rewrite Nat.div_1_r.
Qed.

Lemma reshape_build1_column : forall n f,
  reshape (build1 n f) [n; 1] = Ok (mkarray [n; 1] (data (build1 n f))).
Proof.
  intros n f. unfold reshape.
  replace (size [n; 1] =? size (shape (build1 n f))) with true; [reflexivity|].
  symmetry. apply Nat.eqb_eq. unfold build1. rewrite shape_build. simpl. lia.
Qed.

Lemma normalized_vectors_eq : forall n d v,
  shape v = [n; d] ->
  normalized_vectors v =
  Ok (build2 n d (fun i c => fdiv (get v [i; c]) (row_norm v d i))).
Proof.
  intros n d [sv dv] Hv. simpl in Hv. subst.
  unfold normalized_vectors.
  change (atleast_2d (mkarray [n; d] dv)) with (mkarray [n; d] dv).
  rewrite (elementwise_norm_eq n d) by reflexivity.
  cbn [bind shape_first shape]. rewrite reshape_build1_column. cbn [bind].
  unfold divide, map2. cbn [shape].
  replace (broadcast_shapes [n; d] [n; 1]) with (Some [n; d])
    by (unfold broadcast_shapes; simpl; now rewrite bdim_1_r, bdim_refl).
  f_equal. apply build2_ext. intros i c Hi Hc.
  unfold bindex. cbn [bis skipn length Nat.sub]. rewrite bi_1, !bi_lt by lia.
  now rewrite get_reshape_column.
Qed.

Lemma shape_build1 : forall n f, shape (build1 n f) = [n].
Proof. reflexivity. Qed.
Lemma shape_build2 : forall n d f, shape (build2 n d f) = [n; d].
Proof. reflexivity. Qed.
Lemma shape_build3 : forall n d e f, shape (build3 n d e f) = [n; d; e].
Proof. reflexivity. Qed.

Lemma map1_1d : forall (f : fval -> fval) a n,
  shape a = [n] -> map1 f a = build1 n (fun i => f (get a [i])).
Proof.
  intros f a n Ha. unfold map1. rewrite Ha. now apply build1_ext.
Qed.

Lemma zeros3 : forall n d e, zeros [n; d; e] = build3 n d e (fun _ _ _ => Fin 0%R).
Proof. intros. unfold zeros. now apply build3_ext. Qed.

Lemma setitem_rc_build3 : forall n d1 d2 f g r c,
  r < d1 -> c < d2 ->
  setitem_rc (build3 n d1 d2 f) r c (build1 n g) =
  Ok (build3 n d1 d2 (fun i r' c' =>
        if (r' =? r) && (c' =? c) then g i else f i r' c')).
Proof.
  intros n d1 d2 f g r c Hr Hc. unfold setitem_rc.
  rewrite shape_build3, shape_build1.
  apply Nat.ltb_lt in Hr, Hc. rewrite Hr, Hc. cbn [andb].
  rewrite broadcast_shapes_refl, Nat.eqb_refl. f_equal.
  apply build3_ext. intros i r' c' Hi Hr' Hc'.
  rewrite bindex_in_bounds by inb.
  rewrite get_build1 by lia. rewrite get_build3 by lia. reflexivity.
Qed.

Lemma get_newaxis_last2 : forall n d f i r,
  i < n -> r < d ->
  get (newaxis_last (build2 n d f)) [i; r; 0] = f i r.
Proof.
  intros n d f i r Hi Hr. rewrite <- (get_build2 n d f i r Hi Hr).
  unfold get, newaxis_last. rewrite shape_build2. cbn [shape app].
  unfold get_flat. cbn [data]. f_equal; try (simpl; lia).
Qed.

Lemma newaxis_1_build2 : forall n d f,
  newaxis_1 (build2 n d f) = Ok (mkarray [n; 1; d] (data (build2 n d f))).
Proof. reflexivity. Qed.

Lemma get_newaxis_1 : forall n d f i c,
  i < n -> c < d ->
  get (mkarray [n; 1; d] (data (build2 n d f))) [i; 0; c] = f i c.
Proof.
  intros n d f i c Hi Hc. rewrite <- (get_build2 n d f i c Hi Hc).
  unfold get. rewrite shape_build2. cbn [shape].
  unfold get_flat. cbn [data]. f_equal; try (simpl; lia).
Qed.

Lemma outer_build2 : forall n d f,
  multiply (newaxis_last (build2 n d f))
           (mkarray [n; 1; d] (data (build2 n d f))) =
  Ok (build3 n d d (fun i r c => fmul (f i r) (f i c))).
Proof.
  intros n d f.
  unfold multiply, map2, newaxis_last. rewrite shape_build2. cbn [shape app].
  replace (broadcast_shapes [n; d; 1] [n; 1; d]) with (Some [n; d; d])
    by (unfold broadcast_shapes; simpl; now rewrite bdim_1_l, bdim_1_r, bdim_refl).
  f_equal. apply build3_ext. intros i r c Hi Hr Hc.
  unfold bindex. cbn [bis skipn length Nat.sub]. rewrite !bi_1, !bi_lt by lia.
  pose proof (get_newaxis_last2 n d f i r Hi Hr) as E1.
  unfold newaxis_last in E1. rewrite shape_build2 in E1. cbn [app] in E1.
  rewrite E1. now rewrite get_newaxis_1.
Qed.

Lemma nth_flat_map_repeat : forall (A : Type) (k : nat) (l : list A) p d,
  0 < k -> nth p (flat_map (fun x => List.repeat x k) l) d = nth (p / k) l d.
Proof.
  intros A k l. induction l as [|x l IH]; intros p d Hk.
  - simpl. destruct (p / k); destruct p; reflexivity.
  - cbn [flat_map]. destruct (Nat.lt_ge_cases p k) as [Hp|Hp].
    + rewrite app_nth1 by now rewrite repeat_length.
      rewrite Nat.div_small by exact Hp. simpl.
      apply nth_repeat_lt. exact Hp.
    + rewrite app_nth2 by now rewrite repeat_length.
      rewrite repeat_length, IH by exact Hk.
      replace p with ((p - k) + 1 * k) at 2 by lia.
      rewrite Nat.div_add by lia. now rewrite Nat.add_1_r.
Qed.

Lemma subtract_scalar_build1 : forall x n g,
  subtract (scalar x) (build1 n g) = Ok (build1 n (fun i => fsub x (g i))).
Proof.
  intros x n g. unfold subtract. rewrite map2_scalar_l, shape_build1.
  f_equal. apply build1_ext. intros i Hi. now rewrite get_build1.
Qed.

Lemma get_flat_build1 : forall n f i, i < n -> get_flat (build1 n f) i = f i.
Proof.
  intros n f i Hi. unfold build1. rewrite get_flat_build by (simpl; lia).
  unfold unravel, size, fold_right. now rewrite Nat.div_1_r.
Qed.

Lemma repeat9_reshape : forall n g,
  reshape (repeat (build1 n g) 9) [n; 3; 3] =
  Ok (build3 n 3 3 (fun i _ _ => g i)).
Proof.
  intros n g. unfold reshape, repeat. rewrite shape_build1. cbn [shape].
  replace (size [n; 3; 3] =? size [size [n] * 9]) with true
    by (symmetry; apply Nat.eqb_eq; simpl; lia).
  f_equal. apply ndarray_ext.
  - unfold wf. cbn [shape data]. rewrite flat_map_constant_length with (c := 9).
    + pose proof (wf_build [n] (fun idx => match idx with [i] => g i | _ => NaN end)) as W.
      unfold wf in W. rewrite shape_build in W. unfold build1. rewrite W. simpl. lia.
    + intros. apply repeat_length.
  - apply wf_build.
  - reflexivity.
  - cbn [shape]. intros [|i [|r [|c [|? ?]]]] Hb; simpl in Hb; try tauto.
    destruct Hb as (Hi & Hr & Hc & _).
    rewrite get_build3 by lia.
    unfold get, get_flat. cbn [shape data].
    rewrite nth_flat_map_repeat by lia.
    replace (ravel [n; 3; 3] [i; r; c] / 9) with i.
    + apply (get_flat_build1 n g i Hi).
    + apply Nat.div_unique with (r := r * 3 + c); simpl; lia.
Qed.

Lemma imap2_column : forall (f : fval -> fval -> fval) n d u s,
  imap2 f (build2 n d u) (mkarray [n; 1] (data (build1 n s))) =
  Ok (build2 n d (fun i c => f (u i c) (s i))).
Proof.
  intros f n d u s. unfold imap2, map2. rewrite shape_build2. cbn [shape].
  replace (broadcast_shapes [n; d] [n; 1]) with (Some [n; d])
    by (unfold broadcast_shapes; simpl; now rewrite bdim_1_r, bdim_refl).
  destruct (list_eq_dec Nat.eq_dec [n; d] [n; d]) as [_|NE]; [|congruence].
  f_equal. apply build2_ext. intros i c Hi Hc.
  unfold bindex. cbn [bis skipn length Nat.sub]. rewrite bi_1, !bi_lt by lia.
  now rewrite get_build2, get_reshape_column.
Qed.

Lemma take_rc_build3 : forall n d1 d2 f rows cols,
  length rows = length cols ->
  forallb (fun r => r <? d1) rows = true ->
  forallb (fun c => c <? d2) cols = true ->
  take_rc (build3 n d1 d2 f) rows cols =
  Ok (build2 n (length rows) (fun i t => f i (nth t rows 0) (nth t cols 0))).
Proof.
  intros n d1 d2 f rows cols Hl Hr Hc. unfold take_rc.
  rewrite shape_build3, Hr, Hc, Hl, Nat.eqb_refl. cbn [andb].
  f_equal. rewrite <- Hl. apply build2_ext. intros i t Hi Ht.
  rewrite get_build3; try lia; auto.
  - rewrite forallb_forall in Hr. apply Nat.ltb_lt, Hr, nth_In. lia.
  - rewrite forallb_forall in Hc. apply Nat.ltb_lt, Hc, nth_In. lia.
Qed.

Lemma put_rc_build3 : forall n d1 d2 f rows cols w,
  length rows = length cols ->
  forallb (fun r => r <? d1) rows = true ->
  forallb (fun c => c <? d2) cols = true ->
  (forall r c t, last_match rows cols r c = Some t -> t < length rows) ->
  put_rc (build3 n d1 d2 f) rows cols (build2 n (length rows) w) =
  Ok (build3 n d1 d2 (fun i r c =>
        match last_match rows cols r c with
        | Some t => w i t
        | None => f i r c
        end)).
Proof.
  intros n d1 d2 f rows cols w Hl Hr Hc Hlm. unfold put_rc.
  rewrite shape_build3, shape_build2, Hr, Hc, Hl, Nat.eqb_refl. cbn [andb].
  rewrite broadcast_shapes_refl.
  destruct (list_eq_dec Nat.eq_dec _ _) as [_|NE]; [|congruence].
  f_equal. rewrite <- Hl. apply build3_ext. intros i r c Hi Hr' Hc'.
  destruct (last_match rows cols r c) as [t|] eqn:E.
  - apply Hlm in E. rewrite bindex_in_bounds by inb. now rewrite get_build2.
  - now rewrite get_build3.
Qed.

Lemma last_match_bound_a : forall r c t,
  last_match [1; 2; 0] [2; 0; 1] r c = Some t -> t < 3.
Proof.
  intros r c t. unfold last_match. simpl.
  repeat match goal with |- context [if ?b then _ else _] => destruct b end;
    intros E; inversion E; lia.
Qed.

Lemma last_match_bound_b : forall r c t,
  last_match [2; 0; 1] [1; 2; 0] r c = Some t -> t < 3.
Proof.
  intros r c t. unfold last_match. simpl.
  repeat match goal with |- context [if ?b then _ else _] => destruct b end;
    intros E; inversion E; lia.
Qed.

Lemma fancy_update_build3 : forall (f : fval -> fval -> fval) n g rows cols d,
  length rows = length cols ->
  forallb (fun r => r <? 3) rows = true ->
  forallb (fun c => c <? 3) cols = true ->
  (forall r c t, last_match rows cols r c = Some t -> t < length rows) ->
  (sel <- take_rc (build3 n 3 3 g) rows cols ;;
   w <- map2 f sel (build2 n (length rows) d) ;;
   put_rc (build3 n 3 3 g) rows cols w) =
  Ok (build3 n 3 3 (fun i r c =>
        match last_match rows cols r c with
        | Some t => f (g i (nth t rows 0) (nth t cols 0)) (d i t)
        | None => g i r c
        end)).
Proof.
  intros f n g rows cols d Hl Hr Hc Hlm.
  rewrite take_rc_build3 by assumption. cbn [bind].
  rewrite (map2_same _ _ _ [n; length rows]) by reflexivity. cbn [bind].
  erewrite (build2_ext n (length rows) _
              (fun i t => f (g i (nth t rows 0) (nth t cols 0)) (d i t))).
  2:{ intros i t Hi Ht. now rewrite !get_build2 by lia. }
  now rewrite put_rc_build3 by assumption.
Qed.

Lemma isub_rc_build3 : forall n g d,
  isub_rc (build3 n 3 3 g) [1; 2; 0] [2; 0; 1] (build2 n 3 d) =
  Ok (build3 n 3 3 (fun i r c =>
        match r, c with
        | 1, 2 => fsub (g i 1 2) (d i 0)
        | 2, 0 => fsub (g i 2 0) (d i 1)
        | 0, 1 => fsub (g i 0 1) (d i 2)
        | _, _ => g i r c
        end)).
Proof.
  intros n g d. unfold isub_rc, subtract.
  change (build2 n 3 d) with (build2 n (length [1; 2; 0]) d).
  rewrite fancy_update_build3; try reflexivity; [|apply last_match_bound_a].
  f_equal. apply build3_ext. intros i r c Hi Hr Hc.
  destruct r as [|[|[|r]]]; try lia; destruct c as [|[|[|c]]]; try lia; reflexivity.
Qed.

Lemma iadd_rc_build3 : forall n g d,
  iadd_rc (build3 n 3 3 g) [2; 0; 1] [1; 2; 0] (build2 n 3 d) =
  Ok (build3 n 3 3 (fun i r c =>
        match r, c with
        | 2, 1 => fadd (g i 2 1) (d i 0)
        | 0, 2 => fadd (g i 0 2) (d i 1)
        | 1, 0 => fadd (g i 1 0) (d i 2)
        | _, _ => g i r c
        end)).
Proof.
  intros n g d. unfold iadd_rc, add.
  change (build2 n 3 d) with (build2 n (length [2; 0; 1]) d).
  rewrite fancy_update_build3; try reflexivity; [|apply last_match_bound_b].
  f_equal. apply build3_ext. intros i r c Hi Hr Hc.
  destruct r as [|[|[|r]]]; try lia; destruct c as [|[|[|c]]]; try lia; reflexivity.
Qed.

End OperationLemmas.

(** ** The matrices of [rotation_matrices_from_angles] *)

Section AnglesClosedForm.
Import np VectorUtilities Rotations3d.

Lemma rotation_matrices_from_angles_eq : forall n angles directions,
  shape angles = [n] -> shape directions = [n; 3] ->
  rotation_matrices_from_angles angles directions =
  Ok (build3 n 3 3 (fun i r c =>
        rodrigues_code (get angles [i]) (unit_row directions 3 i) r c)).
Proof.
  intros n angles directions Ha Hd.
  unfold rotation_matrices_from_angles.
  rewrite (normalized_vectors_eq n 3) by exact Hd. cbn [bind].
  unfold atleast_1d. rewrite Ha.
  unfold shape_first. rewrite shape_build2. cbn [bind].
  unfold sin, cos. rewrite !(map1_1d _ _ n) by exact Ha.
  rewrite zeros3.
  rewrite setitem_rc_build3 by lia. cbn [bind].
  rewrite setitem_rc_build3 by lia. cbn [bind].
  rewrite setitem_rc_build3 by lia. cbn [bind].
  rewrite newaxis_1_build2. cbn [bind].
  rewrite outer_build2. cbn [bind].
  rewrite subtract_scalar_build1. cbn [bind].
  rewrite repeat9_reshape. cbn [bind].
  unfold multiply at 1. rewrite (map2_same _ _ _ [n; 3; 3]) by reflexivity.
  cbn [bind].
  rewrite reshape_build1_column. cbn [bind].
  rewrite imap2_column. cbn [bind].
  rewrite isub_rc_build3. cbn [bind].
  rewrite iadd_rc_build3. cbn [bind].
  unfold add. rewrite (map2_same _ _ _ [n; 3; 3]) by reflexivity. cbn [bind].
  rewrite (map2_same _ _ _ [n; 3; 3]) by reflexivity.
  f_equal. apply build3_ext. intros i r c Hi Hr Hc.
  rewrite !get_build by inb. rewrite !get_build3 by lia.
  unfold rodrigues_code, skew_code, unit_row.
  destruct r as [|[|[|r]]]; try lia; destruct c as [|[|[|c]]]; try lia; reflexivity.
Qed.

End AnglesClosedForm.

(** ** Real vectors *)

Section RealLemmas.
Local Open Scope R_scope.

Lemma dot3_self_nonneg : forall a, 0 <= dot3 a a.
Proof. intros [x y z]. unfold dot3. simpl. nra. Qed.

Lemma norm3_sqr : forall a, norm3 a * norm3 a = dot3 a a.
Proof. intros a. unfold norm3. apply sqrt_sqrt, dot3_self_nonneg. Qed.

Lemma norm3_zero_iff : forall a, norm3 a = 0 <-> a = V3 0 0 0.
Proof.
  intros [x y z]. split.
  - intros Hn. pose proof (norm3_sqr (V3 x y z)) as Hs. rewrite Hn in Hs.
    unfold dot3 in Hs. simpl in Hs.
    assert (x = 0) by nra. assert (y = 0) by nra. assert (z = 0) by nra.
    now subst.
  - intros E. inversion E. unfold norm3, dot3. simpl.
    replace (0 * 0 + 0 * 0 + 0 * 0) with 0 by ring. apply sqrt_0.
Qed.

Lemma row_norm_fin : forall v i a,
  row_is v i a -> row_norm v 3 i = Fin (norm3 a).
Proof.
  intros v i [x y z] (H0 & H1 & H2). simpl in *.
  unfold row_norm. cbn [seq map]. rewrite H0, H1, H2.
  unfold fsum. cbn [fold_left fadd fmul fzero]. unfold fsqrt.
  destruct (Rlt_dec _ 0) as [Hneg|_]; [exfalso; nra|].
  unfold norm3, dot3. simpl. do 2 f_equal. ring.
Qed.

Lemma unit_row_fin : forall v i a c,
  row_is v i a -> norm3 a <> 0 -> (c < 3)%nat ->
  unit_row v 3 i c = Fin (coord (unit3 a) c).
Proof.
  intros v i a c Hr Hn Hc. unfold unit_row.
  rewrite (row_norm_fin v i a Hr).
  destruct Hr as (H0 & H1 & H2).
  destruct c as [|[|[|c]]]; try lia; cbn [coord unit3 vx vy vz];
    rewrite ?H0, ?H1, ?H2; unfold fdiv;
    (destruct (Req_dec_T (norm3 a) 0) as [E|_]; [contradiction|reflexivity]).
Qed.

Lemma unit_row_zero : forall v i c,
  row_is v i (V3 0 0 0) -> (c < 3)%nat -> unit_row v 3 i c = NaN.
Proof.
  intros v i c Hr Hc. unfold unit_row.
  rewrite (row_norm_fin v i _ Hr).
  replace (norm3 (V3 0 0 0)) with 0 by (symmetry; now apply norm3_zero_iff).
  destruct Hr as (H0 & H1 & H2). simpl in H0, H1, H2.
  destruct c as [|[|[|c]]]; try lia; rewrite ?H0, ?H1, ?H2; unfold fdiv;
    (destruct (Req_dec_T 0 0) as [_|E]; [|contradiction]);
    unfold signed_inf;
    (destruct (Rlt_dec 0 0) as [L|_]; [lra|reflexivity]).
Qed.

Lemma norm3_unit3 : forall a, norm3 a <> 0 -> norm3 (unit3 a) = 1.
Proof.
  intros a Hn. unfold norm3 at 1.
  replace (dot3 (unit3 a) (unit3 a)) with 1; [apply sqrt_1|].
  unfold unit3, dot3 at 1. simpl.
  pose proof (norm3_sqr a) as Hs. unfold dot3 in Hs.
  field_simplify_eq; [|exact Hn]. lra.
Qed.

Lemma unit3_of_unit : forall a, norm3 a = 1 -> unit3 a = a.
Proof.
  intros [x y z] Hn. unfold unit3. rewrite Hn. simpl. f_equal; field.
Qed.

Lemma rodrigues_code_fin : forall a k kv r c,
  (forall t, (t < 3)%nat -> k t = Fin (coord kv t)) ->
  (r < 3)%nat -> (c < 3)%nat ->
  rodrigues_code (Fin a) k r c = Fin (rodrigues a kv r c).
Proof.
  intros a k kv r c Hk Hr Hc. unfold rodrigues_code, skew_code, rodrigues.
  pose proof (Hk 0%nat) as K0. pose proof (Hk 1%nat) as K1.
  pose proof (Hk 2%nat) as K2.
  destruct r as [|[|[|r]]]; try lia; destruct c as [|[|[|c]]]; try lia;
    rewrite ?K0, ?K1, ?K2 by lia;
    cbn [Nat.eqb fcos fsin fsub fadd fneg fmul coord kron skew];
    f_equal; unfold kron; simpl; ring.
Qed.

Lemma rodrigues_orthonormal : forall a k r c,
  dot3 k k = 1 -> (r < 3)%nat -> (c < 3)%nat ->
  rodrigues a k 0 r * rodrigues a k 0 c + rodrigues a k 1 r * rodrigues a k 1 c
  + rodrigues a k 2 r * rodrigues a k 2 c = kron r c.
Proof.
  intros a [x y z] r c Hk Hr Hc. unfold dot3 in Hk. simpl in Hk.
  pose proof (sin2_cos2 a) as Hsc. unfold Rsqr in Hsc.
  unfold rodrigues.
  set (s := sin a) in *. set (co := cos a) in *. clearbody s co.
  destruct r as [|[|[|r]]]; try lia; destruct c as [|[|[|c]]]; try lia;
    unfold kron, skew, coord; simpl; nsatz.
Qed.

Lemma rodrigues_orthonormal_rows : forall a k r c,
  dot3 k k = 1 -> (r < 3)%nat -> (c < 3)%nat ->
  rodrigues a k r 0 * rodrigues a k c 0 + rodrigues a k r 1 * rodrigues a k c 1
  + rodrigues a k r 2 * rodrigues a k c 2 = kron r c.
Proof.
  intros a [x y z] r c Hk Hr Hc. unfold dot3 in Hk. simpl in Hk.
  pose proof (sin2_cos2 a) as Hsc. unfold Rsqr in Hsc.
  unfold rodrigues.
  set (s := sin a) in *. set (co := cos a) in *. clearbody s co.
  destruct r as [|[|[|r]]]; try lia; destruct c as [|[|[|c]]]; try lia;
    unfold kron, skew, coord; simpl; nsatz.
Qed.

Lemma rodrigues_det : forall a k, dot3 k k = 1 -> det3R (rodrigues a k) = 1.
Proof.
  intros a [x y z] Hk. unfold dot3 in Hk. simpl in Hk.
  pose proof (sin2_cos2 a) as Hsc. unfold Rsqr in Hsc.
  unfold det3R, rodrigues, kron, skew, coord; simpl.
  set (s := sin a) in *. set (co := cos a) in *. clearbody s co.
  nsatz.
Qed.

End RealLemmas.

(** ** Entries of the rotation matrices *)

Section AnglesEntries.
Import Rotations3d.

Lemma fadd_nan_r : forall x, fadd x NaN = NaN.
Proof. now intros []. Qed.

Lemma rodrigues_code_nan : forall a k r c,
  (forall t, t < 3 -> k t = NaN) -> r < 3 -> c < 3 ->
  rodrigues_code a k r c = NaN.
Proof.
  intros a k r c Hk Hr Hc. unfold rodrigues_code.
  rewrite (Hk r Hr). cbn [fmul]. rewrite fadd_nan_r. reflexivity.
Qed.

(** Entries of the matrix built for a finite angle and a finite, nonzero
    axis. *)
Lemma rotation_matrices_from_angles_entries : forall n angles directions,
  np.shape angles = [n] -> np.shape directions = [n; 3] ->
  exists M,
    rotation_matrices_from_angles angles directions = Ok M /\
    np.shape M = [n; 3; 3] /\
    forall i a v, i < n ->
      np.get angles [i] = Fin a -> row_is directions i v -> v <> V3 0 0 0 ->
      forall r c, r < 3 -> c < 3 ->
        np.get M [i; r; c] = Fin (rodrigues a (unit3 v) r c).
Proof.
  intros n angles directions Ha Hd.
  eexists. split; [apply (rotation_matrices_from_angles_eq n); assumption|].
  split; [reflexivity|].
  intros i a v Hi Hai Hv Hnz r c Hr Hc.
  rewrite get_build3 by lia. rewrite Hai.
  apply rodrigues_code_fin; try assumption.
  intros t Ht. apply unit_row_fin; try assumption.
  intro E. apply Hnz. now apply norm3_zero_iff.
Qed.

End AnglesEntries.

(** ** The matrices of [rotation_matrices_from_basis] *)

Section BasisClosedForm.
Import np VectorUtilities Rotations3d.

Lemma nth_concat_repeat : forall (A : Type) (l : list A) n i c d,
  i < n -> c < length l ->
  nth (i * length l + c) (concat (List.repeat l n)) d = nth c l d.
Proof.
  intros A l n. induction n as [|n IH]; intros i c d Hi Hc; [lia|].
  cbn [List.repeat concat]. destruct i as [|i].
  - simpl. now rewrite app_nth1.
  - rewrite app_nth2 by (simpl; lia).
    replace (S i * length l + c - length l) with (i * length l + c) by (simpl; lia).
    apply IH; lia.
Qed.

(** The collection whose rows all are the list [l] of three numbers. *)
Lemma tiled_rows : forall (l : list fval) N,
  length l = 3 ->
  reshape (array_of_repeated_list l N) [N; 3] =
  Ok (build2 N 3 (fun _ c => nth c l NaN)).
Proof.
  intros l N Hl. unfold reshape, array_of_repeated_list. cbn [shape data].
  replace (size [N; 3] =? size [length l * N]) with true
    by (symmetry; apply Nat.eqb_eq; rewrite Hl; simpl; lia).
  f_equal. apply ndarray_ext.
  - unfold wf. cbn [shape data]. rewrite length_concat.
    rewrite map_repeat, Hl. clear Hl.
    assert (E : forall m, list_sum (List.repeat 3 m) = 3 * m).
    { induction m as [|m IH]; [reflexivity|].
      cbn [List.repeat list_sum fold_right]. unfold list_sum in IH. rewrite IH. lia. }
    rewrite E. simpl. lia.
  - apply wf_build.
  - reflexivity.
  - cbn [shape]. intros [|i [|c [|? ?]]] Hb; simpl in Hb; try tauto.
    destruct Hb as (Hi & Hc & _).
    rewrite get_build2 by lia.
    unfold get, get_flat. cbn [shape data].
    replace (ravel [N; 3] [i; c]) with (i * length l + c) by (rewrite Hl; simpl; lia).
    apply nth_concat_repeat; lia.
Qed.

Lemma elementwise_dot_build2 : forall n d f g,
  elementwise_dot (build2 n d f) (build2 n d g) =
  Ok (build1 n (fun i => fsum (map (fun k => fmul (f i k) (g i k)) (seq 0 d)))).
Proof.
  intros n d f g. rewrite (elementwise_dot_eq n d) by reflexivity.
  f_equal. apply build1_ext. intros i Hi.
  unfold row_dot. apply fsum_map_ext. intros k Hk.
  now rewrite !get_build2 by lia.
Qed.

Lemma rotation_matrices_from_basis_eq : forall n ux uy uz,
  shape ux = [n; 3] -> shape uy = [n; 3] -> shape uz = [n; 3] ->
  rotation_matrices_from_basis ux uy uz =
  Ok (build3 n 3 3 (basis_code ux uy uz)).
Proof.
  intros n ux uy uz Hx Hy Hz. unfold rotation_matrices_from_basis.
  unfold shape_first at 1. rewrite Hx. cbn [bind].
  rewrite !tiled_rows by reflexivity. cbn [bind].
  rewrite !(normalized_vectors_eq n 3) by assumption. cbn [bind].
  rewrite !elementwise_dot_build2. cbn [bind].
  rewrite zeros3.
  repeat (rewrite setitem_rc_build3 by lia; cbn [bind]).
  f_equal. apply build3_ext. intros i r c Hi Hr Hc.
  destruct r as [|[|[|r]]]; try lia; destruct c as [|[|[|c]]]; try lia; reflexivity.
Qed.

End BasisClosedForm.

(** ** The matrices of [rotation_matrices_from_vectors] *)

Section VectorsClosedForm.
Import np VectorUtilities Rotations3d.

Lemma bbuild1_ext : forall n F f,
  (forall i, i < n -> F [i] = f i) -> build [n] F = bbuild1 n f.
Proof.
  intros n F f Hf. unfold bbuild1. apply build_ext.
  intros [|i [|? ?]] Hb; simpl in Hb; try tauto. apply Hf. tauto.
Qed.

Lemma get_bbuild1 : forall n f i, i < n -> get (bbuild1 n f) [i] = f i.
Proof. intros. unfold bbuild1. now rewrite get_build by inb. Qed.

Lemma get_flat_bbuild1 : forall n f i, i < n -> get_flat (bbuild1 n f) i = f i.
Proof.
  intros n f i Hi. unfold bbuild1. rewrite get_flat_build by (simpl; lia).
  unfold unravel, size, fold_right. now rewrite Nat.div_1_r.
Qed.

Lemma cross_eq : forall n a b,
  shape a = [n; 3] -> shape b = [n; 3] ->
  cross a b = Ok (build2 n 3 (cross_code a b)).
Proof.
  intros n a b Ha Hb. unfold cross. rewrite Ha, Hb. cbn [rev app].
  rewrite broadcast_shapes_refl. f_equal. apply build2_ext.
  intros i c Hi Hc. cbn [removelast last app].
  assert (H1 : (c + 1) mod 3 < 3) by (apply Nat.mod_upper_bound; lia).
  assert (H2 : (c + 2) mod 3 < 3) by (apply Nat.mod_upper_bound; lia).
  rewrite !bindex_in_bounds by inb. reflexivity.
Qed.

Lemma vectors_normal_to_planes_eq : forall n x y,
  shape x = [n; 3] -> shape y = [n; 3] ->
  vectors_normal_to_planes x y =
  Ok (build2 n 3 (unit_row (build2 n 3 (cross_code x y)) 3)).
Proof.
  intros n x y Hx Hy. unfold vectors_normal_to_planes.
  rewrite (cross_eq n) by assumption. cbn [bind].
  now rewrite (normalized_vectors_eq n 3) by reflexivity.
Qed.

Lemma angles_between_eq : forall n x y,
  shape x = [n; 3] -> shape y = [n; 3] ->
  angles_between_list_of_vectors x y =
  Ok (build1 n (fun i =>
        farccos (row_dot (build2 n 3 (unit_row x 3))
                         (build2 n 3 (unit_row y 3)) 3 i))).
Proof.
  intros n x y Hx Hy. unfold angles_between_list_of_vectors.
  rewrite !(normalized_vectors_eq n 3) by assumption. cbn [bind].
  rewrite (elementwise_dot_eq n 3) by reflexivity. cbn [bind].
  unfold arccos. rewrite (map1_1d _ _ n) by reflexivity.
  f_equal. apply build1_ext. intros i Hi. now rewrite get_build1.
Qed.

Lemma column_eq : forall n d a c,
  shape a = [n; d] -> c < d ->
  column a c = Ok (build1 n (fun i => get a [i; c])).
Proof.
  intros n d a c Ha Hc. unfold column. rewrite Ha.
  apply Nat.ltb_lt in Hc. rewrite Hc. reflexivity.
Qed.

Lemma isnan_build1 : forall n f,
  isnan (build1 n f) = bbuild1 n (fun i => fisnan (f i)).
Proof.
  intros n f. unfold isnan, map1. rewrite shape_build1.
  apply bbuild1_ext. intros i Hi. now rewrite get_build1.
Qed.

Lemma logical_or_bbuild1 : forall n f g,
  logical_or (bbuild1 n f) (bbuild1 n g) = Ok (bbuild1 n (fun i => f i || g i)).
Proof.
  intros n f g. unfold logical_or. rewrite (map2_same _ _ _ [n]) by reflexivity.
  f_equal. apply bbuild1_ext. intros i Hi. now rewrite !get_bbuild1.
Qed.

Lemma equal_scalar_build1 : forall n f y,
  equal (build1 n f) (scalar y) = Ok (bbuild1 n (fun i => feqb (f i) y)).
Proof.
  intros n f y. unfold equal. rewrite map2_scalar_r, shape_build1.
  f_equal. apply bbuild1_ext. intros i Hi. now rewrite get_build1.
Qed.

Lemma true_positions_bbuild1 : forall n m,
  true_positions (bbuild1 n m) = filter m (seq 0 n).
Proof.
  intros n m. unfold true_positions. unfold bbuild1 at 2. rewrite shape_build.
  replace (size [n]) with n by (simpl; lia).
  apply filter_ext_in. intros i Hi. apply in_seq in Hi.
  apply get_flat_bbuild1. lia.
Qed.

Lemma rank_in_mask_bbuild1 : forall n m i,
  i <= n -> rank_in_mask (bbuild1 n m) i = length (filter m (seq 0 i)).
Proof.
  intros n m i Hi. unfold rank_in_mask. f_equal.
  apply filter_ext_in. intros j Hj. apply in_seq in Hj.
  apply get_flat_bbuild1. lia.
Qed.

Lemma filter_seq_split : forall (m : nat -> bool) n i,
  i < n -> m i = true ->
  filter m (seq 0 n) =
  filter m (seq 0 i) ++ i :: filter m (seq (S i) (n - S i)).
Proof.
  intros m n i Hi Hm.
  replace n with (i + S (n - S i)) at 1 by lia.
  rewrite seq_app, filter_app. cbn [seq filter Nat.add]. now rewrite Hm.
Qed.

Lemma nth_rank : forall (m : nat -> bool) n i,
  i < n -> m i = true ->
  nth (length (filter m (seq 0 i))) (filter m (seq 0 n)) 0 = i.
Proof.
  intros m n i Hi Hm. rewrite (filter_seq_split m n i Hi Hm).
  rewrite app_nth2 by lia. now rewrite Nat.sub_diag.
Qed.

Lemma rank_lt : forall (m : nat -> bool) n i,
  i < n -> m i = true ->
  length (filter m (seq 0 i)) < length (filter m (seq 0 n)).
Proof.
  intros m n i Hi Hm. rewrite (filter_seq_split m n i Hi Hm).
  rewrite length_app. simpl. lia.
Qed.

Lemma getitem_mask_eq : forall n d a m,
  shape a = [n; d] ->
  getitem_mask a (bbuild1 n m) =
  Ok (build2 (length (filter m (seq 0 n))) d
        (fun j c => get a [nth j (filter m (seq 0 n)) 0; c])).
Proof.
  intros n d a m Ha. unfold getitem_mask. rewrite Ha.
  unfold bbuild1 at 1. rewrite shape_build. rewrite Nat.eqb_refl.
  fold (bbuild1 n m). rewrite true_positions_bbuild1.
  reflexivity.
Qed.

Lemma setitem_mask_eq : forall n d a m f,
  shape a = [n; d] ->
  setitem_mask a (bbuild1 n m)
    (build2 (length (filter m (seq 0 n))) d
       (fun j c => f (nth j (filter m (seq 0 n)) 0) c)) =
  Ok (build2 n d (fun i c => if m i then f i c else get a [i; c])).
Proof.
  intros n d a m f Ha. unfold setitem_mask. rewrite Ha.
  unfold bbuild1 at 1. rewrite shape_build. rewrite Nat.eqb_refl.
  fold (bbuild1 n m). rewrite true_positions_bbuild1, shape_build2.
  cbv zeta. rewrite broadcast_shapes_refl.
  destruct (list_eq_dec Nat.eq_dec _ _) as [_|NE]; [|congruence].
  f_equal. apply build2_ext. intros i c Hi Hc.
  rewrite get_flat_bbuild1 by lia.
  destruct (m i) eqn:Hm; [|reflexivity].
  rewrite rank_in_mask_bbuild1 by lia.
  pose proof (rank_lt m n i Hi Hm) as Hr.
  rewrite bindex_in_bounds by inb.
  rewrite get_build2 by lia. now rewrite nth_rank.
Qed.

Lemma rotation_matrices_from_vectors_eq : forall n v0 v1,
  shape v0 = [n; 3] -> shape v1 = [n; 3] ->
  let A := build2 n 3 (unit_row v0 3) in
  let B := build2 n 3 (unit_row v1 3) in
  let D := build2 n 3 (unit_row (build2 n 3 (cross_code A B)) 3) in
  let ANG := build1 n (fun i =>
               farccos (row_dot (build2 n 3 (unit_row A 3))
                                (build2 n 3 (unit_row B 3)) 3 i)) in
  let mask i := fisnan (get D [i; 0]) || fisnan (get D [i; 1])
                || fisnan (get D [i; 2]) || feqb (get ANG [i]) (Fin 0) in
  rotation_matrices_from_vectors v0 v1 =
  rotation_matrices_from_angles ANG
    (build2 n 3 (fun i c => if mask i then get A [i; c] else get D [i; c])).
Proof.
  intros n v0 v1 H0 H1 A B D ANG mask.
  unfold rotation_matrices_from_vectors.
  rewrite !(normalized_vectors_eq n 3) by assumption. cbn [bind].
  fold A B.
  rewrite (vectors_normal_to_planes_eq n) by reflexivity. cbn [bind]. fold D.
  rewrite (angles_between_eq n) by reflexivity. cbn [bind]. fold ANG.
  rewrite !(column_eq n 3) by (reflexivity || lia). cbn [bind].
  rewrite !isnan_build1, logical_or_bbuild1. cbn [bind].
  rewrite logical_or_bbuild1. cbn [bind].
  unfold ANG at 1. rewrite equal_scalar_build1. cbn [bind].
  rewrite logical_or_bbuild1. cbn [bind].
  rewrite (getitem_mask_eq n 3) by reflexivity. cbn [bind].
  rewrite (setitem_mask_eq n 3 D _ (fun i c => get A [i; c])) by reflexivity.
  cbn [bind]. f_equal. apply build2_ext. intros i c Hi Hc.
  unfold mask, ANG. rewrite get_build1 by lia. reflexivity.
Qed.

End VectorsClosedForm.

(** ** Rotating one unit vector onto another *)

Section RotationOnto.
Local Open Scope R_scope.

Lemma lagrange_unit : forall a b,
  dot3 a a = 1 -> dot3 b b = 1 ->
  dot3 (cross3 a b) (cross3 a b) = 1 - dot3 a b * dot3 a b.
Proof.
  intros [ax ay az] [bx by_ bz] Ha Hb. unfold dot3, cross3 in *. simpl in *.
  nsatz.
Qed.

Lemma dot3_unit_bounds : forall a b,
  dot3 a a = 1 -> dot3 b b = 1 -> -1 <= dot3 a b <= 1.
Proof.
  intros a b Ha Hb. pose proof (lagrange_unit a b Ha Hb) as L.
  pose proof (dot3_self_nonneg (cross3 a b)) as P. nra.
Qed.

Lemma dot3_unit3 : forall a, norm3 a <> 0 -> dot3 (unit3 a) (unit3 a) = 1.
Proof.
  intros a Hn. rewrite <- norm3_sqr, norm3_unit3 by exact Hn. ring.
Qed.

Lemma scale3_unit3 : forall a, norm3 a <> 0 -> scale3 (norm3 a) (unit3 a) = a.
Proof.
  intros [x y z] Hn. unfold scale3, unit3. simpl. f_equal; field; exact Hn.
Qed.

Lemma mat_vec_scale3 : forall m t v,
  mat_vec m (scale3 t v) = scale3 t (mat_vec m v).
Proof. intros m t [x y z]. unfold mat_vec, scale3. simpl. f_equal; ring. Qed.

(** The rotation about the normalised cross product of two unit vectors, by
    the angle between them, takes the first onto the second. *)
Lemma rodrigues_takes_onto : forall a b,
  dot3 a a = 1 -> dot3 b b = 1 -> norm3 (cross3 a b) <> 0 ->
  mat_vec (rodrigues (acos (dot3 a b)) (unit3 (cross3 a b))) a = b.
Proof.
  intros a b Ha Hb Hw.
  pose proof (dot3_unit_bounds a b Ha Hb) as Hd.
  pose proof (lagrange_unit a b Ha Hb) as L.
  pose proof (norm3_sqr (cross3 a b)) as Hs.
  assert (Hsin : sin (acos (dot3 a b)) = norm3 (cross3 a b)).
  { rewrite sin_acos by exact Hd. unfold norm3 at 1. f_equal.
    rewrite L. unfold Rsqr. ring. }
  unfold mat_vec, rodrigues. rewrite cos_acos by exact Hd. rewrite Hsin.
  unfold unit3.
  set (s := norm3 (cross3 a b)) in *. clearbody s.
  destruct a as [ax ay az], b as [bx by_ bz].
  unfold kron, skew, coord. simpl.
  unfold dot3, cross3 in *. simpl in *.
  clear Hsin Hd.
  f_equal; field_simplify_eq; try exact Hw; clear L Hs Hb Hw; cbn [pow]; nsatz.
Qed.

End RotationOnto.

(** ** Rows with finite components through the pipeline *)

Section FromVectors.
Import Rotations3d.

Lemma row_is_unit_row : forall n v i a,
  row_is v i a -> norm3 a <> 0%R -> i < n ->
  row_is (build2 n 3 (unit_row v 3)) i (unit3 a).
Proof.
  intros n v i a Hr Hn Hi. unfold row_is.
  rewrite !get_build2 by lia.
  repeat split; apply (unit_row_fin v i a); auto.
Qed.

Lemma row_is_cross_code : forall n x y i a b,
  row_is x i a -> row_is y i b -> i < n ->
  row_is (build2 n 3 (cross_code x y)) i (cross3 a b).
Proof.
  intros n x y i a b (A0 & A1 & A2) (B0 & B1 & B2) Hi. unfold row_is.
  rewrite !get_build2 by lia. unfold cross_code. cbn [Nat.add Nat.modulo Nat.divmod fst snd Nat.sub].
  rewrite A0, A1, A2, B0, B1, B2. repeat split.
Qed.

Lemma row_dot_fin : forall x y i a b,
  row_is x i a -> row_is y i b -> row_dot x y 3 i = Fin (dot3 a b).
Proof.
  intros x y i a b (A0 & A1 & A2) (B0 & B1 & B2). unfold row_dot.
  cbn [seq map]. rewrite A0, A1, A2, B0, B1, B2.
  unfold fsum. cbn [fold_left fadd fmul fzero]. f_equal. unfold dot3. ring.
Qed.

Lemma matvec_fin : forall (m : nat -> nat -> fval) (mr : nat -> nat -> R) v i a j,
  (forall r c, r < 3 -> c < 3 -> m r c = Fin (mr r c)) ->
  row_is v i a -> j < 3 ->
  matvec 3 m (fun k => np.get v [i; k]) j = Fin (coord (mat_vec mr a) j).
Proof.
  intros m mr v i a j Hm (A0 & A1 & A2) Hj. unfold matvec.
  cbn [seq map]. rewrite A0, A1, A2, !Hm by lia.
  unfold fsum. cbn [fold_left fadd fmul fzero]. f_equal.
  destruct j as [|[|[|j]]]; try lia; unfold mat_vec; simpl; ring.
Qed.


Lemma einsum_aligned : forall n d e (M v : np.ndarray fval),
  np.shape M = [n; d; e] -> np.shape v = [n; e] ->
  np.einsum_ijk_ik_ij M v =
  Ok (build2 n d (fun i j =>
        fsum (map (fun k => fmul (np.get M [i; j; k]) (np.get v [i; k]))
                  (seq 0 e)))).
Proof.
  intros n d e M v HM Hv. unfold np.einsum_ijk_ik_ij. rewrite HM, Hv.
  rewrite !bdim_refl. f_equal. apply build2_ext. intros i j Hi Hj.
  apply fsum_map_ext. intros k Hk. now rewrite !bi_lt by lia.
Qed.

Lemma rotate_vector_collection_aligned : forall n (M v : np.ndarray fval) opt,
  np.shape M = [n; 3; 3] -> np.shape v = [n; 3] ->
  rotate_vector_collection M v opt =
  Ok (build2 n 3 (fun i j =>
        matvec 3 (fun r c => np.get M [i; r; c]) (fun k => np.get v [i; k]) j)).
Proof.
  intros n M v opt HM Hv. unfold rotate_vector_collection.
  destruct (list_eq_dec Nat.eq_dec (np.shape M) [3; 3]) as [E|_];
    [rewrite HM in E; discriminate|].
  now rewrite (einsum_aligned n 3 3).
Qed.

Local Open Scope R_scope.

Lemma cross3_unit3 : forall a b,
  norm3 a <> 0 -> norm3 b <> 0 ->
  cross3 (unit3 a) (unit3 b) = scale3 (/ (norm3 a * norm3 b)) (cross3 a b).
Proof.
  intros [ax ay az] [bx by_ bz] Ha Hb. unfold cross3, unit3, scale3. simpl.
  f_equal; field; split; assumption.
Qed.

Lemma cross3_zero_l : forall b, cross3 (V3 0 0 0) b = V3 0 0 0.
Proof. intros [x y z]. unfold cross3. simpl. f_equal; ring. Qed.

Lemma cross3_zero_r : forall a, cross3 a (V3 0 0 0) = V3 0 0 0.
Proof. intros [x y z]. unfold cross3. simpl. f_equal; ring. Qed.

(** Two vectors whose cross product is not zero are both nonzero, and so
    is the cross product of their unit vectors. *)
Lemma nonparallel_norms : forall a b,
  cross3 a b <> V3 0 0 0 ->
  norm3 a <> 0 /\ norm3 b <> 0 /\ norm3 (cross3 (unit3 a) (unit3 b)) <> 0.
Proof.
  intros a b Hc.
  assert (Ha : norm3 a <> 0).
  { intro E. apply norm3_zero_iff in E. subst a. now rewrite cross3_zero_l in Hc. }
  assert (Hb : norm3 b <> 0).
  { intro E. apply norm3_zero_iff in E. subst b. now rewrite cross3_zero_r in Hc. }
  repeat split; try assumption.
  intro E. apply norm3_zero_iff in E. rewrite cross3_unit3 in E by assumption.
  apply Hc. destruct (cross3 a b) as [x y z]. unfold scale3 in E. simpl in E.
  inversion E as [[E1 E2 E3]].
  assert (Hi : / (norm3 a * norm3 b) <> 0) by (apply Rinv_neq_0_compat; nra).
  f_equal; nra.
Qed.

Lemma acos_dot_nonzero : forall a b,
  dot3 a a = 1 -> dot3 b b = 1 -> norm3 (cross3 a b) <> 0 ->
  acos (dot3 a b) <> 0.
Proof.
  intros a b Ha Hb Hw E.
  pose proof (dot3_unit_bounds a b Ha Hb) as Hd.
  pose proof (cos_acos _ Hd) as C. rewrite E, cos_0 in C.
  pose proof (lagrange_unit a b Ha Hb) as L. rewrite <- C in L.
  apply Hw. unfold norm3. rewrite L.
  replace (1 - 1 * 1) with 0 by ring. apply sqrt_0.
Qed.

Lemma unit3_nonzero : forall a, norm3 a <> 0 -> unit3 a <> V3 0 0 0.
Proof.
  intros a Hn Z. pose proof (norm3_unit3 a Hn) as U. rewrite Z in U.
  assert (E : norm3 (V3 0 0 0) = 0) by now apply norm3_zero_iff.
  lra.
Qed.

Local Close Scope R_scope.

(** The matrix of [rotation_matrices_from_vectors] at an index where the
    two vectors are not parallel. *)
Lemma rotation_matrices_from_vectors_entries : forall n v0 v1 i a0 b0,
  np.shape v0 = [n; 3] -> np.shape v1 = [n; 3] -> i < n ->
  row_is v0 i a0 -> row_is v1 i b0 -> cross3 a0 b0 <> V3 0 0 0 ->
  exists M,
    rotation_matrices_from_vectors v0 v1 = Ok M /\
    np.shape M = [n; 3; 3] /\
    forall r c, r < 3 -> c < 3 ->
      np.get M [i; r; c] =
      Fin (rodrigues (acos (dot3 (unit3 a0) (unit3 b0)))
                     (unit3 (cross3 (unit3 a0) (unit3 b0))) r c).
Proof.
  intros n v0 v1 i a0 b0 H0 H1 Hi R0 R1 Hc.
  destruct (nonparallel_norms a0 b0 Hc) as (Na & Nb & Nw).
  pose proof (rotation_matrices_from_vectors_eq n v0 v1 H0 H1) as E.
  cbv zeta in E. rewrite E. clear E.
  set (A := build2 n 3 (unit_row v0 3)).
  set (B := build2 n 3 (unit_row v1 3)).
  set (D := build2 n 3 (unit_row (build2 n 3 (cross_code A B)) 3)).
  set (ANG := build1 n _).
  set (D' := build2 n 3 _).
  assert (RA : row_is A i (unit3 a0)) by now apply row_is_unit_row.
  assert (RB : row_is B i (unit3 b0)) by now apply row_is_unit_row.
  assert (RD : row_is D i (unit3 (cross3 (unit3 a0) (unit3 b0)))).
  { apply row_is_unit_row; auto. now apply row_is_cross_code. }
  assert (Ua : dot3 (unit3 a0) (unit3 a0) = 1%R) by now apply dot3_unit3.
  assert (Ub : dot3 (unit3 b0) (unit3 b0) = 1%R) by now apply dot3_unit3.
  assert (HANG : np.get ANG [i] = Fin (acos (dot3 (unit3 a0) (unit3 b0)))).
  { unfold ANG. rewrite get_build1 by lia.
    rewrite (row_dot_fin _ _ i (unit3 a0) (unit3 b0)).
    - pose proof (dot3_unit_bounds _ _ Ua Ub) as Hd. unfold farccos.
      destruct (Rle_dec (-1) _) as [_|N]; [|lra].
      destruct (Rle_dec _ 1) as [_|N]; [reflexivity|lra].
    - replace (unit3 a0) with (unit3 (unit3 a0))
        by (apply unit3_of_unit, norm3_unit3; exact Na).
      apply row_is_unit_row; auto. rewrite norm3_unit3 by exact Na. lra.
    - replace (unit3 b0) with (unit3 (unit3 b0))
        by (apply unit3_of_unit, norm3_unit3; exact Nb).
      apply row_is_unit_row; auto. rewrite norm3_unit3 by exact Nb. lra. }
  assert (RD' : row_is D' i (unit3 (cross3 (unit3 a0) (unit3 b0)))).
  { destruct RD as (D0 & D1 & D2). unfold row_is, D'.
    rewrite !get_build2 by lia. rewrite HANG, D0, D1, D2.
    cbn [fisnan orb feqb].
    destruct (Req_dec_T _ 0) as [E|_]; [|now repeat split].
    exfalso. revert E. now apply acos_dot_nonzero. }
  destruct (rotation_matrices_from_angles_entries n ANG D') as (M & HM & HS & HE);
    try reflexivity.
  exists M. split; [exact HM|]. split; [exact HS|].
  intros r c Hr Hcc.
  rewrite (HE i _ _ Hi HANG RD' (unit3_nonzero _ Nw) r c Hr Hcc).
  rewrite (unit3_of_unit (unit3 (cross3 (unit3 a0) (unit3 b0))))
    by (now apply norm3_unit3).
  reflexivity.
Qed.

End FromVectors.

(** ** Applying rotation matrices *)

Section RotateLemmas.
Import np VectorUtilities Rotations3d.

(** Rotating [v0] by the matrices of [rotation_matrices_from_vectors]: at
    an index where the two vectors are not parallel the result has the
    direction of [v1] and the length of [v0]. *)
Lemma rotate_from_vectors : forall n v0 v1 opt i a0 b0 j,
  np.shape v0 = [n; 3] -> np.shape v1 = [n; 3] -> i < n -> j < 3 ->
  row_is v0 i a0 -> row_is v1 i b0 -> cross3 a0 b0 <> V3 0 0 0 ->
  exists M out,
    rotation_matrices_from_vectors v0 v1 = Ok M /\
    rotate_vector_collection M v0 opt = Ok out /\
    np.shape out = [n; 3] /\
    np.get out [i; j] = Fin (coord (scale3 (norm3 a0) (unit3 b0)) j).
Proof.
  intros n v0 v1 opt i a0 b0 j H0 H1 Hi Hj R0 R1 Hc.
  destruct (rotation_matrices_from_vectors_entries n v0 v1 i a0 b0)
    as (M & HM & HS & HE); try assumption.
  destruct (nonparallel_norms a0 b0 Hc) as (Na & Nb & Nw).
  exists M. eexists. split; [exact HM|].
  split; [apply (rotate_vector_collection_aligned n); assumption|].
  split; [reflexivity|].
  rewrite get_build2 by lia.
  rewrite (matvec_fin _ _ v0 i a0 j HE R0 Hj). do 2 f_equal.
  match goal with |- mat_vec ?m a0 = _ =>
    transitivity (mat_vec m (scale3 (norm3 a0) (unit3 a0)));
      [now rewrite scale3_unit3|]
  end.
  rewrite mat_vec_scale3.
  f_equal. apply rodrigues_takes_onto; try assumption; now apply dot3_unit3.
Qed.

Lemma dot_transposed : forall b c x (M v : ndarray fval),
  shape M = [b; c] -> shape v = [x; c] ->
  (d <- dot M (T v) ;; Ok (T d)) =
  Ok (build2 x b (fun i j =>
        matvec c (fun r k => get M [r; k]) (fun k => get v [i; k]) j)).
Proof.
  intros b c x [sM dM] [sv dv] HM Hv. cbn [shape] in HM, Hv. subst sM sv.
  unfold dot, T. cbn [shape rev app]. rewrite shape_build. cbn [rev app].
  rewrite Nat.eqb_refl. cbn [bind]. rewrite shape_build. cbn [rev app length].
  f_equal. apply build2_ext. intros i j Hi Hj.
  cbn [rev app]. rewrite get_build by inb.
  cbn [firstn skipn removelast last app]. unfold matvec.
  apply fsum_map_ext. intros k Hk.
  now rewrite get_build by inb.
Qed.

Lemma rotate_nd_single : forall d n (M v : ndarray fval) opt,
  shape M = [d; d] -> shape v = [n; d] ->
  RotateVectorCollection.rotate_vector_collection M v opt =
  Ok (build2 n d (fun i j =>
        matvec d (fun r k => get M [r; k]) (fun k => get v [i; k]) j)).
Proof.
  intros d n M v opt HM Hv.
  unfold RotateVectorCollection.rotate_vector_collection.
  unfold shape_last, ndim. rewrite HM, Hv. cbn [rev app bind length].
  rewrite Nat.eqb_refl. cbn [negb Nat.eqb].
  now apply dot_transposed.
Qed.

Lemma getitem_0_shape : forall b c (M : ndarray fval),
  shape M = [1; b; c] ->
  getitem M 0 = Ok (build2 b c (fun r k => get M [0; r; k])).
Proof.
  intros b c M HM. unfold getitem. rewrite HM. cbn [Nat.ltb Nat.leb].
  reflexivity.
Qed.

Lemma rotate_nd_length1 : forall b c n (M v : ndarray fval) opt,
  shape M = [1; b; c] -> shape v = [n; c] ->
  RotateVectorCollection.rotate_vector_collection M v opt =
  Ok (build2 n b (fun i j =>
        matvec c (fun r k => get M [0; r; k]) (fun k => get v [i; k]) j)).
Proof.
  intros b c n M v opt HM Hv.
  unfold RotateVectorCollection.rotate_vector_collection.
  unfold shape_last, shape_first, ndim. rewrite HM, Hv.
  cbn [rev app bind length]. rewrite Nat.eqb_refl. cbn [negb Nat.eqb].
  rewrite (getitem_0_shape b c) by exact HM. cbn [bind].
  rewrite (dot_transposed b c n) by (reflexivity || exact Hv).
  f_equal. apply build2_ext. intros i j Hi Hj. unfold matvec.
  apply fsum_map_ext. intros k Hk. now rewrite get_build2.
Qed.

Lemma einsum_length1 : forall b c n (M v : ndarray fval),
  shape M = [1; b; c] -> shape v = [n; c] ->
  einsum_ijk_ik_ij M v =
  Ok (build2 n b (fun i j =>
        matvec c (fun r k => get M [0; r; k]) (fun k => get v [i; k]) j)).
Proof.
  intros b c n M v HM Hv. unfold einsum_ijk_ik_ij. rewrite HM, Hv.
  rewrite bdim_1_l, bdim_refl. f_equal. apply build2_ext. intros i j Hi Hj.
  unfold matvec. apply fsum_map_ext. intros k Hk.
  now rewrite bi_1, !bi_lt by lia.
Qed.

Lemma rotate_3d_single : forall n (M v : ndarray fval) opt,
  shape M = [3; 3] -> shape v = [n; 3] ->
  Rotations3d.rotate_vector_collection M v opt =
  Ok (build2 n 3 (fun i j =>
        matvec 3 (fun r k => get M [r; k]) (fun k => get v [i; k]) j)).
Proof.
  intros n M v opt HM Hv. unfold Rotations3d.rotate_vector_collection.
  destruct (list_eq_dec Nat.eq_dec (shape M) [3; 3]) as [_|NE]; [|contradiction].
  now apply dot_transposed.
Qed.

Lemma rotate_3d_length1 : forall n (M v : ndarray fval) opt,
  shape M = [1; 3; 3] -> shape v = [n; 3] ->
  Rotations3d.rotate_vector_collection M v opt =
  Ok (build2 n 3 (fun i j =>
        matvec 3 (fun r k => get M [0; r; k]) (fun k => get v [i; k]) j)).
Proof.
  intros n M v opt HM Hv. unfold Rotations3d.rotate_vector_collection.
  destruct (list_eq_dec Nat.eq_dec (shape M) [3; 3]) as [E|_];
    [rewrite HM in E; discriminate|].
  now apply einsum_length1.
Qed.

Lemma applies_matrix_build2 : forall m d n v,
  applies_matrix m d n v
    (build2 n d (fun i j => matvec d m (fun k => get v [i; k]) j)).
Proof.
  intros m d n v. split; [reflexivity|].
  intros i j Hi Hj. now rewrite get_build2.
Qed.

Lemma rotate_implementations_agree : forall (M v : ndarray fval) o1 o2 r1 r2,
  Rotations3d.rotate_vector_collection M v o1 = Ok r1 ->
  RotateVectorCollection.rotate_vector_collection M v o2 = Ok r2 ->
  r1 = r2.
Proof.
  intros M v o1 o2 r1 r2 H1 H2.
  unfold Rotations3d.rotate_vector_collection in H1.
  destruct (list_eq_dec Nat.eq_dec (shape M) [3; 3]) as [E|NE].
  - unfold RotateVectorCollection.rotate_vector_collection in H2.
    unfold ndim, shape_last in H2. rewrite E in H2. cbn [rev app bind length] in H2.
    destruct (rev (shape v)) as [|y sv']; cbn [bind] in H2; [discriminate H2|].
    destruct (negb (3 =? y)); [discriminate H2|].
    cbn [Nat.eqb] in H2. rewrite H1 in H2. now inversion H2.
  - pose proof H1 as H1'. unfold einsum_ijk_ik_ij in H1'.
    destruct (shape M) as [|a [|b [|c [|? ?]]]] eqn:EM; try discriminate H1'.
    destruct (shape v) as [|x [|y [|? ?]]] eqn:Ev; try discriminate H1'.
    clear H1'.
    unfold RotateVectorCollection.rotate_vector_collection in H2.
    unfold ndim, shape_last, shape_first in H2. rewrite EM, Ev in H2.
    cbn [rev app bind length] in H2.
    destruct (Nat.eqb_spec c y) as [->|Ncy]; cbn [negb] in H2; [|discriminate H2].
    cbn [Nat.eqb] in H2.
    destruct (Nat.eqb_spec a 1) as [->|Na].
    + rewrite (einsum_length1 b y x) in H1 by assumption.
      pose proof (rotate_nd_length1 b y x M v o2 EM Ev) as H3.
      unfold RotateVectorCollection.rotate_vector_collection in H3.
      unfold ndim, shape_last, shape_first in H3. rewrite EM, Ev in H3.
      cbn [rev app bind length] in H3. rewrite Nat.eqb_refl in H3.
      cbn [negb Nat.eqb] in H3.
      rewrite H3 in H2. congruence.
    + congruence.
Qed.

Lemma rotate_nd_aligned : forall n (M v : ndarray fval) opt,
  n <> 1 -> shape M = [n; 3; 3] -> shape v = [n; 3] ->
  RotateVectorCollection.rotate_vector_collection M v opt =
  Ok (build2 n 3 (fun i j =>
        matvec 3 (fun r c => get M [i; r; c]) (fun k => get v [i; k]) j)).
Proof.
  intros n M v opt Hn HM Hv.
  unfold RotateVectorCollection.rotate_vector_collection.
  unfold shape_last, shape_first, ndim. rewrite HM, Hv.
  cbn [rev app bind length negb Nat.eqb].
  destruct (Nat.eqb_spec n 1) as [E|_]; [contradiction|].
  now rewrite (einsum_aligned n 3 3).
Qed.

Lemma rotate_nd_mismatch : forall (M v : ndarray fval) opt a b,
  shape_last M = Ok a -> shape_last v = Ok b -> a <> b ->
  RotateVectorCollection.rotate_vector_collection M v opt =
  Raise (AssertionError "").
Proof.
  intros M v opt a b HM Hv Hab.
  unfold RotateVectorCollection.rotate_vector_collection.
  rewrite HM, Hv. cbn [bind].
  destruct (Nat.eqb_spec a b) as [E|_]; [contradiction|reflexivity].
Qed.

Lemma all_build_false : forall sh (f : list nat -> bool) idx,
  in_bounds sh idx -> f idx = false -> all (build sh f) = false.
Proof.
  intros sh f idx Hb Hf. destruct (all (build sh f)) eqn:E; [|reflexivity].
  unfold all in E. rewrite forallb_forall in E.
  rewrite <- Hf. symmetry. apply E. unfold build. cbn [data].
  apply in_map_iff. exists (ravel sh idx). split.
  - now rewrite unravel_ravel.
  - apply in_seq. pose proof (ravel_lt sh idx Hb). lia.
Qed.

Lemma all_build_true : forall sh (f : list nat -> bool) idx,
  all (build sh f) = true -> in_bounds sh idx -> f idx = true.
Proof.
  intros sh f idx E Hb. unfold all in E. rewrite forallb_forall in E.
  apply E. unfold build. cbn [data].
  apply in_map_iff. exists (ravel sh idx). split.
  - now rewrite unravel_ravel.
  - apply in_seq. pose proof (ravel_lt sh idx Hb). lia.
Qed.

Lemma project_onto_plane_never_returns : forall (x1 x2 out : ndarray fval),
  project_onto_plane x1 x2 <> Ok out.
Proof.
  intros x1 x2 out. unfold project_onto_plane.
  destruct (normalized_vectors x2) as [n|e]; cbn [bind]; [|discriminate].
  destruct (elementwise_dot x1 n) as [d|e]; cbn [bind]; discriminate.
Qed.

Lemma project_onto_plane_unbound_name : forall n (x1 x2 : ndarray fval),
  shape x1 = [n; 3] -> shape x2 = [n; 3] ->
  project_onto_plane x1 x2 = Raise (NameError "x").
Proof.
  intros n x1 x2 H1 H2. unfold project_onto_plane.
  rewrite (normalized_vectors_eq n 3) by exact H2. cbn [bind].
  rewrite (elementwise_dot_eq n 3) by (reflexivity || exact H1).
  reflexivity.
Qed.

(** The function of [rotations3d.py] on a collection of one matrix, in every
    dimension, and on a single matrix that is not 3 x 3. *)
Lemma rotate_3d_length1_any : forall d n (M v : ndarray fval) opt,
  shape M = [1; d; d] -> shape v = [n; d] ->
  Rotations3d.rotate_vector_collection M v opt =
  Ok (build2 n d (fun i j =>
        matvec d (fun r k => get M [0; r; k]) (fun k => get v [i; k]) j)).
Proof.
  intros d n M v opt HM Hv. unfold Rotations3d.rotate_vector_collection.
  destruct (list_eq_dec Nat.eq_dec (shape M) [3; 3]) as [E|_];
    [rewrite HM in E; discriminate|].
  now apply einsum_length1.
Qed.

Lemma rotate_3d_single_other : forall d (M v : ndarray fval) opt,
  shape M = [d; d] -> d <> 3 ->
  Rotations3d.rotate_vector_collection M v opt = Raise ValueError.
Proof.
  intros d M v opt HM Hd. unfold Rotations3d.rotate_vector_collection.
  destruct (list_eq_dec Nat.eq_dec (shape M) [3; 3]) as [E|_].
  - rewrite HM in E. inversion E. contradiction.
  - unfold einsum_ijk_ik_ij. now rewrite HM.
Qed.

End RotateLemmas.

(** ** Conditioning *)

Section ConditioningLemmas.
Local Open Scope R_scope.

(** Vectors of ordinary size that are separated from parallel have a
    nonzero cross product. *)
Lemma separated_nonparallel : forall a b,
  well_scaled a -> well_scaled b -> separated a b -> cross3 a b <> V3 0 0 0.
Proof.
  intros a b [Ha _] [Hb _] Hs E. unfold separated in Hs. rewrite E in Hs.
  unfold dot3 at 3 in Hs. simpl in Hs. nra.
Qed.

End ConditioningLemmas.

(* ================================================================= *)
(** * The claims *)

Section Claims.
Import Rotations3d.

(** ** C1 *)

(** C1, as amended.  For index-aligned collections [v0] and [v1] of
    3-vectors, at every index where the two vectors have the same length,
    that length is of ordinary size ([well_scaled]) and the two vectors are
    separated from parallel and antiparallel ([separated]: the sine of the
    angle between them is at least 1e-3), applying the matrices of
    [rotation_matrices_from_vectors v0 v1] to [v0] with
    [rotate_vector_collection] gives [v1], component by component.
    Equality of real numbers stands for equality up to floating tolerance;
    the two conditions are what warrants that reading, since the axis is
    the normalised cross product of the two unit vectors and loses its
    direction to cancellation as they approach parallel or antiparallel. *)
Theorem rotate_from_vectors_recovers_target :
  forall n v0 v1 opt i a0 b0 j,
    np.shape v0 = [n; 3] -> np.shape v1 = [n; 3] -> i < n -> j < 3 ->
    row_is v0 i a0 -> row_is v1 i b0 ->
    well_scaled a0 -> well_scaled b0 -> separated a0 b0 ->
    norm3 a0 = norm3 b0 ->
    exists M out,
      rotation_matrices_from_vectors v0 v1 = Ok M /\
      rotate_vector_collection M v0 opt = Ok out /\
      np.shape out = [n; 3] /\
      np.get out [i; j] = np.get v1 [i; j].
Proof.
  intros n v0 v1 opt i a0 b0 j H0 H1 Hi Hj R0 R1 Wa Wb Hs Hn.
  pose proof (separated_nonparallel a0 b0 Wa Wb Hs) as Hc.
  destruct (rotate_from_vectors n v0 v1 opt i a0 b0 j)
    as (M & out & HM & HO & HS & HG); try assumption.
  exists M, out. repeat split; try assumption.
  rewrite HG, Hn.
  destruct (nonparallel_norms a0 b0 Hc) as (_ & Nb & _).
  rewrite scale3_unit3 by exact Nb.
  destruct R1 as (B0 & B1 & B2).
  destruct j as [|[|[|j]]]; try lia; symmetry; assumption.
Qed.

Lemma rotate_from_vectors_recovers_target_witness :
  exists M out,
    rotation_matrices_from_vectors unit_x unit_y = Ok M /\
    rotate_vector_collection M unit_x false = Ok out /\
    np.shape out = [1; 3] /\
    np.get out [0; 1] = np.get unit_y [0; 1].
Proof.
  apply (rotate_from_vectors_recovers_target
           1 unit_x unit_y false 0 (V3 1 0 0) (V3 0 1 0) 1).
  - reflexivity.
  - reflexivity.
  - lia.
  - lia.
  - repeat split.
  - repeat split.
  - unfold well_scaled, dot3. simpl. lra.
  - unfold well_scaled, dot3. simpl. lra.
  - unfold separated, dot3, cross3. simpl. lra.
  - unfold norm3, dot3. simpl. f_equal. ring.
Defined.

(** C1 as stated fails: the vectors (2, 0, 0) and (0, 1, 0) are nonzero
    and not parallel (they are orthogonal), but rotating the first by the matrix built for the
    pair gives (0, 2, 0): the second component is 2 where the target
    has 1. *)
Lemma rotate_from_vectors_keeps_length :
  cross3 (V3 2 0 0) (V3 0 1 0) <> V3 0 0 0 /\
  row_is long_x 0 (V3 2 0 0) /\ row_is unit_y 0 (V3 0 1 0) /\
  exists M out,
    rotation_matrices_from_vectors long_x unit_y = Ok M /\
    rotate_vector_collection M long_x false = Ok out /\
    np.get out [0; 1] = Fin 2 /\ np.get unit_y [0; 1] = Fin 1 /\
    np.get out [0; 1] <> np.get unit_y [0; 1].
Proof.
  assert (Hc : cross3 (V3 2 0 0) (V3 0 1 0) <> V3 0 0 0).
  { unfold cross3. simpl. intro E. inversion E. lra. }
  split; [exact Hc|]. split; [repeat split|]. split; [repeat split|].
  destruct (rotate_from_vectors 1 long_x unit_y false 0 (V3 2 0 0) (V3 0 1 0) 1)
    as (M & out & HM & HO & _ & HG); try reflexivity; try lia; try exact Hc.
  - repeat split.
  - repeat split.
  - assert (E : np.get out [0; 1] = Fin 2).
    { rewrite HG. f_equal. unfold scale3, unit3, norm3, dot3. simpl.
      replace (2 * 2 + 0 * 0 + 0 * 0)%R with (2 * 2)%R by ring.
      replace (0 * 0 + 1 * 1 + 0 * 0)%R with 1%R by ring.
      rewrite sqrt_square by lra. rewrite sqrt_1. field. }
    exists M, out. split; [exact HM|]. split; [exact HO|].
    split; [exact E|]. split; [reflexivity|].
    rewrite E. intro F. inversion F. lra.
Qed.

(** ** C2 *)

(** C2 (the code departs from it).  [project_onto_plane] never returns
    the projection: its last line reads the unbound name [x], so the call
    raises [NameError]; here on x1 = (1, 0, 0) and x2 = (0, 0, 1). *)
Lemma project_onto_plane_raises_name_error :
  project_onto_plane unit_x unit_z = Raise (NameError "x").
Proof. now apply (project_onto_plane_unbound_name 1). Qed.

(** ** C3 *)

(** C3.  For a collection of angles and an index-aligned collection of
    3-vectors, [rotation_matrices_from_angles] returns a collection of
    3 x 3 matrices; at an index with a finite angle [a] and a finite, nonzero
    axis [v], with [k] the unit vector along [v], entry [(r, c)] is the sum
    of the diagonal term [cos a] (on the diagonal), the outer-product term
    [(1 - cos a) * k_r * k_c] and the cross-product term [sin a] times the
    skew matrix of [k].  That skew matrix sends [w] to the cross product
    [k x w]: a positive angle is a right-hand rotation about the axis. *)
Theorem rotation_matrices_from_angles_rodrigues :
  forall n angles directions i a v r c,
    np.shape angles = [n] -> np.shape directions = [n; 3] -> i < n ->
    np.get angles [i] = Fin a -> row_is directions i v -> v <> V3 0 0 0 ->
    r < 3 -> c < 3 ->
    exists M,
      rotation_matrices_from_angles angles directions = Ok M /\
      np.shape M = [n; 3; 3] /\
      np.get M [i; r; c] =
        Fin (cos a * kron r c
             + (1 - cos a) * (coord (unit3 v) r * coord (unit3 v) c)
             + sin a * skew (unit3 v) r c) /\
      forall w, mat_vec (skew (unit3 v)) w = cross3 (unit3 v) w.
Proof.
  intros n angles directions i a v r c Ha Hd Hi Hai Hv Hnz Hr Hc.
  destruct (rotation_matrices_from_angles_entries n angles directions Ha Hd)
    as (M & HM & Hs & He).
  exists M. split; [exact HM|]. split; [exact Hs|]. split.
  - apply (He i a v); assumption.
  - intros [wx wy wz]. unfold mat_vec, cross3, skew. simpl. f_equal; ring.
Qed.

Lemma rotation_matrices_from_angles_rodrigues_witness :
  exists M,
    rotation_matrices_from_angles zero_angle unit_z = Ok M /\
    np.shape M = [1; 3; 3] /\
    np.get M [0; 0; 1] =
      Fin (cos 0 * kron 0 1
           + (1 - cos 0)
             * (coord (unit3 (V3 0 0 1)) 0 * coord (unit3 (V3 0 0 1)) 1)
           + sin 0 * skew (unit3 (V3 0 0 1)) 0 1) /\
    forall w, mat_vec (skew (unit3 (V3 0 0 1))) w = cross3 (unit3 (V3 0 0 1)) w.
Proof.
  apply (rotation_matrices_from_angles_rodrigues
           1 zero_angle unit_z 0 0%R (V3 0 0 1) 0 1).
  - reflexivity.
  - reflexivity.
  - lia.
  - reflexivity.
  - repeat split.
  - intro E. inversion E. lra.
  - lia.
  - lia.
Defined.

(** ** C4 *)

(** C4.  At an index with a finite angle and a finite, nonzero axis, the
    matrix [M] of [rotation_matrices_from_angles] is orthonormal (entry
    [(r, c)] of its transpose times itself, and of itself times its
    transpose, is 1 on the diagonal and 0 elsewhere) and its determinant
    is 1.  Equality of real numbers stands
    for equality up to floating-point tolerance. *)
Theorem rotation_matrices_from_angles_orthonormal :
  forall n angles directions i a v r c,
    np.shape angles = [n] -> np.shape directions = [n; 3] -> i < n ->
    np.get angles [i] = Fin a -> row_is directions i v -> v <> V3 0 0 0 ->
    r < 3 -> c < 3 ->
    exists M,
      rotation_matrices_from_angles angles directions = Ok M /\
      np.shape M = [n; 3; 3] /\
      gram M i r c = Fin (kron r c) /\
      gram_rows M i r c = Fin (kron r c) /\
      det3 M i = Fin 1.
Proof.
  intros n angles directions i a v r c Ha Hd Hi Hai Hv Hnz Hr Hc.
  destruct (rotation_matrices_from_angles_entries n angles directions Ha Hd)
    as (M & HM & Hs & He).
  exists M. split; [exact HM|]. split; [exact Hs|].
  assert (Hn : norm3 v <> 0%R) by (intro E; apply Hnz; now apply norm3_zero_iff).
  pose proof (dot3_unit3 v Hn) as Hk.
  pose proof (He i a v Hi Hai Hv Hnz) as E.
  split; [|split].
  - unfold gram. cbn [seq map].
    rewrite !E by lia. unfold fsum. cbn [fold_left fadd fmul fzero].
    f_equal. rewrite <- (rodrigues_orthonormal a (unit3 v) r c Hk Hr Hc). ring.
  - unfold gram_rows. cbn [seq map].
    rewrite !E by lia. unfold fsum. cbn [fold_left fadd fmul fzero].
    f_equal.
    rewrite <- (rodrigues_orthonormal_rows a (unit3 v) r c Hk Hr Hc). ring.
  - unfold det3. rewrite !E by lia. cbn [fadd fsub fmul fneg].
    f_equal. rewrite <- (rodrigues_det a (unit3 v) Hk). unfold det3R. ring.
Qed.

Lemma rotation_matrices_from_angles_orthonormal_witness :
  exists M,
    rotation_matrices_from_angles zero_angle unit_z = Ok M /\
    np.shape M = [1; 3; 3] /\
    gram M 0 1 1 = Fin (kron 1 1) /\
    gram_rows M 0 1 1 = Fin (kron 1 1) /\
    det3 M 0 = Fin 1.
Proof.
  apply (rotation_matrices_from_angles_orthonormal
           1 zero_angle unit_z 0 0%R (V3 0 0 1) 1 1).
  - reflexivity.
  - reflexivity.
  - lia.
  - reflexivity.
  - repeat split.
  - intro E. inversion E. lra.
  - lia.
  - lia.
Defined.

(** ** C5 *)

(** C5, as amended.  For a collection [v] of [n] vectors of dimension [d]
    and a single [d] x [d] matrix, given alone (two axes) or as a
    collection of length one, the n-dimensional [rotate_vector_collection]
    returns the collection whose element [i] is the product of that matrix
    with [v[i]], for every [d].  The function of [rotations3d.py] does the
    same for a collection of length one, for every [d]; a matrix given
    alone it accepts only when [d] is 3, and raises [ValueError] for every
    other [d]. *)
Theorem rotate_vector_collection_single_matrix :
  forall d n (M v : np.ndarray fval) opt,
    np.shape v = [n; d] ->
    (np.shape M = [d; d] ->
     exists out,
       RotateVectorCollection.rotate_vector_collection M v opt = Ok out /\
       applies_matrix (fun r c => np.get M [r; c]) d n v out) /\
    (np.shape M = [1; d; d] ->
     exists out,
       RotateVectorCollection.rotate_vector_collection M v opt = Ok out /\
       applies_matrix (fun r c => np.get M [0; r; c]) d n v out) /\
    (d = 3 -> np.shape M = [3; 3] ->
     exists out,
       Rotations3d.rotate_vector_collection M v opt = Ok out /\
       applies_matrix (fun r c => np.get M [r; c]) 3 n v out) /\
    (np.shape M = [1; d; d] ->
     exists out,
       Rotations3d.rotate_vector_collection M v opt = Ok out /\
       applies_matrix (fun r c => np.get M [0; r; c]) d n v out) /\
    (d <> 3 -> np.shape M = [d; d] ->
     Rotations3d.rotate_vector_collection M v opt = Raise ValueError).
Proof.
  intros d n M v opt Hv. repeat split.
  - intros HM. eexists. split; [apply (rotate_nd_single d n); assumption|].
    apply applies_matrix_build2.
  - intros HM. eexists. split; [apply (rotate_nd_length1 d d n); assumption|].
    apply applies_matrix_build2.
  - intros -> HM. eexists. split; [apply (rotate_3d_single n); assumption|].
    apply applies_matrix_build2.
  - intros HM. eexists. split; [apply (rotate_3d_length1_any d n); assumption|].
    apply applies_matrix_build2.
  - intros Hd HM. now apply (rotate_3d_single_other d).
Qed.

Lemma rotate_vector_collection_single_matrix_witness :
  (exists out,
     RotateVectorCollection.rotate_vector_collection
       identity_matrix unit_y false = Ok out /\
     applies_matrix (fun r c => np.get identity_matrix [r; c]) 3 1 unit_y out) /\
  (exists out,
     Rotations3d.rotate_vector_collection identity_matrix unit_y false = Ok out /\
     applies_matrix (fun r c => np.get identity_matrix [r; c]) 3 1 unit_y out).
Proof.
  pose proof (rotate_vector_collection_single_matrix
                3 1 identity_matrix unit_y false eq_refl) as (H1 & _ & H3 & _).
  split.
  - exact (H1 eq_refl).
  - exact (H3 eq_refl eq_refl).
Defined.

(** C5 as stated fails for the function of [rotations3d.py]: given the
    2 x 2 identity alone and one vector of dimension 2, it raises
    [ValueError] and returns no vectors, where the n-dimensional function
    returns the product of the matrix with the vector. *)
Lemma rotate_vector_collection_3d_rejects_2x2 :
  np.shape identity_2x2 = [2; 2] /\ np.shape plane_vector = [1; 2] /\
  Rotations3d.rotate_vector_collection identity_2x2 plane_vector false
    = Raise ValueError /\
  (forall out,
     Rotations3d.rotate_vector_collection identity_2x2 plane_vector false
       <> Ok out) /\
  exists out,
    RotateVectorCollection.rotate_vector_collection
      identity_2x2 plane_vector false = Ok out /\
    applies_matrix (fun r c => np.get identity_2x2 [r; c]) 2 1 plane_vector out.
Proof.
  assert (E : Rotations3d.rotate_vector_collection
                identity_2x2 plane_vector false = Raise ValueError).
  { apply (rotate_3d_single_other 2); [reflexivity|lia]. }
  split; [reflexivity|]. split; [reflexivity|]. split; [exact E|].
  split; [intros out; rewrite E; discriminate|].
  eexists. split; [apply (rotate_nd_single 2 1); reflexivity|].
  apply applies_matrix_build2.
Qed.

(** ** C6 *)

(** C6 (the code departs from it).  The function of [rotations3d.py] has
    no check of the inner dimensions: on two 3 x 3 matrices and two vectors
    of dimension one (inner dimensions 3 and 1) the contraction broadcasts
    the axis of length one and a numeric result of shape (2, 3) comes back,
    where the n-dimensional function fails its assertion. *)
Lemma rotate_vector_collection_3d_accepts_mismatch :
  np.shape_last two_identities = Ok 3 /\
  np.shape_last two_short_vectors = Ok 1 /\
  RotateVectorCollection.rotate_vector_collection
    two_identities two_short_vectors false = Raise (AssertionError "") /\
  exists out,
    Rotations3d.rotate_vector_collection
      two_identities two_short_vectors false = Ok out /\
    np.shape out = [2; 3] /\
    np.get out [1; 0] = Fin 2.
Proof.
  split; [reflexivity|]. split; [reflexivity|].
  split; [apply (rotate_nd_mismatch _ _ _ 3 1); try reflexivity; lia|].
  unfold rotate_vector_collection.
  destruct (list_eq_dec Nat.eq_dec (np.shape two_identities) [3; 3]) as [E|_];
    [discriminate E|].
  unfold np.einsum_ijk_ik_ij. cbn [np.shape two_identities two_short_vectors].
  cbn [np.bdim Nat.eqb]. eexists. split; [reflexivity|]. split; [reflexivity|].
  rewrite get_build by inb. cbn [seq map np.bi Nat.eqb].
  unfold np.get, np.get_flat, two_identities, two_short_vectors.
  cbn [np.shape np.data np.ravel np.size fold_right Nat.mul Nat.add nth].
  unfold fsum. cbn [fold_left fadd fmul fzero]. f_equal. ring.
Qed.

(** ** C7 *)

(** C7.  When the axis at some index is the zero vector,
    [rotation_matrices_from_angles] raises no error, returns the [n]
    matrices (an array of shape [(n, 3, 3)]) and every entry of the matrix
    at that index is not-a-number, whatever the angle: the result is never
    a finite matrix there. *)
Theorem rotation_matrices_from_angles_zero_axis :
  forall n angles directions i r c,
    np.shape angles = [n] -> np.shape directions = [n; 3] -> i < n ->
    row_is directions i (V3 0 0 0) -> r < 3 -> c < 3 ->
    exists M,
      rotation_matrices_from_angles angles directions = Ok M /\
      np.shape M = [n; 3; 3] /\
      np.get M [i; r; c] = NaN.
Proof.
  intros n angles directions i r c Ha Hd Hi Hz Hr Hc.
  eexists. split; [apply (rotation_matrices_from_angles_eq n); assumption|].
  split; [reflexivity|].
  rewrite get_build3 by lia.
  apply rodrigues_code_nan; try assumption.
  intros t Ht. now apply unit_row_zero.
Qed.

Lemma rotation_matrices_from_angles_zero_axis_witness :
  exists M,
    rotation_matrices_from_angles zero_angle zero_axis = Ok M /\
    np.shape M = [1; 3; 3] /\
    np.get M [0; 0; 0] = NaN.
Proof.
  apply (rotation_matrices_from_angles_zero_axis 1 zero_angle zero_axis 0 0 0).
  - reflexivity.
  - reflexivity.
  - lia.
  - repeat split.
  - lia.
  - lia.
Defined.

(** ** C8 *)

(** C8.  When some value of [p] is outside the closed interval from 0 to 1,
    [vectors_between_list_of_vectors x y p] fails one of its two
    assertions and returns no vectors. *)
Theorem vectors_between_out_of_range :
  forall (x y p : np.ndarray fval) idx,
    np.in_bounds (np.shape p) idx -> outside_unit_interval (np.get p idx) ->
    vectors_between_list_of_vectors x y p =
      Raise (AssertionError "All values of p must be non-negative") \/
    vectors_between_list_of_vectors x y p =
      Raise (AssertionError "No value of p can exceed unity").
Proof.
  intros x y p idx Hb Hout. unfold vectors_between_list_of_vectors.
  unfold np.greater_equal, np.less_equal. rewrite !map2_scalar_r. cbn [bind].
  destruct (np.all (np.build (np.shape p)
                      (fun i => fgeb (np.get p i) (Fin 0)))) eqn:E0;
    cbn [negb]; [|now left].
  right.
  assert (H1 : fleb (np.get p idx) (Fin 1) = false).
  { destruct Hout as [H|H]; [|exact H].
    rewrite (all_build_true _ _ idx E0 Hb) in H. discriminate H. }
  now rewrite (all_build_false _ (fun i => fleb (np.get p i) (Fin 1)) idx Hb H1).
Qed.

Lemma vectors_between_out_of_range_witness :
  vectors_between_list_of_vectors unit_x unit_y fraction_too_large =
    Raise (AssertionError "All values of p must be non-negative") \/
  vectors_between_list_of_vectors unit_x unit_y fraction_too_large =
    Raise (AssertionError "No value of p can exceed unity").
Proof.
  apply (vectors_between_out_of_range unit_x unit_y fraction_too_large [0]).
  - simpl. lia.
  - right. unfold fleb. change (np.get fraction_too_large [0]) with (Fin (3 / 2)).
    cbv beta iota. destruct (Rle_dec (3 / 2) 1) as [L|_]; [lra|reflexivity].
Defined.

(** ** C9 *)

(** C9.  For three index-aligned collections of unit vectors [ux], [uy],
    [uz], [rotation_matrices_from_basis] returns, at each index [i], the
    matrix whose entry [(r, c)] is the dot product of the standard basis
    vector number [r] with the supplied basis vector number [c] at [i].
    (The three vectors being of unit length is all that is used.) *)
Theorem rotation_matrices_from_basis_entries :
  forall n (ux uy uz : np.ndarray fval) i a b c r col,
    np.shape ux = [n; 3] -> np.shape uy = [n; 3] -> np.shape uz = [n; 3] ->
    i < n ->
    row_is ux i a -> row_is uy i b -> row_is uz i c ->
    norm3 a = 1%R -> norm3 b = 1%R -> norm3 c = 1%R ->
    r < 3 -> col < 3 ->
    exists M,
      rotation_matrices_from_basis ux uy uz = Ok M /\
      np.shape M = [n; 3; 3] /\
      np.get M [i; r; col] =
        Fin (dot3 (standard_basis r) (nth col [a; b; c] a)).
Proof.
  intros n ux uy uz i a b c r col Hx Hy Hz Hi Ra Rb Rc Na Nb Nc Hr Hcol.
  eexists. split; [apply (rotation_matrices_from_basis_eq n); assumption|].
  split; [reflexivity|].
  rewrite get_build3 by lia. unfold basis_code.
  assert (Ua : forall k, k < 3 -> unit_row ux 3 i k = Fin (coord a k)).
  { intros k Hk. rewrite (unit_row_fin ux i a k Ra) by (try lia; rewrite Na; lra).
    now rewrite (unit3_of_unit a Na). }
  assert (Ub : forall k, k < 3 -> unit_row uy 3 i k = Fin (coord b k)).
  { intros k Hk. rewrite (unit_row_fin uy i b k Rb) by (try lia; rewrite Nb; lra).
    now rewrite (unit3_of_unit b Nb). }
  assert (Uc : forall k, k < 3 -> unit_row uz 3 i k = Fin (coord c k)).
  { intros k Hk. rewrite (unit_row_fin uz i c k Rc) by (try lia; rewrite Nc; lra).
    now rewrite (unit3_of_unit c Nc). }
  destruct r as [|[|[|r]]]; try lia; destruct col as [|[|[|col]]]; try lia;
    cbn [nth seq map]; rewrite ?Ua, ?Ub, ?Uc by lia;
    unfold fsum; cbn [fold_left fadd fmul fzero]; f_equal;
    unfold dot3, standard_basis; simpl; ring.
Qed.

Lemma rotation_matrices_from_basis_entries_witness :
  exists M,
    rotation_matrices_from_basis unit_x unit_y unit_z = Ok M /\
    np.shape M = [1; 3; 3] /\
    np.get M [0; 1; 1] =
      Fin (dot3 (standard_basis 1)
             (nth 1 [V3 1 0 0; V3 0 1 0; V3 0 0 1] (V3 1 0 0))).
Proof.
  assert (N : forall x y z : R,
             (x * x + y * y + z * z = 1)%R -> norm3 (V3 x y z) = 1%R).
  { intros x y z E. unfold norm3, dot3. simpl. rewrite E. apply sqrt_1. }
  apply (rotation_matrices_from_basis_entries
           1 unit_x unit_y unit_z 0 (V3 1 0 0) (V3 0 1 0) (V3 0 0 1) 1 1).
  - reflexivity.
  - reflexivity.
  - reflexivity.
  - lia.
  - repeat split.
  - repeat split.
  - repeat split.
  - apply N. ring.
  - apply N. ring.
  - apply N. ring.
  - lia.
  - lia.
Defined.

(** ** C10 *)

(** C10.  The function of [rotations3d.py] and the n-dimensional function
    of [rotate_vector_collection.py] return the same array on every input
    on which both return; and both do return, the same array, for [n]
    3-vectors with a single 3 x 3 matrix, with a collection of one 3 x 3
    matrix, and with [n] index-aligned 3 x 3 matrices. *)
Theorem rotate_vector_collection_implementations_agree :
  forall (M v : np.ndarray fval) o1 o2,
    (forall r1 r2,
       Rotations3d.rotate_vector_collection M v o1 = Ok r1 ->
       RotateVectorCollection.rotate_vector_collection M v o2 = Ok r2 ->
       r1 = r2) /\
    (forall n,
       np.shape v = [n; 3] ->
       np.shape M = [3; 3] \/ np.shape M = [1; 3; 3] \/ np.shape M = [n; 3; 3] ->
       exists r,
         Rotations3d.rotate_vector_collection M v o1 = Ok r /\
         RotateVectorCollection.rotate_vector_collection M v o2 = Ok r).
Proof.
  intros M v o1 o2. split.
  - intros r1 r2. apply rotate_implementations_agree.
  - intros n Hv [HM|[HM|HM]].
    + eexists. split; [apply (rotate_3d_single n); assumption|].
      apply (rotate_nd_single 3 n); assumption.
    + eexists. split; [apply (rotate_3d_length1 n); assumption|].
      apply (rotate_nd_length1 3 3 n); assumption.
    + destruct (Nat.eq_dec n 1) as [->|Hn].
      * eexists. split; [apply (rotate_3d_length1 1); assumption|].
        apply (rotate_nd_length1 3 3 1); assumption.
      * eexists. split; [apply (rotate_vector_collection_aligned n); assumption|].
        apply (rotate_nd_aligned n); assumption.
Qed.

Lemma rotate_vector_collection_implementations_agree_witness :
  exists r,
    Rotations3d.rotate_vector_collection identity_matrix unit_y false = Ok r /\
    RotateVectorCollection.rotate_vector_collection
      identity_matrix unit_y true = Ok r.
Proof.
  apply (proj2 (rotate_vector_collection_implementations_agree
                  identity_matrix unit_y false true) 1).
  - reflexivity.
  - left. reflexivity.
Defined.

End Claims.

(* ================================================================= *)
(** * Further properties *)

(** ** Rodrigues' matrix, cross products and frames over the reals *)

Section RealRotationLemmas.
Local Open Scope R_scope.

Lemma rodrigues_zero_angle : forall k r c, rodrigues 0 k r c = kron r c.
Proof.
  intros k r c. unfold rodrigues. rewrite cos_0, sin_0. ring.
Qed.

Lemma mat_vec_identity : forall k a, mat_vec (rodrigues 0 k) a = a.
Proof.
  intros k [x y z]. unfold mat_vec. rewrite !rodrigues_zero_angle.
  unfold kron. simpl. f_equal; ring.
Qed.

Lemma rodrigues_fixes_axis : forall a k,
  dot3 k k = 1 -> mat_vec (rodrigues a k) k = k.
Proof.
  intros a [x y z] Hk. unfold dot3 in Hk. simpl in Hk.
  unfold mat_vec, rodrigues, kron, skew, coord. simpl.
  set (s := sin a). set (co := cos a). clearbody s co.
  f_equal; nsatz.
Qed.

Lemma rodrigues_preserves_dot : forall a k u w,
  dot3 k k = 1 ->
  dot3 (mat_vec (rodrigues a k) u) (mat_vec (rodrigues a k) w) = dot3 u w.
Proof.
  intros a [x y z] [u1 u2 u3] [w1 w2 w3] Hk. unfold dot3 in *. simpl in Hk.
  pose proof (sin2_cos2 a) as Hsc. unfold Rsqr in Hsc.
  unfold mat_vec, rodrigues, kron, skew, coord. simpl.
  set (s := sin a) in *. set (co := cos a) in *. clearbody s co.
  nsatz.
Qed.

Lemma rodrigues_opposite_angle : forall a k r c,
  (r < 3)%nat -> (c < 3)%nat -> rodrigues (- a) k r c = rodrigues a k c r.
Proof.
  intros a [x y z] r c Hr Hc. unfold rodrigues. rewrite cos_neg, sin_neg.
  destruct r as [|[|[|r]]]; try lia; destruct c as [|[|[|c]]]; try lia;
    unfold kron, skew, coord; simpl; ring.
Qed.

Lemma rodrigues_opposite_axis : forall a k r c,
  (r < 3)%nat -> (c < 3)%nat ->
  rodrigues a (scale3 (-1) k) r c = rodrigues a k c r.
Proof.
  intros a [x y z] r c Hr Hc. unfold rodrigues.
  destruct r as [|[|[|r]]]; try lia; destruct c as [|[|[|c]]]; try lia;
    unfold kron, skew, coord, scale3; simpl; ring.
Qed.

Lemma rodrigues_add_angles : forall a b k r c,
  dot3 k k = 1 -> (r < 3)%nat -> (c < 3)%nat ->
  rodrigues a k r 0 * rodrigues b k 0 c + rodrigues a k r 1 * rodrigues b k 1 c
  + rodrigues a k r 2 * rodrigues b k 2 c = rodrigues (a + b) k r c.
Proof.
  intros a b [x y z] r c Hk Hr Hc. unfold dot3 in Hk. simpl in Hk.
  pose proof (sin2_cos2 a) as Ha. unfold Rsqr in Ha.
  pose proof (sin2_cos2 b) as Hb. unfold Rsqr in Hb.
  unfold rodrigues. rewrite cos_plus, sin_plus.
  set (sa := sin a) in *. set (ca := cos a) in *.
  set (sb := sin b) in *. set (cb := cos b) in *. clearbody sa ca sb cb.
  destruct r as [|[|[|r]]]; try lia; destruct c as [|[|[|c]]]; try lia;
    unfold kron, skew, coord; simpl; nsatz.
Qed.

Lemma dot3_rodrigues_perpendicular : forall t k a,
  dot3 k a = 0 -> dot3 a a = 1 ->
  dot3 a (mat_vec (rodrigues t k) a) = cos t.
Proof.
  intros t [x y z] [ax ay az] Hk Ha. unfold dot3 in *. simpl in *.
  unfold mat_vec, rodrigues, kron, skew, coord. simpl.
  set (s := sin t). set (co := cos t). clearbody s co.
  nsatz.
Qed.

Lemma nonzero_norm3 : forall v, v <> V3 0 0 0 -> norm3 v <> 0.
Proof. intros v Hv E. apply Hv. now apply norm3_zero_iff. Qed.

Lemma unit_nonzero : forall v, norm3 v = 1 -> v <> V3 0 0 0.
Proof. intros v Hn E. apply norm3_zero_iff in E. lra. Qed.

Lemma dot3_sym : forall a b, dot3 a b = dot3 b a.
Proof. intros [ax ay az] [bx by_ bz]. unfold dot3. simpl. ring. Qed.

Lemma norm3_scale3 : forall t a, 0 <= t -> norm3 (scale3 t a) = t * norm3 a.
Proof.
  intros t [x y z] Ht. unfold norm3, scale3, dot3. simpl.
  replace (t * x * (t * x) + t * y * (t * y) + t * z * (t * z))
    with (t * t * (x * x + y * y + z * z)) by ring.
  rewrite sqrt_mult by nra. now rewrite sqrt_square.
Qed.

Lemma norm3_opposite : forall a, norm3 (scale3 (-1) a) = norm3 a.
Proof.
  intros [x y z]. unfold norm3, scale3, dot3. simpl. f_equal. ring.
Qed.

Lemma unit3_scale3 : forall t a,
  0 < t -> norm3 a <> 0 -> unit3 (scale3 t a) = unit3 a.
Proof.
  intros t a Ht Hn. unfold unit3. rewrite norm3_scale3 by lra.
  destruct a as [x y z]. unfold scale3. simpl.
  f_equal; field; split; lra || assumption.
Qed.

Lemma unit3_opposite : forall a,
  norm3 a <> 0 -> unit3 (scale3 (-1) a) = scale3 (-1) (unit3 a).
Proof.
  intros a Hn. unfold unit3. rewrite norm3_opposite.
  destruct a as [x y z]. unfold scale3. simpl. f_equal; field; assumption.
Qed.

Lemma scale3_nonzero : forall t a,
  t <> 0 -> a <> V3 0 0 0 -> scale3 t a <> V3 0 0 0.
Proof.
  intros t [x y z] Ht Ha E. apply Ha. unfold scale3 in E. simpl in E.
  inversion E as [[E1 E2 E3]]. f_equal; nra.
Qed.

Lemma cross3_orthogonal_l : forall a b, dot3 (cross3 a b) a = 0.
Proof. intros [ax ay az] [bx by_ bz]. unfold dot3, cross3. simpl. ring. Qed.

Lemma cross3_orthogonal_r : forall a b, dot3 (cross3 a b) b = 0.
Proof. intros [ax ay az] [bx by_ bz]. unfold dot3, cross3. simpl. ring. Qed.

Lemma cross3_swap : forall a b, cross3 b a = scale3 (-1) (cross3 a b).
Proof.
  intros [ax ay az] [bx by_ bz]. unfold cross3, scale3. simpl. f_equal; ring.
Qed.

Lemma cross3_scale3_self : forall t a, cross3 a (scale3 t a) = V3 0 0 0.
Proof. intros t [x y z]. unfold cross3, scale3. simpl. f_equal; ring. Qed.

Lemma dot3_unit3_l : forall w a, dot3 (unit3 w) a = dot3 w a / norm3 w.
Proof.
  intros [wx wy wz] [ax ay az]. unfold unit3, dot3. simpl. unfold Rdiv. ring.
Qed.

Lemma unit3_cross3_unit3 : forall a b,
  cross3 a b <> V3 0 0 0 ->
  unit3 (cross3 (unit3 a) (unit3 b)) = unit3 (cross3 a b).
Proof.
  intros a b Hc. destruct (nonparallel_norms a b Hc) as (Na & Nb & _).
  rewrite cross3_unit3 by assumption.
  apply unit3_scale3; [|now apply nonzero_norm3].
  apply Rinv_0_lt_compat.
  pose proof (sqrt_pos (dot3 a a)). pose proof (sqrt_pos (dot3 b b)).
  unfold norm3 in *. nra.
Qed.

Lemma unit3_mat_vec_rodrigues : forall t k a,
  dot3 k k = 1 -> norm3 a <> 0 ->
  unit3 (mat_vec (rodrigues t k) a) = mat_vec (rodrigues t k) (unit3 a).
Proof.
  intros t k a Hk Hn.
  assert (E : norm3 (mat_vec (rodrigues t k) a) = norm3 a).
  { unfold norm3. f_equal. now apply rodrigues_preserves_dot. }
  unfold unit3 at 1. rewrite E.
  destruct a as [x y z]. unfold unit3, mat_vec. simpl.
  f_equal; field; exact Hn.
Qed.

Lemma frame_matrix_orthonormal : forall a b c r col,
  dot3 a a = 1 -> dot3 b b = 1 -> dot3 c c = 1 ->
  dot3 a b = 0 -> dot3 a c = 0 -> dot3 b c = 0 ->
  (r < 3)%nat -> (col < 3)%nat ->
  frame_matrix a b c 0 r * frame_matrix a b c 0 col
  + frame_matrix a b c 1 r * frame_matrix a b c 1 col
  + frame_matrix a b c 2 r * frame_matrix a b c 2 col = kron r col.
Proof.
  intros [ax ay az] [bx by_ bz] [cx cy cz] r col Ha Hb Hc Hab Hac Hbc Hr Hcol.
  unfold dot3 in *. simpl in *.
  destruct r as [|[|[|r]]]; try lia; destruct col as [|[|[|col]]]; try lia;
    unfold frame_matrix, kron; simpl; lra.
Qed.

Lemma frame_matrix_det : forall a b c,
  dot3 c c = 1 -> cross3 a b = c -> det3R (frame_matrix a b c) = 1.
Proof.
  intros [ax ay az] [bx by_ bz] [cx cy cz] Hc Hx.
  unfold cross3 in Hx. simpl in Hx. inversion Hx as [[E1 E2 E3]].
  unfold dot3 in Hc. simpl in Hc. rewrite <- E1, <- E2, <- E3 in Hc.
  unfold det3R, frame_matrix. simpl. rewrite <- Hc. ring.
Qed.

Lemma frame_matrix_standard_basis : forall a b c k,
  (k < 3)%nat ->
  mat_vec (frame_matrix a b c) (standard_basis k) = nth k [a; b; c] a.
Proof.
  intros [ax ay az] [bx by_ bz] [cx cy cz] k Hk.
  destruct k as [|[|[|k]]]; try lia;
    unfold mat_vec, frame_matrix, standard_basis; simpl; f_equal; ring.
Qed.

End RealRotationLemmas.

(** ** Not-a-number through the arithmetic of the arrays *)

Section NaNLemmas.

Lemma fmul_nan_r : forall x, fmul x NaN = NaN.
Proof. now intros []. Qed.

Lemma fsum3_nan_last : forall (f : nat -> fval),
  f 2 = NaN -> fsum (map f (seq 0 3)) = NaN.
Proof.
  intros f H. cbn [seq map]. unfold fsum. cbn [fold_left]. rewrite H.
  apply fadd_nan_r.
Qed.

Lemma rodrigues_code_nan_angle : forall k r c, rodrigues_code NaN k r c = NaN.
Proof.
  intros k r c. unfold rodrigues_code. cbn [fcos fsub fneg fadd].
  rewrite fmul_nan_r, fadd_nan_r. reflexivity.
Qed.

Lemma matvec_nan : forall (m : nat -> nat -> fval) x j,
  m j 2 = NaN -> matvec 3 m x j = NaN.
Proof.
  intros m x j H. unfold matvec. apply fsum3_nan_last. now rewrite H.
Qed.

End NaNLemmas.

(** ** Applying matrices, vector by vector *)

Section RotateFurtherLemmas.
Import np.

Lemma rotate_3d_aligned_any : forall n d (M v : ndarray fval) opt,
  shape M = [n; d; d] -> shape v = [n; d] ->
  Rotations3d.rotate_vector_collection M v opt =
  Ok (build2 n d (fun i j =>
        matvec d (fun r c => get M [i; r; c]) (fun k => get v [i; k]) j)).
Proof.
  intros n d M v opt HM Hv. unfold Rotations3d.rotate_vector_collection.
  destruct (list_eq_dec Nat.eq_dec (shape M) [3; 3]) as [E|_];
    [rewrite HM in E; discriminate|].
  now rewrite (einsum_aligned n d d).
Qed.

Lemma rotate_nd_aligned_any : forall n d (M v : ndarray fval) opt,
  shape M = [n; d; d] -> shape v = [n; d] ->
  RotateVectorCollection.rotate_vector_collection M v opt =
  Ok (build2 n d (fun i j =>
        matvec d (fun r c => get M [i; r; c]) (fun k => get v [i; k]) j)).
Proof.
  intros n d M v opt HM Hv.
  destruct (Nat.eq_dec n 1) as [->|Hn].
  - rewrite (rotate_nd_length1 d d 1) by assumption.
    f_equal. apply build2_ext. intros i j Hi Hj.
    assert (i = 0) by lia. now subst i.
  - unfold RotateVectorCollection.rotate_vector_collection.
    unfold shape_last, shape_first, ndim. rewrite HM, Hv.
    cbn [rev app bind length]. rewrite Nat.eqb_refl. cbn [negb Nat.eqb].
    destruct (Nat.eqb_spec n 1) as [E|_]; [contradiction|].
    now rewrite (einsum_aligned n d d).
Qed.

(** Assigning a one-element array to a column of entries broadcasts it;
    any other length that is not the number of matrices is refused. *)
Lemma setitem_rc_single : forall n f g r c,
  r < 3 -> c < 3 ->
  exists F, setitem_rc (build3 n 3 3 f) r c (build1 1 g) = Ok (build3 n 3 3 F).
Proof.
  intros n f g r c Hr Hc. unfold setitem_rc.
  rewrite shape_build3, shape_build1.
  apply Nat.ltb_lt in Hr, Hc. rewrite Hr, Hc. cbn [andb].
  replace (broadcast_shapes [n] [1]) with (Some [n])
    by (unfold broadcast_shapes; simpl; now rewrite bdim_1_r).
  rewrite Nat.eqb_refl.
  eexists. f_equal. apply build3_ext. intros i r' c' Hi Hr' Hc'. reflexivity.
Qed.

Lemma setitem_rc_mismatch : forall n m f g r c,
  r < 3 -> c < 3 -> m <> n -> m <> 1 ->
  setitem_rc (build3 n 3 3 f) r c (build1 m g) = Raise ValueError.
Proof.
  intros n m f g r c Hr Hc Hmn Hm1. unfold setitem_rc.
  rewrite shape_build3, shape_build1.
  apply Nat.ltb_lt in Hr, Hc. rewrite Hr, Hc. cbn [andb].
  unfold broadcast_shapes. cbn [rev app broadcast_rev]. unfold bdim.
  destruct (Nat.eqb_spec n m) as [E|_]; [congruence|].
  destruct (Nat.eqb_spec n 1) as [E|_].
  - cbn [option_map rev app]. destruct (Nat.eqb_spec m n); [congruence|reflexivity].
  - destruct (Nat.eqb_spec m 1); [congruence|reflexivity].
Qed.

Lemma all_build_intro : forall sh (f : list nat -> bool),
  (forall idx, in_bounds sh idx -> f idx = true) ->
  all (build sh f) = true.
Proof.
  intros sh f Hf. unfold all, build. cbn [data].
  apply forallb_forall. intros b Hb. apply in_map_iff in Hb.
  destruct Hb as (p & <- & Hp). apply in_seq in Hp.
  apply Hf, unravel_in_bounds. lia.
Qed.

End RotateFurtherLemmas.

(** ** The constructions at one index *)

Section ConstructionLemmas.
Import Rotations3d.

Lemma row_is_coord : forall v i a j,
  row_is v i a -> j < 3 -> np.get v [i; j] = Fin (coord a j).
Proof.
  intros v i a j (H0 & H1 & H2) Hj.
  destruct j as [|[|[|j]]]; try lia; assumption.
Qed.

Lemma row_is_rotated : forall n (M v : np.ndarray fval) (mr : nat -> nat -> R) i a,
  i < n ->
  (forall r c, r < 3 -> c < 3 -> np.get M [i; r; c] = Fin (mr r c)) ->
  row_is v i a ->
  row_is (build2 n 3 (fun i j =>
            matvec 3 (fun r c => np.get M [i; r; c])
                     (fun k => np.get v [i; k]) j)) i (mat_vec mr a).
Proof.
  intros n M v mr i a Hi HM Hv. unfold row_is.
  rewrite !get_build2 by lia.
  split; [|split].
  - exact (matvec_fin _ mr v i a 0 HM Hv ltac:(lia)).
  - exact (matvec_fin _ mr v i a 1 HM Hv ltac:(lia)).
  - exact (matvec_fin _ mr v i a 2 HM Hv ltac:(lia)).
Qed.

(** Applying the matrices built from angles and axes: at an index with a
    finite angle, a finite nonzero axis and a finite vector, the result is
    the real matrix of Rodrigues' formula times the vector. *)
Lemma rotate_from_angles : forall n angles directions w opt i a v u,
  np.shape angles = [n] -> np.shape directions = [n; 3] ->
  np.shape w = [n; 3] -> i < n ->
  np.get angles [i] = Fin a -> row_is directions i v -> v <> V3 0 0 0 ->
  row_is w i u ->
  exists M out,
    rotation_matrices_from_angles angles directions = Ok M /\
    rotate_vector_collection M w opt = Ok out /\
    np.shape out = [n; 3] /\
    row_is out i (mat_vec (rodrigues a (unit3 v)) u).
Proof.
  intros n angles directions w opt i a v u Ha Hd Hw Hi Hai Hv Hnz Hu.
  destruct (rotation_matrices_from_angles_entries n angles directions Ha Hd)
    as (M & HM & HS & HE).
  exists M. eexists. split; [exact HM|].
  split; [apply (rotate_vector_collection_aligned n); assumption|].
  split; [reflexivity|].
  apply row_is_rotated; try assumption.
  intros r c Hr Hc. now apply (HE i a v).
Qed.

(** The matrix of [rotation_matrices_from_vectors] at an index where the
    two vectors are nonzero and parallel or opposite: the axis computed
    from the cross product is not-a-number, the source vector takes its
    place. *)
Lemma rotation_matrices_from_vectors_parallel : forall n v0 v1 i a0 b0,
  np.shape v0 = [n; 3] -> np.shape v1 = [n; 3] -> i < n ->
  row_is v0 i a0 -> row_is v1 i b0 ->
  a0 <> V3 0 0 0 -> b0 <> V3 0 0 0 -> cross3 a0 b0 = V3 0 0 0 ->
  exists M,
    rotation_matrices_from_vectors v0 v1 = Ok M /\
    np.shape M = [n; 3; 3] /\
    forall r c, r < 3 -> c < 3 ->
      np.get M [i; r; c] =
      Fin (rodrigues (acos (dot3 (unit3 a0) (unit3 b0))) (unit3 a0) r c).
Proof.
  intros n v0 v1 i a0 b0 H0 H1 Hi R0 R1 Hza Hzb Hc.
  pose proof (nonzero_norm3 a0 Hza) as Na.
  pose proof (nonzero_norm3 b0 Hzb) as Nb.
  pose proof (rotation_matrices_from_vectors_eq n v0 v1 H0 H1) as E.
  cbv zeta in E. rewrite E. clear E.
  set (A := build2 n 3 (unit_row v0 3)).
  set (B := build2 n 3 (unit_row v1 3)).
  set (D := build2 n 3 (unit_row (build2 n 3 (cross_code A B)) 3)).
  set (ANG := build1 n _).
  set (D' := build2 n 3 _).
  assert (RA : row_is A i (unit3 a0)) by now apply row_is_unit_row.
  assert (RB : row_is B i (unit3 b0)) by now apply row_is_unit_row.
  assert (Hcu : cross3 (unit3 a0) (unit3 b0) = V3 0 0 0).
  { rewrite cross3_unit3 by assumption. rewrite Hc. unfold scale3. simpl.
    f_equal; ring. }
  assert (ND : forall c, c < 3 -> np.get D [i; c] = NaN).
  { intros c Hcc. unfold D. rewrite get_build2 by lia.
    apply unit_row_zero; [|exact Hcc]. rewrite <- Hcu.
    now apply row_is_cross_code. }
  assert (Ua : dot3 (unit3 a0) (unit3 a0) = 1%R) by now apply dot3_unit3.
  assert (Ub : dot3 (unit3 b0) (unit3 b0) = 1%R) by now apply dot3_unit3.
  assert (HANG : np.get ANG [i] = Fin (acos (dot3 (unit3 a0) (unit3 b0)))).
  { unfold ANG. rewrite get_build1 by lia.
    rewrite (row_dot_fin _ _ i (unit3 a0) (unit3 b0)).
    - pose proof (dot3_unit_bounds _ _ Ua Ub) as Hd. unfold farccos.
      destruct (Rle_dec (-1) _) as [_|N]; [|lra].
      destruct (Rle_dec _ 1) as [_|N]; [reflexivity|lra].
    - replace (unit3 a0) with (unit3 (unit3 a0))
        by (apply unit3_of_unit, norm3_unit3; exact Na).
      apply row_is_unit_row; auto. rewrite norm3_unit3 by exact Na. lra.
    - replace (unit3 b0) with (unit3 (unit3 b0))
        by (apply unit3_of_unit, norm3_unit3; exact Nb).
      apply row_is_unit_row; auto. rewrite norm3_unit3 by exact Nb. lra. }
  assert (RD' : row_is D' i (unit3 a0)).
  { destruct RA as (A0 & A1 & A2). unfold row_is, D'.
    rewrite !get_build2 by lia. rewrite (ND 0) by lia.
    cbn [fisnan orb]. now repeat split. }
  destruct (rotation_matrices_from_angles_entries n ANG D') as (M & HM & HS & HE);
    try reflexivity.
  exists M. split; [exact HM|]. split; [exact HS|].
  intros r c Hr Hcc.
  rewrite (HE i _ _ Hi HANG RD' (unit3_nonzero _ Na) r c Hr Hcc).
  rewrite (unit3_of_unit (unit3 a0)) by (now apply norm3_unit3).
  reflexivity.
Qed.

Lemma basis_code_fin : forall ux uy uz i a b c r col,
  (forall k, k < 3 -> unit_row ux 3 i k = Fin (coord a k)) ->
  (forall k, k < 3 -> unit_row uy 3 i k = Fin (coord b k)) ->
  (forall k, k < 3 -> unit_row uz 3 i k = Fin (coord c k)) ->
  r < 3 -> col < 3 ->
  basis_code ux uy uz i r col = Fin (frame_matrix a b c r col).
Proof.
  intros ux uy uz i a b c r col Ua Ub Uc Hr Hcol. unfold basis_code.
  destruct r as [|[|[|r]]]; try lia; destruct col as [|[|[|col]]]; try lia;
    cbn [nth seq map]; rewrite ?Ua, ?Ub, ?Uc by lia;
    unfold fsum; cbn [fold_left fadd fmul fzero]; f_equal;
    unfold frame_matrix; simpl; ring.
Qed.

(** The matrix of [rotation_matrices_from_basis] at an index where the
    three vectors are finite and nonzero: its columns are the three unit
    vectors. *)
Lemma rotation_matrices_from_basis_columns : forall n ux uy uz i a b c,
  np.shape ux = [n; 3] -> np.shape uy = [n; 3] -> np.shape uz = [n; 3] ->
  i < n ->
  row_is ux i a -> row_is uy i b -> row_is uz i c ->
  a <> V3 0 0 0 -> b <> V3 0 0 0 -> c <> V3 0 0 0 ->
  exists M,
    rotation_matrices_from_basis ux uy uz = Ok M /\
    np.shape M = [n; 3; 3] /\
    forall r col, r < 3 -> col < 3 ->
      np.get M [i; r; col] =
      Fin (frame_matrix (unit3 a) (unit3 b) (unit3 c) r col).
Proof.
  intros n ux uy uz i a b c Hx Hy Hz Hi Ra Rb Rc Na Nb Nc.
  eexists. split; [apply (rotation_matrices_from_basis_eq n); assumption|].
  split; [reflexivity|].
  intros r col Hr Hcol. rewrite get_build3 by lia.
  apply basis_code_fin; try assumption;
    intros k Hk; apply unit_row_fin; try assumption; now apply nonzero_norm3.
Qed.

(** Fractions that are all finite and in the closed interval from 0 to 1
    pass the two assertions of [vectors_between_list_of_vectors]. *)
Lemma fractions_pass : forall n p,
  np.shape p = [n] -> (forall k, k < n -> fraction (np.get p [k])) ->
  np.all (np.build (np.shape p) (fun i => fgeb (np.get p i) (Fin 0))) = true /\
  np.all (np.build (np.shape p) (fun i => fleb (np.get p i) (Fin 1))) = true.
Proof.
  intros n p Hp Hf. rewrite Hp. split; apply all_build_intro;
    intros [|k [|? ?]] Hb; simpl in Hb; try tauto;
    destruct (Hf k) as (t & -> & Ht); try tauto.
  - unfold fgeb, fleb. destruct (Rle_dec 0 t); [reflexivity|lra].
  - unfold fleb. destruct (Rle_dec t 1); [reflexivity|lra].
Qed.

(** The steps of [vectors_between_list_of_vectors] once the assertions
    have passed. *)
Lemma vectors_between_steps : forall n x y p,
  np.shape x = [n; 3] -> np.shape y = [n; 3] -> np.shape p = [n] ->
  (forall k, k < n -> fraction (np.get p [k])) ->
  vectors_between_list_of_vectors x y p =
  (let z := build2 n 3 (unit_row (build2 n 3 (cross_code x y)) 3) in
   let theta :=
     build1 n (fun i =>
       farccos (row_dot (build2 n 3 (unit_row x 3))
                        (build2 n 3 (unit_row y 3)) 3 i)) in
   let angles :=
     np.build [n] (fun idx => fmul (np.get p idx) (np.get theta idx)) in
   M <- rotation_matrices_from_angles angles z ;;
   rotated <- rotate_vector_collection M x false ;;
   VectorUtilities.normalized_vectors rotated).
Proof.
  intros n x y p Hx Hy Hp Hf.
  destruct (fractions_pass n p Hp Hf) as (P0 & P1).
  unfold vectors_between_list_of_vectors.
  unfold np.greater_equal, np.less_equal. rewrite !map2_scalar_r. cbn [bind].
  rewrite P0. cbn [negb]. rewrite P1. cbn [negb].
  rewrite (vectors_normal_to_planes_eq n) by assumption. cbn [bind].
  rewrite (angles_between_eq n) by assumption. cbn [bind].
  unfold np.multiply at 1.
  rewrite (map2_same _ _ _ [n]) by (assumption || reflexivity).
  reflexivity.
Qed.

(** The vector [vectors_between_list_of_vectors] returns at an index where
    the two vectors are not parallel and the fraction is [t]: the unit
    vector along [x], turned by [t] times the angle between the two vectors
    about the unit normal of their plane. *)
Lemma vectors_between_row : forall n x y p i a0 b0 t,
  np.shape x = [n; 3] -> np.shape y = [n; 3] -> np.shape p = [n] ->
  (forall k, k < n -> fraction (np.get p [k])) -> i < n ->
  row_is x i a0 -> row_is y i b0 -> cross3 a0 b0 <> V3 0 0 0 ->
  np.get p [i] = Fin t ->
  exists out,
    vectors_between_list_of_vectors x y p = Ok out /\
    np.shape out = [n; 3] /\
    row_is out i
      (mat_vec (rodrigues (t * acos (dot3 (unit3 a0) (unit3 b0)))
                          (unit3 (cross3 a0 b0)))
               (unit3 a0)).
Proof.
  intros n x y p i a0 b0 t Hx Hy Hp Hf Hi Ra Rb Hc Hpi.
  destruct (nonparallel_norms a0 b0 Hc) as (Na & Nb & _).
  assert (Nw : norm3 (cross3 a0 b0) <> 0%R) by now apply nonzero_norm3.
  rewrite (vectors_between_steps n) by assumption. cbv zeta.
  set (Z := build2 n 3 (unit_row (build2 n 3 (cross_code x y)) 3)).
  set (TH := build1 n _).
  set (ANG := np.build [n] _).
  assert (RZ : row_is Z i (unit3 (cross3 a0 b0))).
  { apply row_is_unit_row; auto. now apply row_is_cross_code. }
  assert (HTH : np.get TH [i] = Fin (acos (dot3 (unit3 a0) (unit3 b0)))).
  { unfold TH. rewrite get_build1 by lia.
    rewrite (row_dot_fin _ _ i (unit3 a0) (unit3 b0)).
    - pose proof (dot3_unit_bounds _ _ (dot3_unit3 a0 Na) (dot3_unit3 b0 Nb))
        as Hd. unfold farccos.
      destruct (Rle_dec (-1) _) as [_|N]; [|lra].
      destruct (Rle_dec _ 1) as [_|N]; [reflexivity|lra].
    - now apply row_is_unit_row.
    - now apply row_is_unit_row. }
  assert (HANG : np.get ANG [i] =
                 Fin (t * acos (dot3 (unit3 a0) (unit3 b0)))).
  { unfold ANG. rewrite get_build by inb. now rewrite Hpi, HTH. }
  destruct (rotate_from_angles n ANG Z x false i _ _ a0
              eq_refl eq_refl Hx Hi HANG RZ (unit3_nonzero _ Nw) Ra)
    as (M & rot & HM & HO & HS & HR).
  rewrite HM. cbn [bind]. rewrite HO. cbn [bind].
  rewrite (normalized_vectors_eq n 3) by exact HS.
  eexists. split; [reflexivity|]. split; [reflexivity|].
  rewrite (unit3_of_unit (unit3 (cross3 a0 b0))) in HR
    by (now apply norm3_unit3).
  rewrite <- unit3_mat_vec_rodrigues by (assumption || now apply dot3_unit3).
  apply row_is_unit_row; try assumption.
  replace (norm3 (mat_vec _ a0)) with (norm3 a0); [exact Na|].
  unfold norm3. f_equal. symmetry.
  apply rodrigues_preserves_dot. now apply dot3_unit3.
Qed.

End ConstructionLemmas.

(** ** Applying rotation matrices *)

Section FurtherRotation.
Import np.

(** X1.  Given [n] matrices of size [d] x [d] and [n] vectors of dimension
    [d], both [rotate_vector_collection] functions return the same array of
    shape [(n, d)], whose row [i] is matrix [i] times vector [i]; this holds
    in every dimension [d] and for every [n], one and zero included. *)
Theorem rotate_vector_collection_each_by_its_matrix :
  forall n d (M v : ndarray fval) opt,
    shape M = [n; d; d] -> shape v = [n; d] ->
    exists out,
      Rotations3d.rotate_vector_collection M v opt = Ok out /\
      RotateVectorCollection.rotate_vector_collection M v opt = Ok out /\
      shape out = [n; d] /\
      forall i j, i < n -> j < d ->
        get out [i; j] =
        matvec d (fun r c => get M [i; r; c]) (fun k => get v [i; k]) j.
Proof.
  intros n d M v opt HM Hv. eexists.
  split; [apply (rotate_3d_aligned_any n d); assumption|].
  split; [apply (rotate_nd_aligned_any n d); assumption|].
  split; [reflexivity|].
  intros i j Hi Hj. now rewrite get_build2.
Qed.

Lemma rotate_vector_collection_each_by_its_matrix_witness :
  exists out,
    Rotations3d.rotate_vector_collection two_identities two_vectors false
      = Ok out /\
    RotateVectorCollection.rotate_vector_collection
      two_identities two_vectors false = Ok out /\
    shape out = [2; 3] /\
    forall i j, i < 2 -> j < 3 ->
      get out [i; j] =
      matvec 3 (fun r c => get two_identities [i; r; c])
               (fun k => get two_vectors [i; k]) j.
Proof.
  apply (rotate_vector_collection_each_by_its_matrix
           2 3 two_identities two_vectors false).
  - reflexivity.
  - reflexivity.
Defined.

(** X2.  Given [k] matrices ([k] other than one) and [k] sets of [n]
    vectors each, the n-dimensional [rotate_vector_collection] returns an
    array of shape [(k, n, d)] in which every vector of set [s] is
    multiplied by matrix [s]. *)
Theorem rotate_vector_collection_sets_of_vectors :
  forall k n d (M v : ndarray fval) opt,
    shape M = [k; d; d] -> shape v = [k; n; d] -> k <> 1 ->
    exists out,
      RotateVectorCollection.rotate_vector_collection M v opt = Ok out /\
      shape out = [k; n; d] /\
      forall s i j, s < k -> i < n -> j < d ->
        get out [s; i; j] =
        matvec d (fun r c => get M [s; r; c]) (fun t => get v [s; i; t]) j.
Proof.
  intros k n d M v opt HM Hv Hk.
  unfold RotateVectorCollection.rotate_vector_collection.
  unfold shape_last, shape_first, ndim. rewrite HM, Hv.
  cbn [rev app bind length]. rewrite Nat.eqb_refl. cbn [negb Nat.eqb].
  destruct (Nat.eqb_spec k 1) as [E|_]; [contradiction|].
  unfold einsum_ikl_ijl_ijk. rewrite HM, Hv, !bdim_refl.
  eexists. split; [reflexivity|]. split; [reflexivity|].
  intros s i j Hs Hi Hj. rewrite get_build by inb.
  unfold matvec. apply fsum_map_ext. intros t Ht.
  now rewrite !bi_lt by lia.
Qed.

Lemma rotate_vector_collection_sets_of_vectors_witness :
  exists out,
    RotateVectorCollection.rotate_vector_collection
      two_identities two_sets false = Ok out /\
    shape out = [2; 1; 3] /\
    forall s i j, s < 2 -> i < 1 -> j < 3 ->
      get out [s; i; j] =
      matvec 3 (fun r c => get two_identities [s; r; c])
               (fun t => get two_sets [s; i; t]) j.
Proof.
  apply (rotate_vector_collection_sets_of_vectors
           2 1 3 two_identities two_sets false).
  - reflexivity.
  - reflexivity.
  - lia.
Defined.

(** X3.  With a collection of one matrix and one set of [n] vectors (shapes
    [(1, d, d)] and [(1, n, d)]), the n-dimensional
    [rotate_vector_collection] takes the branch written for a single
    collection of vectors; the product with the transposed three-axis array
    is refused with [ValueError] whenever [n] differs from [d]. *)
Theorem rotate_vector_collection_single_set_raises :
  forall n d (M v : ndarray fval) opt,
    shape M = [1; d; d] -> shape v = [1; n; d] -> n <> d ->
    RotateVectorCollection.rotate_vector_collection M v opt = Raise ValueError.
Proof.
  intros n d M v opt HM Hv Hn.
  unfold RotateVectorCollection.rotate_vector_collection.
  unfold shape_last, shape_first, ndim. rewrite HM, Hv.
  cbn [rev app bind length]. rewrite Nat.eqb_refl. cbn [negb Nat.eqb].
  rewrite (getitem_0_shape d d) by exact HM. cbn [bind].
  unfold dot, T. rewrite shape_build2, Hv, shape_build. cbn [rev app].
  destruct (Nat.eqb_spec d n) as [E|_]; [congruence|reflexivity].
Qed.

Lemma rotate_vector_collection_single_set_raises_witness :
  RotateVectorCollection.rotate_vector_collection one_identity one_set false
    = Raise ValueError.
Proof.
  apply (rotate_vector_collection_single_set_raises
           1 3 one_identity one_set false).
  - reflexivity.
  - reflexivity.
  - lia.
Defined.

(** X4.  With a collection of one matrix and one set of exactly [d]
    vectors of dimension [d], the n-dimensional [rotate_vector_collection]
    returns an array of shape [(1, d, d)], but the sum runs over the index
    of the vector, not over its components: entry [(0, i, j)] is the sum
    over [t] of [M[0][j][t] * v[0][t][i]]. *)
Theorem rotate_vector_collection_single_set_square :
  forall d (M v : ndarray fval) opt,
    shape M = [1; d; d] -> shape v = [1; d; d] ->
    exists out,
      RotateVectorCollection.rotate_vector_collection M v opt = Ok out /\
      shape out = [1; d; d] /\
      forall i j, i < d -> j < d ->
        get out [0; i; j] =
        fsum (map (fun t => fmul (get M [0; j; t]) (get v [0; t; i]))
                  (seq 0 d)).
Proof.
  intros d [sM dM] [sv dv] opt HM Hv. cbn [shape] in HM, Hv. subst sM sv.
  unfold RotateVectorCollection.rotate_vector_collection.
  unfold shape_last, shape_first, ndim.
  cbn [shape rev app bind length]. rewrite Nat.eqb_refl. cbn [negb Nat.eqb].
  rewrite (getitem_0_shape d d) by reflexivity. cbn [bind].
  unfold dot, T. rewrite shape_build2. cbn [shape]. rewrite shape_build.
  cbn [rev app]. rewrite Nat.eqb_refl. cbn [bind]. rewrite shape_build.
  cbn [rev app length].
  eexists. split; [reflexivity|]. split; [reflexivity|].
  intros i j Hi Hj. rewrite get_build by inb. cbn [rev app].
  rewrite get_build by inb.
  cbn [firstn skipn removelast last app].
  apply fsum_map_ext. intros t Ht.
  rewrite get_build2 by lia. rewrite get_build by inb. reflexivity.
Qed.

Lemma rotate_vector_collection_single_set_square_witness :
  exists out,
    RotateVectorCollection.rotate_vector_collection
      one_identity one_identity false = Ok out /\
    shape out = [1; 3; 3] /\
    forall i j, i < 3 -> j < 3 ->
      get out [0; i; j] =
      fsum (map (fun t => fmul (get one_identity [0; j; t])
                               (get one_identity [0; t; i]))
                (seq 0 3)).
Proof.
  apply (rotate_vector_collection_single_set_square
           3 one_identity one_identity false).
  - reflexivity.
  - reflexivity.
Defined.

(** X5.  When the matrices are neither a single matrix (two axes) nor a
    collection of length one, and the vectors have neither two nor three
    axes, the n-dimensional [rotate_vector_collection] reaches the
    contraction without having bound [ein_string]: the call raises
    [UnboundLocalError]. *)
Theorem rotate_vector_collection_unbound_ein_string :
  forall (M v : ndarray fval) opt k d,
    shape_first M = Ok k -> k <> 1 -> ndim M <> 2 ->
    shape_last M = Ok d -> shape_last v = Ok d ->
    ndim v <> 2 -> ndim v <> 3 ->
    RotateVectorCollection.rotate_vector_collection M v opt =
    Raise (UnboundLocalError "ein_string").
Proof.
  intros M v opt k d Hf Hk H2 HM Hv Hv2 Hv3.
  unfold RotateVectorCollection.rotate_vector_collection.
  rewrite HM, Hv, Hf. cbn [bind]. rewrite Nat.eqb_refl. cbn [negb].
  destruct (Nat.eqb_spec (ndim M) 2) as [E|_]; [contradiction|].
  destruct (Nat.eqb_spec k 1) as [E|_]; [contradiction|].
  destruct (Nat.eqb_spec (ndim v) 3) as [E|_]; [contradiction|].
  destruct (Nat.eqb_spec (ndim v) 2) as [E|_]; [contradiction|].
  reflexivity.
Qed.

Lemma rotate_vector_collection_unbound_ein_string_witness :
  RotateVectorCollection.rotate_vector_collection
    two_identities flat_vector false =
  Raise (UnboundLocalError "ein_string").
Proof.
  apply (rotate_vector_collection_unbound_ein_string
           two_identities flat_vector false 2 3).
  - reflexivity.
  - lia.
  - unfold ndim. simpl. lia.
  - reflexivity.
  - reflexivity.
  - unfold ndim. simpl. lia.
  - unfold ndim. simpl. lia.
Defined.

(** X6.  The function of [rotations3d.py] accepts a single matrix only in
    the shape [(3, 3)]: matrices of any other shape go to the contraction
    over three axes, which raises [ValueError] when they do not have
    exactly three axes. *)
Theorem rotate_vector_collection_3d_wrong_rank :
  forall (M v : ndarray fval) opt,
    shape M <> [3; 3] -> ndim M <> 3 ->
    Rotations3d.rotate_vector_collection M v opt = Raise ValueError.
Proof.
  intros M v opt H33 H3. unfold Rotations3d.rotate_vector_collection.
  destruct (list_eq_dec Nat.eq_dec (shape M) [3; 3]) as [E|_]; [contradiction|].
  unfold einsum_ijk_ik_ij. unfold ndim in H3.
  destruct (shape M) as [|a [|b [|c [|? ?]]]]; try reflexivity.
  now elim H3.
Qed.

Lemma rotate_vector_collection_3d_wrong_rank_witness :
  Rotations3d.rotate_vector_collection two_short_vectors unit_x false
    = Raise ValueError.
Proof.
  apply (rotate_vector_collection_3d_wrong_rank two_short_vectors unit_x false).
  - simpl. discriminate.
  - unfold ndim. simpl. lia.
Defined.

(** X7.  The n-dimensional [rotate_vector_collection] fails its assertion
    whenever the last axis of the matrices and the last axis of the vectors
    differ in length, whatever the other axes. *)
Theorem rotate_vector_collection_nd_asserts_dimension :
  forall (M v : ndarray fval) opt a b,
    shape_last M = Ok a -> shape_last v = Ok b -> a <> b ->
    RotateVectorCollection.rotate_vector_collection M v opt =
    Raise (AssertionError "").
Proof.
  intros M v opt a b HM Hv Hab. now apply (rotate_nd_mismatch M v opt a b).
Qed.

Lemma rotate_vector_collection_nd_asserts_dimension_witness :
  RotateVectorCollection.rotate_vector_collection
    identity_matrix two_short_vectors true = Raise (AssertionError "").
Proof.
  apply (rotate_vector_collection_nd_asserts_dimension
           identity_matrix two_short_vectors true 3 1).
  - reflexivity.
  - reflexivity.
  - lia.
Defined.

(** X8.  [rotation_matrices_from_angles] raises [ValueError] whenever the
    number of angles differs from the number of axes: a single angle is
    broadcast by the assignments to the diagonal but refused by the
    reshape of the repeated cosines, any other number is refused by the
    first assignment. *)
Theorem rotation_matrices_from_angles_length_mismatch :
  forall n m angles directions,
    shape angles = [m] -> shape directions = [n; 3] -> m <> n ->
    Rotations3d.rotation_matrices_from_angles angles directions
      = Raise ValueError.
Proof.
  intros n m angles directions Ha Hd Hmn.
  unfold Rotations3d.rotation_matrices_from_angles.
  rewrite (normalized_vectors_eq n 3) by exact Hd. cbn [bind].
  unfold atleast_1d. rewrite Ha.
  unfold shape_first. rewrite shape_build2. cbn [bind].
  unfold sin, cos. rewrite !(map1_1d _ _ m) by exact Ha.
  rewrite zeros3.
  destruct (Nat.eq_dec m 1) as [->|Hm1].
  - destruct (setitem_rc_single n (fun _ _ _ => Fin 0)
                (fun i => fcos (get angles [i])) 0 0) as (F1 & E1); try lia.
    rewrite E1. cbn [bind].
    destruct (setitem_rc_single n F1
                (fun i => fcos (get angles [i])) 1 1) as (F2 & E2); try lia.
    rewrite E2. cbn [bind].
    destruct (setitem_rc_single n F2
                (fun i => fcos (get angles [i])) 2 2) as (F3 & E3); try lia.
    rewrite E3. cbn [bind].
    rewrite newaxis_1_build2. cbn [bind].
    rewrite outer_build2. cbn [bind].
    rewrite subtract_scalar_build1. cbn [bind].
    unfold reshape at 1, repeat. rewrite shape_build1. cbn [shape].
    replace (size [n; 3; 3] =? size [size [1] * 9]) with false; [reflexivity|].
    symmetry. apply Nat.eqb_neq. simpl. lia.
  - now rewrite setitem_rc_mismatch by lia.
Qed.

Lemma rotation_matrices_from_angles_length_mismatch_witness :
  Rotations3d.rotation_matrices_from_angles two_angles unit_z
    = Raise ValueError.
Proof.
  apply (rotation_matrices_from_angles_length_mismatch 1 2 two_angles unit_z).
  - reflexivity.
  - reflexivity.
  - lia.
Defined.

End FurtherRotation.

(** ** Matrices from angles and axes *)

Section FurtherAngles.
Import Rotations3d.

(** X9.  At an index where the angle is zero and the axis is finite and
    nonzero, the matrix of [rotation_matrices_from_angles] is the identity
    and applying it leaves the vector at that index unchanged. *)
Theorem rotation_matrices_from_angles_zero_angle :
  forall n angles directions w opt i v u j,
    np.shape angles = [n] -> np.shape directions = [n; 3] ->
    np.shape w = [n; 3] -> i < n -> j < 3 ->
    np.get angles [i] = Fin 0 -> row_is directions i v -> v <> V3 0 0 0 ->
    row_is w i u ->
    exists M out,
      rotation_matrices_from_angles angles directions = Ok M /\
      rotate_vector_collection M w opt = Ok out /\
      (forall r c, r < 3 -> c < 3 -> np.get M [i; r; c] = Fin (kron r c)) /\
      np.get out [i; j] = np.get w [i; j].
Proof.
  intros n angles directions w opt i v u j Ha Hd Hw Hi Hj Hai Hv Hnz Hu.
  destruct (rotation_matrices_from_angles_entries n angles directions Ha Hd)
    as (M & HM & HS & HE).
  exists M. eexists. split; [exact HM|].
  split; [apply (rotate_vector_collection_aligned n); assumption|].
  assert (HI : forall r c, r < 3 -> c < 3 -> np.get M [i; r; c] = Fin (kron r c)).
  { intros r c Hr Hc. rewrite (HE i 0%R v) by assumption.
    now rewrite rodrigues_zero_angle. }
  split; [exact HI|].
  rewrite get_build2 by lia.
  rewrite (matvec_fin _ kron w i u j HI Hu Hj).
  rewrite (row_is_coord w i u j Hu Hj). f_equal.
  destruct u as [x y z].
  destruct j as [|[|[|j]]]; try lia; unfold mat_vec, kron; simpl; ring.
Qed.

Lemma rotation_matrices_from_angles_zero_angle_witness :
  exists M out,
    rotation_matrices_from_angles zero_angle unit_z = Ok M /\
    rotate_vector_collection M unit_x false = Ok out /\
    (forall r c, r < 3 -> c < 3 -> np.get M [0; r; c] = Fin (kron r c)) /\
    np.get out [0; 0] = np.get unit_x [0; 0].
Proof.
  apply (rotation_matrices_from_angles_zero_angle
           1 zero_angle unit_z unit_x false 0 (V3 0 0 1) (V3 1 0 0) 0).
  - reflexivity.
  - reflexivity.
  - reflexivity.
  - lia.
  - lia.
  - reflexivity.
  - repeat split.
  - intro E. inversion E. lra.
  - repeat split.
Defined.

(** X10.  The matrix [rotation_matrices_from_angles] builds for an angle
    and a finite nonzero axis leaves that axis in place: applying the
    matrices to the collection of axes returns the axes. *)
Theorem rotation_matrices_from_angles_fixes_axis :
  forall n angles directions opt i a v j,
    np.shape angles = [n] -> np.shape directions = [n; 3] -> i < n -> j < 3 ->
    np.get angles [i] = Fin a -> row_is directions i v -> v <> V3 0 0 0 ->
    exists M out,
      rotation_matrices_from_angles angles directions = Ok M /\
      rotate_vector_collection M directions opt = Ok out /\
      np.get out [i; j] = np.get directions [i; j].
Proof.
  intros n angles directions opt i a v j Ha Hd Hi Hj Hai Hv Hnz.
  destruct (rotate_from_angles n angles directions directions opt i a v v)
    as (M & out & HM & HO & HS & HR); try assumption.
  exists M, out. split; [exact HM|]. split; [exact HO|].
  rewrite (row_is_coord _ _ _ j HR Hj), (row_is_coord _ _ _ j Hv Hj).
  do 2 f_equal.
  pose proof (nonzero_norm3 v Hnz) as Hn.
  rewrite <- (scale3_unit3 v Hn) at 2 3.
  rewrite mat_vec_scale3. f_equal.
  apply rodrigues_fixes_axis. now apply dot3_unit3.
Qed.

Lemma rotation_matrices_from_angles_fixes_axis_witness :
  exists M out,
    rotation_matrices_from_angles half_fraction unit_z = Ok M /\
    rotate_vector_collection M unit_z false = Ok out /\
    np.get out [0; 2] = np.get unit_z [0; 2].
Proof.
  apply (rotation_matrices_from_angles_fixes_axis
           1 half_fraction unit_z false 0 (1 / 2)%R (V3 0 0 1) 2).
  - reflexivity.
  - reflexivity.
  - lia.
  - lia.
  - reflexivity.
  - repeat split.
  - intro E. inversion E. lra.
Defined.

(** X11.  Applying the matrix of [rotation_matrices_from_angles] (finite
    angle, finite nonzero axis) to two vectors keeps their dot product, and
    keeps the length of each. *)
Theorem rotation_matrices_from_angles_preserves_dot :
  forall n angles directions w1 w2 opt i a v u1 u2,
    np.shape angles = [n] -> np.shape directions = [n; 3] ->
    np.shape w1 = [n; 3] -> np.shape w2 = [n; 3] -> i < n ->
    np.get angles [i] = Fin a -> row_is directions i v -> v <> V3 0 0 0 ->
    row_is w1 i u1 -> row_is w2 i u2 ->
    exists M out1 out2,
      rotation_matrices_from_angles angles directions = Ok M /\
      rotate_vector_collection M w1 opt = Ok out1 /\
      rotate_vector_collection M w2 opt = Ok out2 /\
      row_dot out1 out2 3 i = row_dot w1 w2 3 i /\
      row_norm out1 3 i = row_norm w1 3 i.
Proof.
  intros n angles directions w1 w2 opt i a v u1 u2 Ha Hd H1 H2 Hi Hai Hv Hnz
    Hu1 Hu2.
  destruct (rotate_from_angles n angles directions w1 opt i a v u1)
    as (M & out1 & HM & HO1 & _ & HR1); try assumption.
  destruct (rotate_from_angles n angles directions w2 opt i a v u2)
    as (M' & out2 & HM' & HO2 & _ & HR2); try assumption.
  rewrite HM in HM'. inversion HM'; subst M'.
  exists M, out1, out2. repeat split; try assumption.
  - rewrite (row_dot_fin _ _ i _ _ HR1 HR2), (row_dot_fin _ _ i _ _ Hu1 Hu2).
    f_equal. apply rodrigues_preserves_dot, dot3_unit3.
    now apply nonzero_norm3.
  - rewrite (row_norm_fin _ i _ HR1), (row_norm_fin _ i _ Hu1).
    f_equal. unfold norm3. f_equal.
    apply rodrigues_preserves_dot, dot3_unit3. now apply nonzero_norm3.
Qed.

Lemma rotation_matrices_from_angles_preserves_dot_witness :
  exists M out1 out2,
    rotation_matrices_from_angles half_fraction unit_z = Ok M /\
    rotate_vector_collection M unit_x false = Ok out1 /\
    rotate_vector_collection M long_x false = Ok out2 /\
    row_dot out1 out2 3 0 = row_dot unit_x long_x 3 0 /\
    row_norm out1 3 0 = row_norm unit_x 3 0.
Proof.
  apply (rotation_matrices_from_angles_preserves_dot
           1 half_fraction unit_z unit_x long_x false 0 (1 / 2)%R
           (V3 0 0 1) (V3 1 0 0) (V3 2 0 0)).
  - reflexivity.
  - reflexivity.
  - reflexivity.
  - reflexivity.
  - lia.
  - reflexivity.
  - repeat split.
  - intro E. inversion E. lra.
  - repeat split.
  - repeat split.
Defined.

(** X12.  For the same axis, the matrix [rotation_matrices_from_angles]
    builds for the opposite angle is the transpose of the matrix for the
    angle: the opposite angle gives the inverse rotation. *)
Theorem rotation_matrices_from_angles_opposite_angle :
  forall n angles1 angles2 directions i a v r c,
    np.shape angles1 = [n] -> np.shape angles2 = [n] ->
    np.shape directions = [n; 3] -> i < n ->
    np.get angles1 [i] = Fin a -> np.get angles2 [i] = Fin (- a) ->
    row_is directions i v -> v <> V3 0 0 0 -> r < 3 -> c < 3 ->
    exists M1 M2,
      rotation_matrices_from_angles angles1 directions = Ok M1 /\
      rotation_matrices_from_angles angles2 directions = Ok M2 /\
      np.get M2 [i; r; c] = np.get M1 [i; c; r].
Proof.
  intros n angles1 angles2 directions i a v r c H1 H2 Hd Hi Ha1 Ha2 Hv Hnz Hr Hc.
  destruct (rotation_matrices_from_angles_entries n angles1 directions H1 Hd)
    as (M1 & HM1 & _ & HE1).
  destruct (rotation_matrices_from_angles_entries n angles2 directions H2 Hd)
    as (M2 & HM2 & _ & HE2).
  exists M1, M2. split; [exact HM1|]. split; [exact HM2|].
  rewrite (HE1 i a v), (HE2 i (- a)%R v) by assumption.
  f_equal. now apply rodrigues_opposite_angle.
Qed.

Lemma rotation_matrices_from_angles_opposite_angle_witness :
  exists M1 M2,
    rotation_matrices_from_angles half_fraction unit_z = Ok M1 /\
    rotation_matrices_from_angles minus_half unit_z = Ok M2 /\
    np.get M2 [0; 0; 1] = np.get M1 [0; 1; 0].
Proof.
  apply (rotation_matrices_from_angles_opposite_angle
           1 half_fraction minus_half unit_z 0 (1 / 2)%R (V3 0 0 1) 0 1).
  - reflexivity.
  - reflexivity.
  - reflexivity.
  - lia.
  - reflexivity.
  - reflexivity.
  - repeat split.
  - intro E. inversion E. lra.
  - lia.
  - lia.
Defined.

(** X13.  About one axis, angles add: the product of the matrix
    [rotation_matrices_from_angles] builds for the angle [a] with the
    matrix for the angle [b] is the matrix for the angle [a + b]. *)
Theorem rotation_matrices_from_angles_angles_add :
  forall n angles1 angles2 angles3 directions i a b v r c,
    np.shape angles1 = [n] -> np.shape angles2 = [n] ->
    np.shape angles3 = [n] -> np.shape directions = [n; 3] -> i < n ->
    np.get angles1 [i] = Fin a -> np.get angles2 [i] = Fin b ->
    np.get angles3 [i] = Fin (a + b) ->
    row_is directions i v -> v <> V3 0 0 0 -> r < 3 -> c < 3 ->
    exists M1 M2 M3,
      rotation_matrices_from_angles angles1 directions = Ok M1 /\
      rotation_matrices_from_angles angles2 directions = Ok M2 /\
      rotation_matrices_from_angles angles3 directions = Ok M3 /\
      fsum (map (fun k => fmul (np.get M1 [i; r; k]) (np.get M2 [i; k; c]))
                (seq 0 3)) = np.get M3 [i; r; c].
Proof.
  intros n angles1 angles2 angles3 directions i a b v r c H1 H2 H3 Hd Hi
    Ha1 Ha2 Ha3 Hv Hnz Hr Hc.
  destruct (rotation_matrices_from_angles_entries n angles1 directions H1 Hd)
    as (M1 & HM1 & _ & HE1).
  destruct (rotation_matrices_from_angles_entries n angles2 directions H2 Hd)
    as (M2 & HM2 & _ & HE2).
  destruct (rotation_matrices_from_angles_entries n angles3 directions H3 Hd)
    as (M3 & HM3 & _ & HE3).
  exists M1, M2, M3. repeat split; try assumption.
  cbn [seq map].
  rewrite !(HE1 i a v), !(HE2 i b v), (HE3 i (a + b)%R v) by (assumption || lia).
  unfold fsum. cbn [fold_left fadd fmul fzero]. f_equal.
  rewrite <- (rodrigues_add_angles a b (unit3 v) r c); try assumption.
  - ring.
  - apply dot3_unit3. now apply nonzero_norm3.
Qed.

Lemma rotation_matrices_from_angles_angles_add_witness :
  exists M1 M2 M3,
    rotation_matrices_from_angles half_fraction unit_z = Ok M1 /\
    rotation_matrices_from_angles minus_half unit_z = Ok M2 /\
    rotation_matrices_from_angles zero_angle unit_z = Ok M3 /\
    fsum (map (fun k => fmul (np.get M1 [0; 0; k]) (np.get M2 [0; k; 1]))
              (seq 0 3)) = np.get M3 [0; 0; 1].
Proof.
  apply (rotation_matrices_from_angles_angles_add
           1 half_fraction minus_half zero_angle unit_z 0
           (1 / 2)%R (- (1 / 2))%R (V3 0 0 1) 0 1).
  - reflexivity.
  - reflexivity.
  - reflexivity.
  - reflexivity.
  - lia.
  - reflexivity.
  - reflexivity.
  - change (Fin 0 = Fin (1 / 2 + - (1 / 2))). f_equal. lra.
  - repeat split.
  - intro E. inversion E. lra.
  - lia.
  - lia.
Defined.

(** X14.  The length of the axis is ignored by
    [rotation_matrices_from_angles]: an axis and a positive multiple of it
    give the same matrix. *)
Theorem rotation_matrices_from_angles_axis_length_ignored :
  forall n angles directions1 directions2 i a v t r c,
    np.shape angles = [n] -> np.shape directions1 = [n; 3] ->
    np.shape directions2 = [n; 3] -> i < n ->
    np.get angles [i] = Fin a ->
    row_is directions1 i v -> row_is directions2 i (scale3 t v) ->
    v <> V3 0 0 0 -> (0 < t)%R -> r < 3 -> c < 3 ->
    exists M1 M2,
      rotation_matrices_from_angles angles directions1 = Ok M1 /\
      rotation_matrices_from_angles angles directions2 = Ok M2 /\
      np.get M2 [i; r; c] = np.get M1 [i; r; c].
Proof.
  intros n angles d1 d2 i a v t r c Ha H1 H2 Hi Hai Hv1 Hv2 Hnz Ht Hr Hc.
  destruct (rotation_matrices_from_angles_entries n angles d1 Ha H1)
    as (M1 & HM1 & _ & HE1).
  destruct (rotation_matrices_from_angles_entries n angles d2 Ha H2)
    as (M2 & HM2 & _ & HE2).
  exists M1, M2. split; [exact HM1|]. split; [exact HM2|].
  pose proof (nonzero_norm3 v Hnz) as Hn.
  assert (Hnz2 : scale3 t v <> V3 0 0 0)
    by (apply scale3_nonzero; [lra|assumption]).
  rewrite (HE1 i a v), (HE2 i a (scale3 t v)) by assumption.
  now rewrite unit3_scale3.
Qed.

Lemma rotation_matrices_from_angles_axis_length_ignored_witness :
  exists M1 M2,
    rotation_matrices_from_angles half_fraction unit_x = Ok M1 /\
    rotation_matrices_from_angles half_fraction long_x = Ok M2 /\
    np.get M2 [0; 1; 2] = np.get M1 [0; 1; 2].
Proof.
  apply (rotation_matrices_from_angles_axis_length_ignored
           1 half_fraction unit_x long_x 0 (1 / 2)%R (V3 1 0 0) 2%R 1 2).
  - reflexivity.
  - reflexivity.
  - reflexivity.
  - lia.
  - reflexivity.
  - repeat split.
  - repeat split; unfold np.get, np.get_flat; simpl; f_equal; lra.
  - intro E. inversion E. lra.
  - lra.
  - lia.
  - lia.
Defined.

End FurtherAngles.

(** ** Normals, matrices from pairs of vectors and from bases *)

Section FurtherVectors.
Import Rotations3d.

(** X15.  At an index where the two vectors are finite, of ordinary size
    ([well_scaled]) and separated from parallel and antiparallel
    ([separated]), [vectors_normal_to_planes] returns the cross product
    divided by its length: a vector of length one, orthogonal to both
    inputs.  Equality of real numbers stands for equality up to floating
    tolerance, which the two conditions warrant: the cross product of the
    inputs neither underflows nor cancels. *)
Theorem vectors_normal_to_planes_unit_orthogonal :
  forall n x y i a b,
    np.shape x = [n; 3] -> np.shape y = [n; 3] -> i < n ->
    row_is x i a -> row_is y i b ->
    well_scaled a -> well_scaled b -> separated a b ->
    exists out w,
      vectors_normal_to_planes x y = Ok out /\
      np.shape out = [n; 3] /\
      row_is out i w /\
      w = unit3 (cross3 a b) /\
      norm3 w = 1%R /\ dot3 w a = 0%R /\ dot3 w b = 0%R.
Proof.
  intros n x y i a b Hx Hy Hi Ra Rb Wa Wb Hs.
  pose proof (separated_nonparallel a b Wa Wb Hs) as Hc.
  assert (Hn : norm3 (cross3 a b) <> 0%R) by now apply nonzero_norm3.
  eexists. exists (unit3 (cross3 a b)).
  split; [apply (vectors_normal_to_planes_eq n); assumption|].
  split; [reflexivity|].
  split; [apply row_is_unit_row; auto; now apply row_is_cross_code|].
  split; [reflexivity|].
  split; [now apply norm3_unit3|].
  split.
  - rewrite dot3_unit3_l, cross3_orthogonal_l. unfold Rdiv. ring.
  - rewrite dot3_unit3_l, cross3_orthogonal_r. unfold Rdiv. ring.
Qed.

Lemma vectors_normal_to_planes_unit_orthogonal_witness :
  exists out w,
    vectors_normal_to_planes long_x unit_y = Ok out /\
    np.shape out = [1; 3] /\
    row_is out 0 w /\
    w = unit3 (cross3 (V3 2 0 0) (V3 0 1 0)) /\
    norm3 w = 1%R /\ dot3 w (V3 2 0 0) = 0%R /\ dot3 w (V3 0 1 0) = 0%R.
Proof.
  apply (vectors_normal_to_planes_unit_orthogonal
           1 long_x unit_y 0 (V3 2 0 0) (V3 0 1 0)).
  - reflexivity.
  - reflexivity.
  - lia.
  - repeat split.
  - repeat split.
  - unfold well_scaled, dot3. simpl. lra.
  - unfold well_scaled, dot3. simpl. lra.
  - unfold separated, dot3, cross3. simpl. lra.
Defined.

(** X16.  At an index where the two vectors are finite and parallel (their
    cross product is zero: one is a multiple of the other, or one is zero),
    [vectors_normal_to_planes] raises no error, returns an array of shape
    [(n, 3)] and its row at that index has not-a-number in every
    component. *)
Theorem vectors_normal_to_planes_parallel_nan :
  forall n x y i a b c,
    np.shape x = [n; 3] -> np.shape y = [n; 3] -> i < n -> c < 3 ->
    row_is x i a -> row_is y i b -> cross3 a b = V3 0 0 0 ->
    exists out,
      vectors_normal_to_planes x y = Ok out /\
      np.shape out = [n; 3] /\
      np.get out [i; c] = NaN.
Proof.
  intros n x y i a b c Hx Hy Hi Hc Ra Rb Hz.
  eexists. split; [apply (vectors_normal_to_planes_eq n); assumption|].
  split; [reflexivity|].
  rewrite get_build2 by lia.
  apply unit_row_zero; [|exact Hc].
  rewrite <- Hz. now apply row_is_cross_code.
Qed.

Lemma vectors_normal_to_planes_parallel_nan_witness :
  exists out,
    vectors_normal_to_planes unit_x long_x = Ok out /\
    np.shape out = [1; 3] /\
    np.get out [0; 1] = NaN.
Proof.
  apply (vectors_normal_to_planes_parallel_nan
           1 unit_x long_x 0 (V3 1 0 0) (V3 2 0 0) 1).
  - reflexivity.
  - reflexivity.
  - lia.
  - lia.
  - repeat split.
  - repeat split.
  - unfold cross3. simpl. f_equal; ring.
Defined.

(** X17.  At an index where the two vectors are finite and not parallel,
    the matrix of [rotation_matrices_from_vectors] is a rotation: it is
    orthonormal and its determinant is 1. *)
Theorem rotation_matrices_from_vectors_is_rotation :
  forall n v0 v1 i a0 b0 r c,
    np.shape v0 = [n; 3] -> np.shape v1 = [n; 3] -> i < n ->
    row_is v0 i a0 -> row_is v1 i b0 -> cross3 a0 b0 <> V3 0 0 0 ->
    r < 3 -> c < 3 ->
    exists M,
      rotation_matrices_from_vectors v0 v1 = Ok M /\
      np.shape M = [n; 3; 3] /\
      gram M i r c = Fin (kron r c) /\
      gram_rows M i r c = Fin (kron r c) /\
      det3 M i = Fin 1.
Proof.
  intros n v0 v1 i a0 b0 r c H0 H1 Hi R0 R1 Hc Hr Hcc.
  destruct (rotation_matrices_from_vectors_entries n v0 v1 i a0 b0)
    as (M & HM & HS & E); try assumption.
  destruct (nonparallel_norms a0 b0 Hc) as (_ & _ & Nw).
  pose proof (dot3_unit3 _ Nw) as Hk.
  set (th := acos (dot3 (unit3 a0) (unit3 b0))) in *.
  set (k := unit3 (cross3 (unit3 a0) (unit3 b0))) in *.
  exists M. split; [exact HM|]. split; [exact HS|].
  split; [|split].
  - unfold gram. cbn [seq map].
    rewrite !E by lia. unfold fsum. cbn [fold_left fadd fmul fzero].
    f_equal. rewrite <- (rodrigues_orthonormal th k r c Hk Hr Hcc). ring.
  - unfold gram_rows. cbn [seq map].
    rewrite !E by lia. unfold fsum. cbn [fold_left fadd fmul fzero].
    f_equal. rewrite <- (rodrigues_orthonormal_rows th k r c Hk Hr Hcc). ring.
  - unfold det3. rewrite !E by lia. cbn [fadd fsub fmul fneg].
    f_equal. rewrite <- (rodrigues_det th k Hk). unfold det3R. ring.
Qed.

Lemma rotation_matrices_from_vectors_is_rotation_witness :
  exists M,
    rotation_matrices_from_vectors long_x unit_y = Ok M /\
    np.shape M = [1; 3; 3] /\
    gram M 0 0 1 = Fin (kron 0 1) /\
    gram_rows M 0 0 1 = Fin (kron 0 1) /\
    det3 M 0 = Fin 1.
Proof.
  apply (rotation_matrices_from_vectors_is_rotation
           1 long_x unit_y 0 (V3 2 0 0) (V3 0 1 0) 0 1).
  - reflexivity.
  - reflexivity.
  - lia.
  - repeat split.
  - repeat split.
  - unfold cross3. simpl. intro E. inversion E. lra.
  - lia.
  - lia.
Defined.

(** X18.  Exchanging the two collections transposes the matrices of
    [rotation_matrices_from_vectors]: at an index where the vectors are
    finite and not parallel, the matrix taking [v1] to [v0] is the inverse
    of the matrix taking [v0] to [v1]. *)
Theorem rotation_matrices_from_vectors_exchanged :
  forall n v0 v1 i a0 b0 r c,
    np.shape v0 = [n; 3] -> np.shape v1 = [n; 3] -> i < n ->
    row_is v0 i a0 -> row_is v1 i b0 -> cross3 a0 b0 <> V3 0 0 0 ->
    r < 3 -> c < 3 ->
    exists M M',
      rotation_matrices_from_vectors v0 v1 = Ok M /\
      rotation_matrices_from_vectors v1 v0 = Ok M' /\
      np.get M' [i; r; c] = np.get M [i; c; r].
Proof.
  intros n v0 v1 i a0 b0 r c H0 H1 Hi R0 R1 Hc Hr Hcc.
  assert (Hc' : cross3 b0 a0 <> V3 0 0 0).
  { rewrite cross3_swap. apply scale3_nonzero; [lra|exact Hc]. }
  destruct (rotation_matrices_from_vectors_entries n v0 v1 i a0 b0)
    as (M & HM & _ & E); try assumption.
  destruct (rotation_matrices_from_vectors_entries n v1 v0 i b0 a0)
    as (M' & HM' & _ & E'); try assumption.
  destruct (nonparallel_norms a0 b0 Hc) as (_ & _ & Nw).
  exists M, M'. split; [exact HM|]. split; [exact HM'|].
  rewrite E, E' by assumption. f_equal.
  rewrite (dot3_sym (unit3 b0) (unit3 a0)).
  rewrite (cross3_swap (unit3 a0) (unit3 b0)).
  rewrite unit3_opposite by exact Nw.
  now apply rodrigues_opposite_axis.
Qed.

Lemma rotation_matrices_from_vectors_exchanged_witness :
  exists M M',
    rotation_matrices_from_vectors long_x unit_y = Ok M /\
    rotation_matrices_from_vectors unit_y long_x = Ok M' /\
    np.get M' [0; 0; 1] = np.get M [0; 1; 0].
Proof.
  apply (rotation_matrices_from_vectors_exchanged
           1 long_x unit_y 0 (V3 2 0 0) (V3 0 1 0) 0 1).
  - reflexivity.
  - reflexivity.
  - lia.
  - repeat split.
  - repeat split.
  - unfold cross3. simpl. intro E. inversion E. lra.
  - lia.
  - lia.
Defined.

(** X19.  At an index where the second vector is a positive multiple of
    the first (finite, nonzero), [rotation_matrices_from_vectors] returns
    the identity matrix: the axis computed from the cross product is
    not-a-number and is replaced by the first vector, the angle is zero.
    Applying the matrix gives the first vector back. *)
Theorem rotation_matrices_from_vectors_same_direction :
  forall n v0 v1 opt i a0 t r c,
    np.shape v0 = [n; 3] -> np.shape v1 = [n; 3] -> i < n ->
    r < 3 -> c < 3 ->
    row_is v0 i a0 -> row_is v1 i (scale3 t a0) ->
    a0 <> V3 0 0 0 -> (0 < t)%R ->
    exists M out,
      rotation_matrices_from_vectors v0 v1 = Ok M /\
      rotate_vector_collection M v0 opt = Ok out /\
      np.get M [i; r; c] = Fin (kron r c) /\
      np.get out [i; c] = np.get v0 [i; c].
Proof.
  intros n v0 v1 opt i a0 t r c H0 H1 Hi Hr Hc R0 R1 Hza Ht.
  pose proof (nonzero_norm3 a0 Hza) as Na.
  destruct (rotation_matrices_from_vectors_parallel n v0 v1 i a0 (scale3 t a0))
    as (M & HM & HS & HE); try assumption.
  { apply scale3_nonzero; [lra|assumption]. }
  { apply cross3_scale3_self. }
  assert (HI : forall r c, r < 3 -> c < 3 -> np.get M [i; r; c] = Fin (kron r c)).
  { intros r' c' Hr' Hc'. rewrite HE by assumption. f_equal.
    rewrite unit3_scale3 by assumption.
    rewrite (dot3_unit3 a0 Na), acos_1. apply rodrigues_zero_angle. }
  exists M. eexists. split; [exact HM|].
  split; [apply (rotate_vector_collection_aligned n); assumption|].
  split; [now apply HI|].
  rewrite get_build2 by lia.
  rewrite (matvec_fin _ kron v0 i a0 c HI R0 Hc).
  rewrite (row_is_coord v0 i a0 c R0 Hc). f_equal.
  destruct a0 as [x y z].
  destruct c as [|[|[|c]]]; try lia; unfold mat_vec, kron; simpl; ring.
Qed.

Lemma rotation_matrices_from_vectors_same_direction_witness :
  exists M out,
    rotation_matrices_from_vectors unit_x long_x = Ok M /\
    rotate_vector_collection M unit_x false = Ok out /\
    np.get M [0; 0; 1] = Fin (kron 0 1) /\
    np.get out [0; 1] = np.get unit_x [0; 1].
Proof.
  apply (rotation_matrices_from_vectors_same_direction
           1 unit_x long_x false 0 (V3 1 0 0) 2%R 0 1).
  - reflexivity.
  - reflexivity.
  - lia.
  - lia.
  - lia.
  - repeat split.
  - repeat split; unfold np.get, np.get_flat; simpl; f_equal; lra.
  - intro E. inversion E. lra.
  - lra.
Defined.

(** X21.  At an index where either vector is the zero vector,
    [rotation_matrices_from_vectors] raises no error, returns the [n]
    matrices (an array of shape [(n, 3, 3)]) and every entry of the matrix
    at that index is not-a-number. *)
Theorem rotation_matrices_from_vectors_zero_vector :
  forall n v0 v1 i r c,
    np.shape v0 = [n; 3] -> np.shape v1 = [n; 3] -> i < n ->
    r < 3 -> c < 3 ->
    row_is v0 i (V3 0 0 0) \/ row_is v1 i (V3 0 0 0) ->
    exists M,
      rotation_matrices_from_vectors v0 v1 = Ok M /\
      np.shape M = [n; 3; 3] /\
      np.get M [i; r; c] = NaN.
Proof.
  intros n v0 v1 i r c H0 H1 Hi Hr Hc Hz.
  pose proof (rotation_matrices_from_vectors_eq n v0 v1 H0 H1) as E.
  cbv zeta in E. rewrite E. clear E.
  set (A := build2 n 3 (unit_row v0 3)).
  set (B := build2 n 3 (unit_row v1 3)).
  set (D := build2 n 3 (unit_row (build2 n 3 (cross_code A B)) 3)).
  set (ANG := build1 n _).
  set (D' := build2 n 3 _).
  eexists. split; [apply (rotation_matrices_from_angles_eq n); reflexivity|].
  split; [reflexivity|].
  rewrite get_build3 by lia.
  destruct Hz as [Hz|Hz].
  - apply rodrigues_code_nan; try assumption.
    intros t Ht. unfold unit_row.
    assert (HA : forall t, t < 3 -> np.get A [i; t] = NaN).
    { intros t' Ht'. unfold A. rewrite get_build2 by lia.
      now apply unit_row_zero. }
    assert (HD : forall t, t < 3 -> np.get D [i; t] = NaN).
    { intros t' Ht'. unfold D. rewrite get_build2 by lia. unfold unit_row.
      rewrite get_build2 by lia. unfold cross_code.
      rewrite (HA ((t' + 1) mod 3)) by (apply Nat.mod_upper_bound; lia).
      reflexivity. }
    unfold D'. rewrite get_build2 by lia.
    rewrite (HD 0) by lia. cbn [fisnan orb]. now rewrite HA.
  - replace (np.get ANG [i]) with NaN; [apply rodrigues_code_nan_angle|].
    unfold ANG. rewrite get_build1 by lia. unfold row_dot.
    rewrite fsum3_nan_last; [reflexivity|].
    rewrite (get_build2 n 3 (unit_row B 3)) by lia.
    replace (unit_row B 3 i 2) with NaN; [apply fmul_nan_r|].
    unfold unit_row, B. rewrite get_build2 by lia.
    now rewrite (unit_row_zero v1 i 2 Hz) by lia.
Qed.

Lemma rotation_matrices_from_vectors_zero_vector_witness :
  exists M,
    rotation_matrices_from_vectors unit_x zero_axis = Ok M /\
    np.shape M = [1; 3; 3] /\
    np.get M [0; 1; 2] = NaN.
Proof.
  apply (rotation_matrices_from_vectors_zero_vector 1 unit_x zero_axis 0 1 2).
  - reflexivity.
  - reflexivity.
  - lia.
  - lia.
  - lia.
  - right. repeat split.
Defined.

(** X22.  The lengths of the three vectors are ignored by
    [rotation_matrices_from_basis]: for finite nonzero vectors, column
    [col] of the matrix at an index is the unit vector along supplied
    vector number [col]. *)
Theorem rotation_matrices_from_basis_normalises :
  forall n ux uy uz i a b c r col,
    np.shape ux = [n; 3] -> np.shape uy = [n; 3] -> np.shape uz = [n; 3] ->
    i < n ->
    row_is ux i a -> row_is uy i b -> row_is uz i c ->
    a <> V3 0 0 0 -> b <> V3 0 0 0 -> c <> V3 0 0 0 ->
    r < 3 -> col < 3 ->
    exists M,
      rotation_matrices_from_basis ux uy uz = Ok M /\
      np.get M [i; r; col] =
        Fin (coord (nth col [unit3 a; unit3 b; unit3 c] (unit3 a)) r).
Proof.
  intros n ux uy uz i a b c r col Hx Hy Hz Hi Ra Rb Rc Na Nb Nc Hr Hcol.
  destruct (rotation_matrices_from_basis_columns n ux uy uz i a b c)
    as (M & HM & _ & HE); try assumption.
  exists M. split; [exact HM|]. now apply HE.
Qed.

Lemma rotation_matrices_from_basis_normalises_witness :
  exists M,
    rotation_matrices_from_basis long_x unit_y unit_z = Ok M /\
    np.get M [0; 0; 0] =
      Fin (coord (nth 0 [unit3 (V3 2 0 0); unit3 (V3 0 1 0);
                         unit3 (V3 0 0 1)] (unit3 (V3 2 0 0))) 0).
Proof.
  apply (rotation_matrices_from_basis_normalises
           1 long_x unit_y unit_z 0 (V3 2 0 0) (V3 0 1 0) (V3 0 0 1) 0 0).
  - reflexivity.
  - reflexivity.
  - reflexivity.
  - lia.
  - repeat split.
  - repeat split.
  - repeat split.
  - intro E. inversion E. lra.
  - intro E. inversion E. lra.
  - intro E. inversion E. lra.
  - lia.
  - lia.
Defined.

(** X23.  When the three vectors at an index form a right-handed
    orthonormal frame (unit length, pairwise orthogonal, the third the
    cross product of the first two), the matrix of
    [rotation_matrices_from_basis] at that index is a rotation: orthonormal
    with determinant 1. *)
Theorem rotation_matrices_from_basis_is_rotation :
  forall n ux uy uz i a b c r col,
    np.shape ux = [n; 3] -> np.shape uy = [n; 3] -> np.shape uz = [n; 3] ->
    i < n ->
    row_is ux i a -> row_is uy i b -> row_is uz i c ->
    norm3 a = 1%R -> norm3 b = 1%R -> norm3 c = 1%R ->
    dot3 a b = 0%R -> dot3 a c = 0%R -> dot3 b c = 0%R -> cross3 a b = c ->
    r < 3 -> col < 3 ->
    exists M,
      rotation_matrices_from_basis ux uy uz = Ok M /\
      gram M i r col = Fin (kron r col) /\
      det3 M i = Fin 1.
Proof.
  intros n ux uy uz i a b c r col Hx Hy Hz Hi Ra Rb Rc Na Nb Nc
    Hab Hac Hbc Hcr Hr Hcol.
  destruct (rotation_matrices_from_basis_columns n ux uy uz i a b c)
    as (M & HM & _ & HE); try assumption; try (now apply unit_nonzero).
  rewrite (unit3_of_unit a Na), (unit3_of_unit b Nb), (unit3_of_unit c Nc) in HE.
  assert (Da : dot3 a a = 1%R) by (rewrite <- norm3_sqr, Na; ring).
  assert (Db : dot3 b b = 1%R) by (rewrite <- norm3_sqr, Nb; ring).
  assert (Dc : dot3 c c = 1%R) by (rewrite <- norm3_sqr, Nc; ring).
  exists M. split; [exact HM|]. split.
  - unfold gram. cbn [seq map]. rewrite !HE by lia.
    unfold fsum. cbn [fold_left fadd fmul fzero]. f_equal.
    rewrite <- (frame_matrix_orthonormal a b c r col); try assumption. ring.
  - unfold det3. rewrite !HE by lia. cbn [fadd fsub fmul fneg]. f_equal.
    rewrite <- (frame_matrix_det a b c Dc Hcr). unfold det3R. ring.
Qed.

Lemma rotation_matrices_from_basis_is_rotation_witness :
  exists M,
    rotation_matrices_from_basis unit_y unit_z unit_x = Ok M /\
    gram M 0 0 1 = Fin (kron 0 1) /\
    det3 M 0 = Fin 1.
Proof.
  assert (N : forall x y z : R,
             (x * x + y * y + z * z = 1)%R -> norm3 (V3 x y z) = 1%R).
  { intros x y z E. unfold norm3, dot3. simpl. rewrite E. apply sqrt_1. }
  apply (rotation_matrices_from_basis_is_rotation
           1 unit_y unit_z unit_x 0 (V3 0 1 0) (V3 0 0 1) (V3 1 0 0) 0 1).
  - reflexivity.
  - reflexivity.
  - reflexivity.
  - lia.
  - repeat split.
  - repeat split.
  - repeat split.
  - apply N. ring.
  - apply N. ring.
  - apply N. ring.
  - unfold dot3. simpl. ring.
  - unfold dot3. simpl. ring.
  - unfold dot3. simpl. ring.
  - unfold cross3. simpl. f_equal; ring.
  - lia.
  - lia.
Defined.

(** X24.  Applying the matrix of [rotation_matrices_from_basis] to the
    standard basis vector number [k] gives the unit vector along supplied
    vector number [k]: the matrix takes the standard frame to the supplied
    one. *)
Theorem rotation_matrices_from_basis_maps_standard_basis :
  forall n ux uy uz e opt i a b c k j,
    np.shape ux = [n; 3] -> np.shape uy = [n; 3] -> np.shape uz = [n; 3] ->
    np.shape e = [n; 3] -> i < n ->
    row_is ux i a -> row_is uy i b -> row_is uz i c ->
    a <> V3 0 0 0 -> b <> V3 0 0 0 -> c <> V3 0 0 0 ->
    row_is e i (standard_basis k) -> k < 3 -> j < 3 ->
    exists M out,
      rotation_matrices_from_basis ux uy uz = Ok M /\
      rotate_vector_collection M e opt = Ok out /\
      np.get out [i; j] =
        Fin (coord (nth k [unit3 a; unit3 b; unit3 c] (unit3 a)) j).
Proof.
  intros n ux uy uz e opt i a b c k j Hx Hy Hz He Hi Ra Rb Rc Na Nb Nc Re Hk Hj.
  destruct (rotation_matrices_from_basis_columns n ux uy uz i a b c)
    as (M & HM & HS & HE); try assumption.
  exists M. eexists. split; [exact HM|].
  split; [apply (rotate_vector_collection_aligned n); assumption|].
  rewrite get_build2 by lia.
  rewrite (matvec_fin _ _ e i (standard_basis k) j HE Re Hj).
  now rewrite frame_matrix_standard_basis.
Qed.

Lemma rotation_matrices_from_basis_maps_standard_basis_witness :
  exists M out,
    rotation_matrices_from_basis unit_y unit_z long_x = Ok M /\
    rotate_vector_collection M unit_z false = Ok out /\
    np.get out [0; 0] =
      Fin (coord (nth 2 [unit3 (V3 0 1 0); unit3 (V3 0 0 1);
                         unit3 (V3 2 0 0)] (unit3 (V3 0 1 0))) 0).
Proof.
  apply (rotation_matrices_from_basis_maps_standard_basis
           1 unit_y unit_z long_x unit_z false 0
           (V3 0 1 0) (V3 0 0 1) (V3 2 0 0) 2 0).
  - reflexivity.
  - reflexivity.
  - reflexivity.
  - reflexivity.
  - lia.
  - repeat split.
  - repeat split.
  - repeat split.
  - intro E. inversion E. lra.
  - intro E. inversion E. lra.
  - intro E. inversion E. lra.
  - repeat split.
  - lia.
  - lia.
Defined.

End FurtherVectors.

(** ** Vectors between two vectors, and the projection *)

Section FurtherBetween.
Import Rotations3d.

(** X25.  With all fractions finite and in the closed interval from 0 to
    1, at an index where the two vectors are finite, of ordinary size
    ([well_scaled]) and separated from parallel and antiparallel
    ([separated]), and the fraction is 0,
    [vectors_between_list_of_vectors] returns an array of shape [(n, 3)]
    whose row at that index is the unit vector along [x].  Equality of
    real numbers stands for equality up to floating tolerance, which the
    two conditions warrant: the normal of the plane is then a finite
    vector. *)
Theorem vectors_between_fraction_zero :
  forall n x y p i a0 b0,
    np.shape x = [n; 3] -> np.shape y = [n; 3] -> np.shape p = [n] ->
    (forall k, k < n -> fraction (np.get p [k])) -> i < n ->
    row_is x i a0 -> row_is y i b0 ->
    well_scaled a0 -> well_scaled b0 -> separated a0 b0 ->
    np.get p [i] = Fin 0 ->
    exists out,
      vectors_between_list_of_vectors x y p = Ok out /\
      np.shape out = [n; 3] /\
      row_is out i (unit3 a0).
Proof.
  intros n x y p i a0 b0 Hx Hy Hp Hf Hi Ra Rb Wa Wb Hs Hpi.
  pose proof (separated_nonparallel a0 b0 Wa Wb Hs) as Hc.
  destruct (vectors_between_row n x y p i a0 b0 0%R)
    as (out & HO & HSh & HR); try assumption.
  exists out. split; [exact HO|]. split; [exact HSh|].
  rewrite Rmult_0_l, mat_vec_identity in HR. exact HR.
Qed.

Lemma vectors_between_fraction_zero_witness :
  exists out,
    vectors_between_list_of_vectors long_x unit_y zero_angle = Ok out /\
    np.shape out = [1; 3] /\
    row_is out 0 (unit3 (V3 2 0 0)).
Proof.
  apply (vectors_between_fraction_zero
           1 long_x unit_y zero_angle 0 (V3 2 0 0) (V3 0 1 0)).
  - reflexivity.
  - reflexivity.
  - reflexivity.
  - intros k Hk. assert (k = 0) by lia. subst k.
    exists 0%R. split; [reflexivity|lra].
  - lia.
  - repeat split.
  - repeat split.
  - unfold well_scaled, dot3. simpl. lra.
  - unfold well_scaled, dot3. simpl. lra.
  - unfold separated, dot3, cross3. simpl. lra.
  - reflexivity.
Defined.

(** X26.  Under the same conditions (fractions in the closed interval
    from 0 to 1, vectors finite, [well_scaled] and [separated]), at an
    index where the fraction is 1, [vectors_between_list_of_vectors]
    returns an array of shape [(n, 3)] whose row at that index is the unit
    vector along [y], up to floating tolerance. *)
Theorem vectors_between_fraction_one :
  forall n x y p i a0 b0,
    np.shape x = [n; 3] -> np.shape y = [n; 3] -> np.shape p = [n] ->
    (forall k, k < n -> fraction (np.get p [k])) -> i < n ->
    row_is x i a0 -> row_is y i b0 ->
    well_scaled a0 -> well_scaled b0 -> separated a0 b0 ->
    np.get p [i] = Fin 1 ->
    exists out,
      vectors_between_list_of_vectors x y p = Ok out /\
      np.shape out = [n; 3] /\
      row_is out i (unit3 b0).
Proof.
  intros n x y p i a0 b0 Hx Hy Hp Hf Hi Ra Rb Wa Wb Hs Hpi.
  pose proof (separated_nonparallel a0 b0 Wa Wb Hs) as Hc.
  destruct (vectors_between_row n x y p i a0 b0 1%R)
    as (out & HO & HSh & HR); try assumption.
  exists out. split; [exact HO|]. split; [exact HSh|].
  destruct (nonparallel_norms a0 b0 Hc) as (Na & Nb & Nw).
  rewrite Rmult_1_l, <- unit3_cross3_unit3 in HR by exact Hc.
  rewrite rodrigues_takes_onto in HR;
    try assumption; try (now apply dot3_unit3).
Qed.

Lemma vectors_between_fraction_one_witness :
  exists out,
    vectors_between_list_of_vectors long_x unit_y one_fraction = Ok out /\
    np.shape out = [1; 3] /\
    row_is out 0 (unit3 (V3 0 1 0)).
Proof.
  apply (vectors_between_fraction_one
           1 long_x unit_y one_fraction 0 (V3 2 0 0) (V3 0 1 0)).
  - reflexivity.
  - reflexivity.
  - reflexivity.
  - intros k Hk. assert (k = 0) by lia. subst k.
    exists 1%R. split; [reflexivity|lra].
  - lia.
  - repeat split.
  - repeat split.
  - unfold well_scaled, dot3. simpl. lra.
  - unfold well_scaled, dot3. simpl. lra.
  - unfold separated, dot3, cross3. simpl. lra.
  - reflexivity.
Defined.

(** X27.  Under the same conditions (fractions in the closed interval
    from 0 to 1, vectors finite, [well_scaled] and [separated]), at an
    index where the fraction is [t], the vector
    [vectors_between_list_of_vectors] returns has length one, lies in the
    plane of the two inputs (it is orthogonal to their cross product), and
    the angle between [x] and it is [t] times the angle between [x] and
    [y], up to floating tolerance. *)
Theorem vectors_between_angle :
  forall n x y p i a0 b0 t,
    np.shape x = [n; 3] -> np.shape y = [n; 3] -> np.shape p = [n] ->
    (forall k, k < n -> fraction (np.get p [k])) -> i < n ->
    row_is x i a0 -> row_is y i b0 ->
    well_scaled a0 -> well_scaled b0 -> separated a0 b0 ->
    np.get p [i] = Fin t ->
    exists out w,
      vectors_between_list_of_vectors x y p = Ok out /\
      np.shape out = [n; 3] /\
      row_is out i w /\
      norm3 w = 1%R /\
      dot3 w (cross3 a0 b0) = 0%R /\
      acos (dot3 (unit3 a0) w) = (t * acos (dot3 (unit3 a0) (unit3 b0)))%R.
Proof.
  intros n x y p i a0 b0 t Hx Hy Hp Hf Hi Ra Rb Wa Wb Hs Hpi.
  pose proof (separated_nonparallel a0 b0 Wa Wb Hs) as Hc.
  destruct (vectors_between_row n x y p i a0 b0 t)
    as (out & HO & HSh & HR); try assumption.
  destruct (nonparallel_norms a0 b0 Hc) as (Na & Nb & _).
  assert (Nw : norm3 (cross3 a0 b0) <> 0%R) by now apply nonzero_norm3.
  pose proof (dot3_unit3 _ Nw) as Uk.
  pose proof (dot3_unit3 _ Na) as Ua.
  assert (Hka : dot3 (unit3 (cross3 a0 b0)) (unit3 a0) = 0%R).
  { rewrite dot3_unit3_l.
    replace (dot3 (cross3 a0 b0) (unit3 a0))
      with (dot3 (cross3 a0 b0) a0 / norm3 a0)%R
      by (destruct a0, b0; unfold dot3, cross3, unit3; simpl; field; exact Na).
    rewrite cross3_orthogonal_l. unfold Rdiv. ring. }
  set (th := acos (dot3 (unit3 a0) (unit3 b0))) in *.
  set (k := unit3 (cross3 a0 b0)) in *.
  exists out, (mat_vec (rodrigues (t * th) k) (unit3 a0)).
  split; [exact HO|]. split; [exact HSh|]. split; [exact HR|].
  split; [|split].
  - unfold norm3. rewrite rodrigues_preserves_dot by exact Uk.
    rewrite Ua. apply sqrt_1.
  - replace (cross3 a0 b0) with (scale3 (norm3 (cross3 a0 b0)) k)
      by (now apply scale3_unit3).
    replace (dot3 (mat_vec (rodrigues (t * th) k) (unit3 a0))
               (scale3 (norm3 (cross3 a0 b0)) k))
      with (norm3 (cross3 a0 b0)
            * dot3 (mat_vec (rodrigues (t * th) k) (unit3 a0))
                   (mat_vec (rodrigues (t * th) k) k))%R.
    + rewrite rodrigues_preserves_dot by exact Uk.
      rewrite (dot3_sym (unit3 a0) k), Hka. ring.
    + rewrite (rodrigues_fixes_axis _ k Uk).
      destruct (mat_vec (rodrigues (t * th) k) (unit3 a0)), k.
      unfold dot3, scale3. simpl. ring.
  - rewrite dot3_rodrigues_perpendicular by assumption.
    apply acos_cos.
    destruct (Hf i Hi) as (t' & Et & Ht). rewrite Hpi in Et.
    inversion Et; subst t'.
    pose proof (acos_bound (dot3 (unit3 a0) (unit3 b0))) as B. fold th in B.
    split; nra.
Qed.

Lemma vectors_between_angle_witness :
  exists out w,
    vectors_between_list_of_vectors long_x unit_y half_fraction = Ok out /\
    np.shape out = [1; 3] /\
    row_is out 0 w /\
    norm3 w = 1%R /\
    dot3 w (cross3 (V3 2 0 0) (V3 0 1 0)) = 0%R /\
    acos (dot3 (unit3 (V3 2 0 0)) w) =
      (1 / 2 * acos (dot3 (unit3 (V3 2 0 0)) (unit3 (V3 0 1 0))))%R.
Proof.
  apply (vectors_between_angle
           1 long_x unit_y half_fraction 0 (V3 2 0 0) (V3 0 1 0) (1 / 2)%R).
  - reflexivity.
  - reflexivity.
  - reflexivity.
  - intros k Hk. assert (k = 0) by lia. subst k.
    exists (1 / 2)%R. split; [reflexivity|lra].
  - lia.
  - repeat split.
  - repeat split.
  - unfold well_scaled, dot3. simpl. lra.
  - unfold well_scaled, dot3. simpl. lra.
  - unfold separated, dot3, cross3. simpl. lra.
  - reflexivity.
Defined.

(** X28.  With all fractions finite and in the closed interval from 0 to
    1, at an index where the two vectors are finite and parallel (their
    cross product is zero), [vectors_between_list_of_vectors] raises no
    error, returns an array of shape [(n, 3)] and its row at that index
    has not-a-number in every component, whatever the fraction: the normal
    of the plane is not-a-number there. *)
Theorem vectors_between_parallel_nan :
  forall n x y p i a b c,
    np.shape x = [n; 3] -> np.shape y = [n; 3] -> np.shape p = [n] ->
    (forall k, k < n -> fraction (np.get p [k])) -> i < n -> c < 3 ->
    row_is x i a -> row_is y i b -> cross3 a b = V3 0 0 0 ->
    exists out,
      vectors_between_list_of_vectors x y p = Ok out /\
      np.shape out = [n; 3] /\
      np.get out [i; c] = NaN.
Proof.
  intros n x y p i a b c Hx Hy Hp Hf Hi Hc Ra Rb Hz.
  rewrite (vectors_between_steps n) by assumption. cbv zeta.
  rewrite (rotation_matrices_from_angles_eq n) by reflexivity. cbn [bind].
  rewrite (rotate_vector_collection_aligned n) by (reflexivity || assumption).
  cbn [bind].
  rewrite (normalized_vectors_eq n 3) by reflexivity.
  eexists. split; [reflexivity|]. split; [reflexivity|].
  rewrite get_build2 by lia. rewrite get_build2 by lia.
  rewrite matvec_nan; [reflexivity|].
  rewrite get_build3 by lia.
  apply rodrigues_code_nan; try lia.
  intros t Ht. unfold unit_row at 1. rewrite get_build2 by lia.
  rewrite unit_row_zero; [reflexivity| |exact Ht].
  rewrite <- Hz. now apply row_is_cross_code.
Qed.

Lemma vectors_between_parallel_nan_witness :
  exists out,
    vectors_between_list_of_vectors unit_x long_x half_fraction = Ok out /\
    np.shape out = [1; 3] /\
    np.get out [0; 0] = NaN.
Proof.
  apply (vectors_between_parallel_nan
           1 unit_x long_x half_fraction 0 (V3 1 0 0) (V3 2 0 0) 0).
  - reflexivity.
  - reflexivity.
  - reflexivity.
  - intros k Hk. assert (k = 0) by lia. subst k.
    exists (1 / 2)%R. split; [reflexivity|lra].
  - lia.
  - lia.
  - repeat split.
  - repeat split.
  - unfold cross3. simpl. f_equal; ring.
Defined.

(** X29.  [project_onto_plane] returns a result on no input at all; on
    every pair of collections of [n] 3-vectors the error it raises is the
    [NameError] for the unbound name [x]. *)
Theorem project_onto_plane_fails_on_every_input :
  forall (x1 x2 : np.ndarray fval),
    (forall out, project_onto_plane x1 x2 <> Ok out) /\
    (forall n, np.shape x1 = [n; 3] -> np.shape x2 = [n; 3] ->
       project_onto_plane x1 x2 = Raise (NameError "x")).
Proof.
  intros x1 x2. split.
  - intros out. apply project_onto_plane_never_returns.
  - intros n H1 H2. now apply (project_onto_plane_unbound_name n).
Qed.

Lemma project_onto_plane_fails_on_every_input_witness :
  (forall out, project_onto_plane two_vectors two_vectors <> Ok out) /\
  project_onto_plane two_vectors two_vectors = Raise (NameError "x").
Proof.
  destruct (project_onto_plane_fails_on_every_input two_vectors two_vectors)
    as (H1 & H2).
  split.
  - exact H1.
  - exact (H2 2 eq_refl eq_refl).
Defined.

End FurtherBetween.
